(** * The TPC-DI data generator notebook: generation and migration

    A shallow embedding of [src/tools/data_generator.py]: the functions
    [move_file], [copy_directory], [DIGen] and [generate_data], together
    with the parts of the Python library and of the platform they call
    (string methods, [os.path], [os.walk], [shutil], [shlex],
    [subprocess], [dbutils.fs], [spark.sql]).

    - Python [str] values are [string]s.
    - The file system is a tree of directories, regular files and named
      pipes; a path string is resolved from the root by its
      slash-separated components.
    - Effects are threaded through a monad that carries the file system,
      raises Python exceptions and logs the observable events (processes
      launched, text sent to the child, SQL statements, directories
      created, files copied, status lines printed).

    The first part holds the definitions, the second part the lemmas. *)

From Stdlib Require Import String Ascii List Bool Arith ZArith Lia Permutation.
Import ListNotations.

Local Open Scope string_scope.
Local Open Scope list_scope.

(* ================================================================== *)
(** * Part I: definitions *)
(* ================================================================== *)

(** ** Python strings *)

Definition slash : ascii := "/"%char.

(** The line feed, Python's ["\n"]. *)
Definition nl : string := String (ascii_of_nat 10) EmptyString.

(** [s.startswith("/")] *)
Definition starts_with_slash (s : string) : bool :=
  match s with
  | String c _ => Ascii.eqb c slash
  | EmptyString => false
  end.

(** [s.endswith("/")] *)
Fixpoint ends_with_slash (s : string) : bool :=
  match s with
  | EmptyString => false
  | String c EmptyString => Ascii.eqb c slash
  | String _ s' => ends_with_slash s'
  end.

(** [posixpath.join(a, b)]: an absolute [b] discards [a]; otherwise one
    separator stands between the two unless [a] is empty or already ends
    with one. *)
Definition py_join (a b : string) : string :=
  if starts_with_slash b then b
  else if (String.eqb a "" || ends_with_slash a)%bool then a ++ b
  else a ++ "/" ++ b.

(** [old in s]: some suffix of [s] starts with [old]. *)
Fixpoint occurs (old s : string) : bool :=
  (String.prefix old s ||
   match s with
   | EmptyString => false
   | String _ s' => occurs old s'
   end)%bool.

(** Scanning loop of [str.replace] for a non-empty [old]: [skip] counts
    the characters of a match that are still to be passed over, so that
    matches never overlap. *)
Fixpoint replace_from (old new : string) (skip : nat) (s : string) : string :=
  match s with
  | EmptyString => EmptyString
  | String c s' =>
      match skip with
      | S k => replace_from old new k s'
      | O =>
          if String.prefix old s
          then new ++ replace_from old new (String.length old - 1) s'
          else String c (replace_from old new 0 s')
      end
  end.

(** With an empty [old], Python inserts [new] before every character and
    at the end. *)
Fixpoint intersperse (new s : string) : string :=
  match s with
  | EmptyString => new
  | String c s' => new ++ String c (intersperse new s')
  end.

(** [s.replace(old, new)]: every non-overlapping occurrence, leftmost
    first. *)
Definition py_replace (s old new : string) : string :=
  match old with
  | EmptyString => intersperse new s
  | _ => replace_from old new 0 s
  end.

(** Number of slashes of a string. *)
Fixpoint slashes (s : string) : nat :=
  match s with
  | EmptyString => 0
  | String c s' => (if Ascii.eqb c slash then 1 else 0) + slashes s'
  end.

(** A directory entry name: not empty, no slash. *)
Definition valid_name (s : string) : bool :=
  (negb (String.eqb s "") && Nat.eqb (slashes s) 0)%bool.

(** The components of a path: its maximal slash-free, non-empty pieces,
    in order (repeated and trailing slashes separate nothing). *)
Fixpoint segs (s : string) : list string :=
  match s with
  | EmptyString => []
  | String c s' =>
      if Ascii.eqb c slash then segs s'
      else
        match s' with
        | EmptyString => [String c EmptyString]
        | String c' _ =>
            if Ascii.eqb c' slash then String c EmptyString :: segs s'
            else
              match segs s' with
              | x :: r => String c x :: r
              | [] => [String c EmptyString]
              end
        end
  end.

(** *** [shlex.split]

    The POSIX-mode tokenizer of [shlex.read_token] with
    [whitespace_split] set and no comment characters, which is what
    [shlex.split(cmd)] runs.  [ShSpace] is the state [' '], [ShWord] the
    state ['a'], [ShQuote q] the state of an open quote [q], and
    [ShEsc back] the state after a backslash, [back] being the quote to
    return to ([escapedstate]) or [None] for ['a']. *)

Inductive shstate : Type :=
| ShSpace
| ShWord
| ShQuote (q : ascii)
| ShEsc (back : option ascii).

Definition is_ws (c : ascii) : bool :=
  (Ascii.eqb c " " || Ascii.eqb c (ascii_of_nat 9) ||
   Ascii.eqb c (ascii_of_nat 13) || Ascii.eqb c (ascii_of_nat 10))%bool%char.

Definition dquote : ascii := ascii_of_nat 34.
Definition squote : ascii := ascii_of_nat 39.
Definition backslash : ascii := ascii_of_nat 92.

Definition is_quote (c : ascii) : bool :=
  (Ascii.eqb c squote || Ascii.eqb c dquote)%bool.

Definition is_esc (c : ascii) : bool := Ascii.eqb c backslash.

Definition snoc (tok : string) (c : ascii) : string :=
  tok ++ String c EmptyString.

(** A finished token is kept when it is not empty or was quoted. *)
Definition emit_token (quoted : bool) (tok : string) (rest : list string)
  : list string :=
  if (negb (String.eqb tok "") || quoted)%bool then tok :: rest else rest.

(** [None] is the [ValueError] of an unclosed quote or of a trailing
    backslash. *)
Fixpoint shlex_scan (st : shstate) (quoted : bool) (tok : string) (s : string)
  : option (list string) :=
  match s with
  | EmptyString =>
      match st with
      | ShSpace => Some []
      | ShWord => Some (emit_token quoted tok [])
      | ShQuote _ => None
      | ShEsc _ => None
      end
  | String c s' =>
      match st with
      | ShSpace =>
          if is_ws c then shlex_scan ShSpace false "" s'
          else if is_esc c then shlex_scan (ShEsc None) false "" s'
          else if is_quote c then shlex_scan (ShQuote c) false "" s'
          else shlex_scan ShWord false (String c EmptyString) s'
      | ShQuote q =>
          if Ascii.eqb c q then shlex_scan ShWord true tok s'
          else if (is_esc c && Ascii.eqb q dquote)%bool
               then shlex_scan (ShEsc (Some q)) true tok s'
               else shlex_scan (ShQuote q) true (snoc tok c) s'
      | ShEsc (Some q) =>
          let tok' :=
            if (negb (Ascii.eqb c backslash) && negb (Ascii.eqb c q))%bool
            then snoc tok backslash else tok in
          shlex_scan (ShQuote q) quoted (snoc tok' c) s'
      | ShEsc None => shlex_scan ShWord quoted (snoc tok c) s'
      | ShWord =>
          if is_ws c
          then option_map (emit_token quoted tok) (shlex_scan ShSpace false "" s')
          else if is_quote c then shlex_scan (ShQuote c) quoted tok s'
          else if is_esc c then shlex_scan (ShEsc None) quoted tok s'
          else shlex_scan ShWord quoted (snoc tok c) s'
      end
  end.

Definition shlex_split (cmd : string) : option (list string) :=
  shlex_scan ShSpace false "" cmd.



(** ** The file system *)

(** A node is a regular file with its contents, a named pipe (an entry
    that is neither a directory nor a regular file), or a directory with
    its entries in listing order. *)
#[warnings="-register-all"]
Inductive node : Type :=
| File (data : string)
| Special
| Dir (entries : list (string * node)).

Definition is_dir_node (n : node) : bool :=
  match n with Dir _ => true | _ => false end.

Definition is_file_node (n : node) : bool :=
  match n with File _ => true | _ => false end.

Fixpoint find_entry (x : string) (es : list (string * node)) : option node :=
  match es with
  | [] => None
  | (y, n) :: es' => if String.eqb x y then Some n else find_entry x es'
  end.

(** Replaces the entry named [x], or appends it when there is none. *)
Fixpoint set_entry (x : string) (c : node) (es : list (string * node))
  : list (string * node) :=
  match es with
  | [] => [(x, c)]
  | (y, n) :: es' =>
      if String.eqb x y then (y, c) :: es' else (y, n) :: set_entry x c es'
  end.

Definition remove_entry (x : string) (es : list (string * node))
  : list (string * node) :=
  filter (fun e => negb (String.eqb x (fst e))) es.

(** Resolution of a list of components from a node. *)
Fixpoint lookup (p : list string) (n : node) : option node :=
  match p with
  | [] => Some n
  | x :: p' =>
      match n with
      | Dir es =>
          match find_entry x es with
          | Some c => lookup p' c
          | None => None
          end
      | _ => None
      end
  end.

(** Resolution of a path string from the root [fs].  The empty path
    names nothing, and a path with a trailing slash names directories
    only.  Every path is read from the root (the working directory of
    the notebook is the root), and the components [.] and [..] are not
    interpreted. *)
Definition path_node (fs : node) (p : string) : option node :=
  if String.eqb p "" then None
  else
    match lookup (segs p) fs with
    | Some n =>
        if ends_with_slash p
        then (if is_dir_node n then Some n else None)
        else Some n
    | None => None
    end.

(** [os.path.exists], [os.path.isfile], [os.path.isdir] *)
Definition os_path_exists (fs : node) (p : string) : bool :=
  match path_node fs p with Some _ => true | None => false end.

Definition os_path_isfile (fs : node) (p : string) : bool :=
  match path_node fs p with Some (File _) => true | _ => false end.


(** Python exceptions.  All of them derive from [Exception]. *)
Inductive exn : Type :=
| FileNotFoundError
| FileExistsError
| NotADirectoryError
| IsADirectoryError
| SameFileError
| SpecialFileError
| ShutilError
| OSError
| ValueError
| StopIteration
| ConnectTimeout
| NotebookExit.

(** The chain of new directories [x1/x2/.../xn] below a new entry. *)
Fixpoint fresh_dirs (p : list string) : node :=
  match p with
  | [] => Dir []
  | x :: p' => Dir [(x, fresh_dirs p')]
  end.

(** [os.makedirs(p, exist_ok)] on components: existing directories are
    walked through, missing ones created; a non-directory on the way is
    [NotADirectoryError]; an existing last component is
    [FileExistsError] unless [exist_ok] holds and it is a directory. *)
Fixpoint makedirs (exist_ok : bool) (p : list string) (n : node) : exn + node :=
  match p with
  | [] =>
      if (exist_ok && is_dir_node n)%bool then inr n else inl FileExistsError
  | x :: p' =>
      match n with
      | Dir es =>
          match find_entry x es with
          | Some c =>
              match makedirs exist_ok p' c with
              | inr c' => inr (Dir (set_entry x c' es))
              | inl e => inl e
              end
          | None => inr (Dir (set_entry x (fresh_dirs p') es))
          end
      | _ => inl NotADirectoryError
      end
  end.

(** [open(p, "wb")] followed by writing [d] and closing, on components:
    the parent must be a directory and the target must not be a
    directory; an existing regular file is truncated and rewritten. *)
Fixpoint write_file (p : list string) (d : string) (n : node) : exn + node :=
  match p with
  | [] => inl IsADirectoryError
  | x :: p' =>
      match n with
      | Dir es =>
          match p' with
          | [] =>
              match find_entry x es with
              | Some (Dir _) => inl IsADirectoryError
              | Some Special => inl SpecialFileError
              | _ => inr (Dir (set_entry x (File d) es))
              end
          | _ :: _ =>
              match find_entry x es with
              | Some c =>
                  match write_file p' d c with
                  | inr c' => inr (Dir (set_entry x c' es))
                  | inl e => inl e
                  end
              | None => inl FileNotFoundError
              end
          end
      | _ => inl NotADirectoryError
      end
  end.

(** Removal of the entry at [p]. *)
Fixpoint remove_at (p : list string) (n : node) : node :=
  match p with
  | [] => n
  | x :: p' =>
      match n with
      | Dir es =>
          match p' with
          | [] => Dir (remove_entry x es)
          | _ :: _ =>
              match find_entry x es with
              | Some c => Dir (set_entry x (remove_at p' c) es)
              | None => n
              end
          end
      | _ => n
      end
  end.

(** Puts the tree [t] at [p]. *)
Fixpoint place (p : list string) (t : node) (n : node) : node :=
  match p with
  | [] => t
  | x :: p' =>
      match n with
      | Dir es =>
          match find_entry x es with
          | Some c => Dir (set_entry x (place p' t c) es)
          | None => Dir (set_entry x (place p' t (Dir [])) es)
          end
      | _ => n
      end
  end.

(** What [shutil.copytree] writes for a source tree: directories and
    regular files; a named pipe is not copied ([copyfile] refuses it). *)
Fixpoint copied_tree (n : node) : node :=
  match n with
  | Dir es =>
      Dir (flat_map
             (fun e : string * node =>
                match e with
                | (_, Special) => []
                | (x, c) => [(x, copied_tree c)]
                end) es)
  | File d => File d
  | Special => Special
  end.

Fixpoint has_special (n : node) : bool :=
  match n with
  | Special => true
  | File _ => false
  | Dir es =>
      existsb (fun e : string * node => match e with (_, c) => has_special c end) es
  end.

(** Names of the sub-directories and of the other entries of a listing:
    the [dirs] and [files] of an [os.walk] triple. *)
Definition dirnames (es : list (string * node)) : list string :=
  map fst (filter (fun e => is_dir_node (snd e)) es).

Definition filenames_of (es : list (string * node)) : list string :=
  map fst (filter (fun e => negb (is_dir_node (snd e))) es).

Definition triple : Type := string * list string * list string.

(** One step of the [os.walk] generator: a triple, or an exception that
    surfaces at this point of the iteration. *)
Inductive witem : Type :=
| Yield (t : triple)
| Fault.

(** [os.walk(top)], top down.  [fault root] tells that visiting the
    directory [root] raises; a consumer stops at the first [Fault], so
    what follows it in the list is never seen. *)
Fixpoint walk_node (fault : string -> bool) (root : string) (n : node)
  : list witem :=
  match n with
  | Dir es =>
      if fault root then [Fault]
      else
        Yield (root, dirnames es, filenames_of es)
        :: flat_map
             (fun e : string * node =>
                match e with
                | (x, c) =>
                    match c with
                    | Dir _ => walk_node fault (py_join root x) c
                    | _ => []
                    end
                end) es
  | _ => []
  end.

(** A [top] that is missing or not a directory yields nothing. *)
Definition os_walk (fault : string -> bool) (fs : node) (top : string)
  : list witem :=
  match path_node fs top with
  | Some n => walk_node fault top n
  | None => []
  end.

(** ** Effects *)

(** The status lines of the notebook that tell which branch was taken.
    (Banners and lines that only repeat a path are left out.) *)
Inductive msg : Type :=
| MsgMissingVars
| MsgFoundExisting (file_count : nat)
| MsgDirEmpty
| MsgProbeError
| MsgDirMissing
| MsgSkipped
| MsgProceeding
| MsgOverwriteDeleting
| MsgDeleted
| MsgCopied
| MsgFolderExists
| MsgFolderMissing
| MsgJarNotFound
| MsgClasspathDiagnostic
| MsgExitCode (return_code : Z) (line_count : nat)
| MsgDigenFailed (return_code : Z)
| MsgDigenOk
| MsgGenerationCompleted
| MsgFound (n : nat)
| MsgNoFilesWarning
| MsgOutputEmpty
| MsgOutputMissing
| MsgEnumerateWarning
| MsgProgress (completed_count total : nat)
| MsgConnectTimeout
| MsgMoveError
| MsgTransferComplete (completed_count total : nat)
| MsgCompletedSuccessfully
| MsgSkippingTransfer
| MsgCompletedWithWarnings.

Inductive event : Type :=
| EvSubprocessRun (args : list string)
| EvPopen (args : list string) (cwd : string)
| EvStdinWrite (s : string)
| EvStdinFlush
| EvReadline (output : string)
| EvStderrRead
| EvWait
| EvSql (query : string)
| EvMkdirs (path : string)
| EvRmtree (path : string)
| EvCopytree (src dst : string)
| EvCopyfile (src dst : string)
| EvNotebookExit
| EvPrint (m : msg).

Inductive res (A : Type) : Type :=
| Ok (a : A)
| Raise (e : exn).

Arguments Ok {A} a.
Arguments Raise {A} e.

(** The result of running a computation: its value or the exception it
    raised, the file system it leaves, the events in order. *)
Record run (A : Type) : Type := MkRun {
  outcome : res A;
  fs_after : node;
  log : list event
}.

Arguments MkRun {A} outcome fs_after log.
Arguments outcome {A} r.
Arguments fs_after {A} r.
Arguments log {A} r.

Definition M (A : Type) : Type := node -> run A.

Definition ret {A : Type} (a : A) : M A := fun fs => MkRun (Ok a) fs [].

Definition raise {A : Type} (e : exn) : M A := fun fs => MkRun (Raise e) fs [].

Definition bind {A B : Type} (m : M A) (k : A -> M B) : M B :=
  fun fs =>
    let r1 := m fs in
    match outcome r1 with
    | Ok a =>
        let r2 := k a (fs_after r1) in
        MkRun (outcome r2) (fs_after r2) (log r1 ++ log r2)
    | Raise e => MkRun (Raise e) (fs_after r1) (log r1)
    end.

Declare Scope py_scope.
Delimit Scope py_scope with py.

Notation "x <- m ;; k" := (bind m (fun x => k))
  (at level 61, m at next level, right associativity) : py_scope.
Notation "m ;; k" := (bind m (fun _ => k))
  (at level 61, right associativity) : py_scope.

Local Open Scope py_scope.

Definition emit (e : event) : M unit := fun fs => MkRun (Ok tt) fs [e].

Definition emit_all (es : list event) : M unit := fun fs => MkRun (Ok tt) fs es.

Definition get_fs : M node := fun fs => MkRun (Ok fs) fs [].

Definition put_fs (fs' : node) : M unit := fun _ => MkRun (Ok tt) fs' [].

Definition lift_res {A : Type} (r : res A) : M A := fun fs => MkRun r fs [].

(** A file-system operation that either fails, leaving the tree as it
    was, or returns the new tree. *)
Definition lift_fs (f : node -> exn + node) : M unit :=
  fun fs =>
    match f fs with
    | inr fs' => MkRun (Ok tt) fs' []
    | inl e => MkRun (Raise e) fs []
    end.

(** [try: m except ...]: [handler e] is the body of the clause that
    matches [e], or [None] when no clause does. *)
Definition try_except {A : Type} (m : M A) (handler : exn -> option (M A)) : M A :=
  fun fs =>
    let r1 := m fs in
    match outcome r1 with
    | Ok a => r1
    | Raise e =>
        match handler e with
        | Some h =>
            let r2 := h (fs_after r1) in
            MkRun (outcome r2) (fs_after r2) (log r1 ++ log r2)
        | None => r1
        end
    end.

(** A task of the thread pool: its exception, if any, is kept in the
    future and raised only by [future.result()]. *)
Definition capture {A : Type} (m : M A) : M (res A) :=
  fun fs => let r1 := m fs in MkRun (Ok (outcome r1)) (fs_after r1) (log r1).

(** ** Consumers of [os.walk] *)

(** [any(os.path.isfile(os.path.join(root, f))
         for root, dirs, files in os.walk(top) for f in files)]:
    stops at the first regular file. *)
Fixpoint any_isfile (fs : node) (items : list witem) : res bool :=
  match items with
  | [] => Ok false
  | Fault :: _ => Raise OSError
  | Yield (root, _, files) :: rest =>
      if existsb (fun f => os_path_isfile fs (py_join root f)) files
      then Ok true
      else any_isfile fs rest
  end.

(** [sum(len(files) for _, _, files in os.walk(top))] *)
Fixpoint count_files (items : list witem) : res nat :=
  match items with
  | [] => Ok 0
  | Fault :: _ => Raise OSError
  | Yield (_, _, files) :: rest =>
      match count_files rest with
      | Ok n => Ok (length files + n)
      | Raise e => Raise e
      end
  end.

(** [[os.path.join(root, name)
      for root, dirs, files in os.walk(top) for name in files]] *)
Fixpoint list_files (items : list witem) : res (list string) :=
  match items with
  | [] => Ok []
  | Fault :: _ => Raise OSError
  | Yield (root, _, files) :: rest =>
      match list_files rest with
      | Ok l => Ok (map (py_join root) files ++ l)
      | Raise e => Raise e
      end
  end.

(** [next(os.walk(top))] *)
Definition walk_next (items : list witem) : res triple :=
  match items with
  | [] => Raise StopIteration
  | Fault :: _ => Raise OSError
  | Yield t :: _ => Ok t
  end.

(** ** [shutil] *)

Fixpoint segs_eqb (p q : list string) : bool :=
  match p, q with
  | [], [] => true
  | x :: p', y :: q' => (String.eqb x y && segs_eqb p' q')%bool
  | _, _ => false
  end.

(** [os.path.samefile] as [shutil._samefile] uses it: both paths exist
    and name the same node. *)
Definition samefile (fs : node) (a b : string) : bool :=
  (os_path_exists fs a && os_path_exists fs b && segs_eqb (segs a) (segs b))%bool.

Definition is_fifo (fs : node) (p : string) : bool :=
  match path_node fs p with Some Special => true | _ => false end.

(** [shutil.copyfile(src, dst)]: refuses a file copied onto itself and
    named pipes, reads all of [src], then creates or truncates [dst] and
    writes it. *)
Definition shutil_copyfile (src dst : string) : M unit :=
  emit (EvCopyfile src dst) ;;
  fs <- get_fs ;;
  if samefile fs src dst then raise SameFileError
  else if (is_fifo fs src || is_fifo fs dst)%bool then raise SpecialFileError
  else
    match path_node fs src with
    | None => raise FileNotFoundError
    | Some (Dir _) => raise IsADirectoryError
    | Some Special => raise SpecialFileError
    | Some (File d) =>
        if (String.eqb dst "" || ends_with_slash dst)%bool
        then raise (if String.eqb dst "" then FileNotFoundError else IsADirectoryError)
        else lift_fs (write_file (segs dst) d)
    end.

(** [shutil.rmtree(path)] with the default error handler. *)
Definition shutil_rmtree (path : string) : M unit :=
  emit (EvRmtree path) ;;
  fs <- get_fs ;;
  match path_node fs path with
  | None => raise FileNotFoundError
  | Some (Dir _) =>
      match segs path with
      | [] => raise OSError
      | _ :: _ => put_fs (remove_at (segs path) fs)
      end
  | Some _ => raise NotADirectoryError
  end.

(** [shutil.copytree(src, dst)]: lists [src], creates [dst] with
    [os.makedirs(dst)] (so an existing [dst] is [FileExistsError]),
    copies the tree as it was listed, and raises [shutil.Error] at the
    end when some entry could not be copied. *)
Definition shutil_copytree (src dst : string) : M string :=
  emit (EvCopytree src dst) ;;
  fs <- get_fs ;;
  match path_node fs src with
  | None => raise FileNotFoundError
  | Some (Dir es) =>
      lift_fs (makedirs false (segs dst)) ;;
      fs1 <- get_fs ;;
      put_fs (place (segs dst) (copied_tree (Dir es)) fs1) ;;
      if has_special (Dir es) then raise ShutilError else ret dst
  | Some _ => raise NotADirectoryError
  end.

(** ** The notebook's functions *)

(** Lines 51-53. *)
Definition move_file (source_location target_location : string) : M string :=
  shutil_copyfile source_location target_location ;;
  ret ("Finished moving " ++ source_location ++ " to " ++ target_location)%string.

(** Lines 55-67.  The result is [Some dst] for the path returned by
    [copytree] and [None] for Python's [None]. *)
Definition copy_directory (source_dir target_dir : string) (overwrite : bool)
  : M (option string) :=
  fs <- get_fs ;;
  (if (os_path_exists fs target_dir && overwrite)%bool
   then emit (EvPrint MsgOverwriteDeleting) ;;
        shutil_rmtree target_dir ;;
        emit (EvPrint MsgDeleted)
   else ret tt) ;;
  try_except
    (dst <- shutil_copytree source_dir target_dir ;;
     emit (EvPrint MsgCopied) ;;
     ret (Some dst))
    (fun e =>
       match e with
       | FileExistsError => Some (emit (EvPrint MsgFolderExists) ;; ret None)
       | FileNotFoundError => Some (emit (EvPrint MsgFolderMissing) ;; ret None)
       | _ => None
       end).

(** What the generator child does once launched: the lines it writes to
    its standard output, all of its standard error, its exit code, and
    the file system it leaves.  The child is one that terminates. *)
Record child_run : Type := MkChild {
  stdout_lines : list string;
  stderr_output : string;
  return_code : Z;
  child_fs : node
}.

(** The widget values and what the platform supplies.  A widget left
    empty and a global that was never assigned are both the empty
    string: the notebook treats them alike. *)
Record Env : Type := MkEnv {
  scale_factor : string;
  catalog : string;
  tpcdi_directory : string;
  workspace_src_path : string;
  UC_enabled : bool;
  lighthouse : bool;
  (** [sc.defaultParallelism] *)
  defaultParallelism : nat;
  (** whether the row count queried from the catalog's tables is positive *)
  catalog_has_tables : bool;
  (** directories whose visit by [os.walk] raises *)
  walk_fault : string -> bool;
  (** the generator: arguments, working directory, file system at launch *)
  digen_child : list string -> string -> node -> child_run;
  (** the order in which the pool of the given size completes its tasks *)
  schedule : nat -> list (string * string) -> list (string * string);
  (** the OS path of a [dbutils.fs] path *)
  dbfs_mount : string -> string
}.

(** The [while True] loop of lines 302-309 on a child that writes
    [lines] and exits: each [readline] returns a line with its line
    feed, which is printed and counted; at the end of the stream it
    returns [''] with the child gone, and the loop breaks. *)
Fixpoint read_loop (lines : list string) (line_count : nat) : list event * nat :=
  match lines with
  | [] => ([EvReadline ""], line_count)
  | l :: rest =>
      let r := read_loop rest (S line_count) in
      (EvReadline (l ++ nl) :: fst r, snd r)
  end.

(** Lines 262-337. *)
Definition DIGen (E : Env) (digen_path scale_factor output_path : string) : M unit :=
  (* the version check is wrapped in [try ... except Exception] *)
  emit (EvSubprocessRun ["java"; "-version"]) ;;
  fs <- get_fs ;;
  let digen_jar := (digen_path ++ "DIGen.jar")%string in
  if negb (os_path_exists fs digen_jar)
  then emit (EvPrint MsgJarNotFound) ;; ret tt
  else
    let cmd := ("java -Xmx2g -jar " ++ digen_path ++ "DIGen.jar -sf "
                ++ scale_factor ++ " -o " ++ output_path)%string in
    match shlex_split cmd with
    | None => raise ValueError
    | Some args =>
        emit (EvPopen args digen_path) ;;
        emit (EvStdinWrite nl) ;;
        emit EvStdinFlush ;;
        emit (EvStdinWrite ("YES" ++ nl)) ;;
        emit EvStdinFlush ;;
        let p3 := digen_child E args digen_path fs in
        let loop := read_loop (stdout_lines p3) 0 in
        emit_all (fst loop) ;;
        put_fs (child_fs p3) ;;
        emit EvStderrRead ;;
        (if (negb (String.eqb (stderr_output p3) "") &&
             (occurs "NoClassDefFoundError" (stderr_output p3) ||
              occurs "ClassNotFoundException" (stderr_output p3)))%bool
         then emit (EvPrint MsgClasspathDiagnostic)
         else ret tt) ;;
        emit EvWait ;;
        emit (EvPrint (MsgExitCode (return_code p3) (snd loop))) ;;
        if negb (Z.eqb (return_code p3) 0)
        then emit (EvPrint (MsgDigenFailed (return_code p3)))
        else emit (EvPrint MsgDigenOk)
    end.

(** Lines 120-134: the paths. *)
Definition DRIVER_ROOT : string := "/local_disk0".
Definition tpcdi_tmp_path : string := "/tmp/tpcdi/".
Definition driver_tmp_path : string := DRIVER_ROOT ++ tpcdi_tmp_path ++ "datagen/".

Definition driver_out_path (E : Env) : string :=
  DRIVER_ROOT ++ tpcdi_tmp_path ++ "sf=" ++ scale_factor E.

Definition volume_out_path (E : Env) : string :=
  tpcdi_directory E ++ "sf=" ++ scale_factor E.

Definition os_blob_out_path (E : Env) : string :=
  if UC_enabled E then volume_out_path E else "/dbfs" ++ volume_out_path E.

Definition blob_out_path (E : Env) : string :=
  if UC_enabled E then volume_out_path E else "dbfs:" ++ volume_out_path E.

(** Lines 84-93: a required string variable is missing when it is unset
    or empty; the two flags are always set (lines 30-31). *)
Definition missing_vars (E : Env) : bool :=
  (String.eqb (scale_factor E) "" || String.eqb (tpcdi_directory E) "" ||
   String.eqb (workspace_src_path E) "" || String.eqb (catalog E) "")%bool.

(** Lines 140-161: the value of [data_exists]. *)
Definition check_data_exists (E : Env) : M bool :=
  fs <- get_fs ;;
  if os_path_exists fs (os_blob_out_path E)
  then
    try_except
      (has_files <- lift_res (any_isfile fs (os_walk (walk_fault E) fs (os_blob_out_path E))) ;;
       if has_files : bool
       then
         file_count <- lift_res (count_files (os_walk (walk_fault E) fs (os_blob_out_path E))) ;;
         emit (EvPrint (MsgFoundExisting file_count)) ;;
         ret true
       else emit (EvPrint MsgDirEmpty) ;; ret false)
      (fun _ => Some (emit (EvPrint MsgProbeError) ;; ret false))
  else emit (EvPrint MsgDirMissing) ;; ret false.

(** Lines 181-194. *)
Definition provision_catalog (E : Env) : M unit :=
  if negb (String.eqb (catalog E) "hive_metastore")
  then
    emit (EvSql ("SELECT count(" ++ "*) FROM system.information_schema.tables WHERE table_catalog = '"
                 ++ catalog E ++ "'")) ;;
    (if negb (catalog_has_tables E)
     then emit (EvSql ("CREATE CATALOG IF NOT EXISTS " ++ catalog E)) ;;
          emit (EvSql ("GRANT ALL PRIVILEGES ON CATALOG " ++ catalog E
                       ++ " TO `account users`"))
     else ret tt) ;;
    emit (EvSql ("CREATE DATABASE IF NOT EXISTS " ++ catalog E
                 ++ ".tpcdi_raw_data COMMENT 'Schema for TPC-DI Raw Files Volume'")) ;;
    emit (EvSql ("CREATE VOLUME IF NOT EXISTS " ++ catalog E
                 ++ ".tpcdi_raw_data.tpcdi_volume COMMENT 'TPC-DI Raw Files'"))
  else ret tt.

(** [dbutils.fs.mkdirs(path)]: creates the directory and its missing
    parents; an existing directory is not an error. *)
Definition dbutils_fs_mkdirs (E : Env) (path : string) : M unit :=
  emit (EvMkdirs path) ;;
  lift_fs (makedirs true (segs (dbfs_mount E path))).

(** Lines 218-221. *)
Fixpoint mkdirs_each (E : Env) (subdirs : list string) : M unit :=
  match subdirs with
  | [] => ret tt
  | dir :: rest =>
      dbutils_fs_mkdirs E (blob_out_path E ++ "/" ++ dir) ;;
      mkdirs_each E rest
  end.

(** Lines 210-225. *)
Definition create_target_directories (E : Env) : M unit :=
  dbutils_fs_mkdirs E (blob_out_path E) ;;
  fs <- get_fs ;;
  try_except
    (walk_result <- lift_res (walk_next (os_walk (walk_fault E) fs (driver_out_path E))) ;;
     let subdirs := snd (fst walk_result) in
     mkdirs_each E subdirs)
    (fun e =>
       match e with
       | StopIteration => Some (emit (EvPrint MsgEnumerateWarning))
       | _ => None
       end).

(** Line 234: the tasks submitted to the pool, one per file name. *)
Definition submit_all (E : Env) (filenames : list string) : list (string * string) :=
  map (fun filename =>
         (filename, py_replace filename (driver_out_path E) (os_blob_out_path E)))
      filenames.

(** The pool runs every submitted task; [order] is the order in which
    they complete. *)
Fixpoint run_pool (order : list (string * string)) : M (list (res string)) :=
  match order with
  | [] => ret []
  | (source_location, target_location) :: rest =>
      r <- capture (move_file source_location target_location) ;;
      rs <- run_pool rest ;;
      ret (r :: rs)
  end.

(** Lines 236-248: the loop over [as_completed(futures)]. *)
Fixpoint as_completed_loop (total completed_count : nat) (results : list (res string))
  : list event * nat :=
  match results with
  | [] => ([], completed_count)
  | Ok _ :: rest =>
      let c := S completed_count in
      let r := as_completed_loop total c rest in
      ((if (Nat.eqb (c mod 10) 0 || Nat.eqb c total)%bool
        then [EvPrint (MsgProgress c total)] else []) ++ fst r, snd r)
  | Raise ConnectTimeout :: rest =>
      let r := as_completed_loop total completed_count rest in
      (EvPrint MsgConnectTimeout :: fst r, snd r)
  | Raise _ :: rest =>
      let r := as_completed_loop total completed_count rest in
      (EvPrint MsgMoveError :: fst r, snd r)
  end.

(** Lines 226-260. *)
Definition transfer_files (E : Env) (filenames : list string) : M unit :=
  let threads := if lighthouse E then 8 else defaultParallelism E in
  if Nat.ltb 0 (length filenames)
  then
    (* [ThreadPoolExecutor(max_workers=threads)] *)
    if Nat.eqb threads 0 then raise ValueError
    else
      results <- run_pool (schedule E threads (submit_all E filenames)) ;;
      let loop := as_completed_loop (length filenames) 0 results in
      emit_all (fst loop) ;;
      emit (EvPrint (MsgTransferComplete (snd loop) (length filenames))) ;;
      emit (EvPrint MsgCompletedSuccessfully)
  else
    emit (EvPrint MsgSkippingTransfer) ;;
    emit (EvPrint MsgCompletedWithWarnings).

(** Lines 200-207: the report of an empty enumeration.  [os.listdir]
    raises on a path that exists and is not a directory. *)
Definition report_no_files (E : Env) : M unit :=
  emit (EvPrint MsgNoFilesWarning) ;;
  fs <- get_fs ;;
  if os_path_exists fs (driver_out_path E)
  then
    match path_node fs (driver_out_path E) with
    | Some (Dir _) => emit (EvPrint MsgOutputEmpty)
    | _ => raise NotADirectoryError
    end
  else emit (EvPrint MsgOutputMissing).

(** Lines 176-260, "Step 3": everything that follows the return of
    [DIGen]. *)
Definition move_to_storage (E : Env) : M unit :=
  emit (EvPrint MsgGenerationCompleted) ;;
  provision_catalog E ;;
  fs <- get_fs ;;
  filenames <- lift_res (list_files (os_walk (walk_fault E) fs (driver_out_path E))) ;;
  emit (EvPrint (MsgFound (length filenames))) ;;
  (if Nat.eqb (length filenames) 0 then report_no_files E else ret tt) ;;
  create_target_directories E ;;
  transfer_files E filenames.

(** What is printed between the enumeration and the preparation of the
    destination. *)
Definition found_report (E : Env) (fs : node) (filenames : list string) : run unit :=
  (if Nat.eqb (length filenames) 0 then report_no_files E else ret tt) fs.

(** Lines 69-260. *)
Definition generate_data (E : Env) : M unit :=
  if missing_vars E
  then
    emit (EvPrint MsgMissingVars) ;;
    emit EvNotebookExit ;;
    raise NotebookExit
  else
    data_exists <- check_data_exists E ;;
    if data_exists : bool
    then emit (EvPrint MsgSkipped)
    else
      emit (EvPrint MsgProceeding) ;;
      copy_directory (workspace_src_path E ++ "/tools/datagen") driver_tmp_path true ;;
      DIGen E driver_tmp_path (scale_factor E) (driver_out_path E) ;;
      move_to_storage E.

(** ** Vocabulary of the statements *)

(** A tree as a file system lists it: entry names are not empty and
    hold no slash, and no directory lists a name twice. *)
Fixpoint names_nodup (l : list string) : bool :=
  match l with
  | [] => true
  | x :: r => (negb (existsb (String.eqb x) r) && names_nodup r)%bool
  end.

Fixpoint wf (n : node) : bool :=
  match n with
  | Dir es =>
      (forallb (fun e : string * node => valid_name (fst e)) es &&
       names_nodup (map fst es) &&
       forallb (fun e : string * node => match e with (_, c) => wf c end) es)%bool
  | _ => true
  end.

(** The kind of a node, which is all that the success of a copy depends
    on. *)
Inductive kind : Type := KFile | KSpecial | KDir.

Definition kind_of (n : node) : kind :=
  match n with
  | File _ => KFile
  | Special => KSpecial
  | Dir _ => KDir
  end.

Definition kind_at (p : list string) (fs : node) : option kind :=
  option_map kind_of (lookup p fs).

Fixpoint is_prefix (p q : list string) : bool :=
  match p, q with
  | [], _ => true
  | x :: p', y :: q' => (String.eqb x y && is_prefix p' q')%bool
  | _ :: _, [] => false
  end.

(** The relative path made of the components [names]. *)
Definition rel_path (names : list string) : string := String.concat "/" names.

(** Observers of a log. *)
Definition is_copy (e : event) : bool :=
  match e with EvCopyfile _ _ => true | _ => false end.

Definition is_launch (e : event) : bool :=
  match e with EvSubprocessRun _ | EvPopen _ _ => true | _ => false end.

Definition is_popen (e : event) : bool :=
  match e with EvPopen _ _ => true | _ => false end.

Definition is_sql (e : event) : bool :=
  match e with EvSql _ => true | _ => false end.

Definition is_mkdirs (e : event) : bool :=
  match e with EvMkdirs _ => true | _ => false end.

(** An event that acts on something outside the notebook: everything but
    a printed line. *)
Definition is_action (e : event) : bool :=
  match e with EvPrint _ => false | _ => true end.

Definition copy_calls (l : list event) : nat := length (filter is_copy l).

Definition sql_calls (l : list event) : list event := filter is_sql l.

Definition is_ok {A : Type} (r : res A) : bool :=
  match r with Ok _ => true | Raise _ => false end.

(** Number of futures that hold a result, and number that hold an
    exception. *)
Definition moved {A : Type} (rs : list (res A)) : nat := length (filter is_ok rs).

Definition failed {A : Type} (rs : list (res A)) : nat :=
  length (filter (fun r => negb (is_ok r)) rs).

(** Some regular file lies below the directory [n]. *)
Fixpoint has_file (n : node) : bool :=
  match n with
  | Dir es =>
      existsb (fun e : string * node =>
                 match e with
                 | (_, c) => (is_file_node c || has_file c)%bool
                 end) es
  | _ => false
  end.

(** The path [p] exists and a regular file is reachable below it. *)
Definition reachable_file (fs : node) (p : string) : Prop :=
  exists n rel d,
    path_node fs p = Some n /\ rel <> [] /\ lookup rel n = Some (File d).

(** The value that lines 140-161 give to [data_exists]. *)
Definition probe_value (E : Env) (fs : node) : bool :=
  (os_path_exists fs (os_blob_out_path E) &&
   match any_isfile fs (os_walk (walk_fault E) fs (os_blob_out_path E)),
         count_files (os_walk (walk_fault E) fs (os_blob_out_path E)) with
   | Ok true, Ok _ => true
   | _, _ => false
   end)%bool.

(** No visit of a directory raises. *)
Definition no_faults (E : Env) : Prop := forall p, walk_fault E p = false.

(** The storage API and the OS agree on where the destination is. *)
Definition mount_agrees (E : Env) : Prop :=
  forall s, dbfs_mount E (blob_out_path E ++ s) = (os_blob_out_path E ++ s)%string.

(** The schedule only reorders the submitted tasks. *)
Definition fair_schedule (E : Env) : Prop :=
  forall w jobs, Permutation (schedule E w jobs) jobs.

(** Step 1 and step 2 of a run that is not skipped: the copy of the
    tool, then the generator on the file system the copy leaves. *)
Definition tool_copy (E : Env) (fs : node) : run (option string) :=
  copy_directory (workspace_src_path E ++ "/tools/datagen") driver_tmp_path true fs.

Definition generation (E : Env) (fs : node) : run unit :=
  DIGen E driver_tmp_path (scale_factor E) (driver_out_path E)
        (fs_after (tool_copy E fs)).

(** The run gets as far as calling [DIGen]: the variables are set, the
    probe found nothing, the copy of the tool raised nothing. *)
Definition reaches_generation (E : Env) (fs : node) : Prop :=
  missing_vars E = false /\ probe_value E fs = false /\
  is_ok (outcome (tool_copy E fs)) = true.

(** Events that only step 3 produces do not satisfy [before_step3]. *)
Definition before_step3 (e : event) : bool :=
  match e with
  | EvSql _ | EvMkdirs _ | EvCopyfile _ _ => false
  | EvPrint MsgGenerationCompleted => false
  | _ => true
  end.

(** [emits P m]: every event that [m] logs satisfies [P]. *)
Definition emits {A : Type} (P : event -> Prop) (m : M A) : Prop :=
  forall fs, Forall P (log (m fs)).


(** An event of the phases that precede step 3. *)
Definition early (e : event) : Prop := before_step3 e = true.

Definition provision_statements (E : Env) : list event :=
  if negb (String.eqb (catalog E) "hive_metastore")
  then
    EvSql ("SELECT count(" ++ "*) FROM system.information_schema.tables WHERE table_catalog = '"
           ++ catalog E ++ "'")
    :: (if negb (catalog_has_tables E)
        then [EvSql ("CREATE CATALOG IF NOT EXISTS " ++ catalog E);
              EvSql ("GRANT ALL PRIVILEGES ON CATALOG " ++ catalog E
                     ++ " TO `account users`")]
        else [])
    ++ [EvSql ("CREATE DATABASE IF NOT EXISTS " ++ catalog E
               ++ ".tpcdi_raw_data COMMENT 'Schema for TPC-DI Raw Files Volume'");
        EvSql ("CREATE VOLUME IF NOT EXISTS " ++ catalog E
               ++ ".tpcdi_raw_data.tpcdi_volume COMMENT 'TPC-DI Raw Files'")]
  else [].

Definition silent (e : event) : Prop := is_sql e = false /\ is_copy e = false.

Definition copy_events (order : list (string * string)) : list event :=
  map (fun j => EvCopyfile (fst j) (snd j)) order.

Definition is_print (e : event) : bool :=
  match e with EvPrint _ => true | _ => false end.

(** The worker count of lines 226-227. *)
Definition threads_of (E : Env) : nat :=
  if lighthouse E then 8 else defaultParallelism E.

(** The command line of line 282. *)
Definition digen_cmd (digen_path scale_factor output_path : string) : string :=
  "java -Xmx2g -jar " ++ digen_path ++ "DIGen.jar -sf " ++ scale_factor
  ++ " -o " ++ output_path.

(** The launch sequence of lines 290-300. *)
Definition launch_events (args : list string) (digen_path : string) : list event :=
  [EvPopen args digen_path;
   EvStdinWrite nl; EvStdinFlush;
   EvStdinWrite ("YES" ++ nl); EvStdinFlush].

(** What follows the launch, lines 302-337, for the child [p3]. *)
Definition supervise_events (p3 : child_run) : list event :=
  fst (read_loop (stdout_lines p3) 0)
  ++ [EvStderrRead]
  ++ (if (negb (String.eqb (stderr_output p3) "") &&
          (occurs "NoClassDefFoundError" (stderr_output p3) ||
           occurs "ClassNotFoundException" (stderr_output p3)))%bool
      then [EvPrint MsgClasspathDiagnostic] else [])
  ++ [EvWait;
      EvPrint (MsgExitCode (return_code p3) (snd (read_loop (stdout_lines p3) 0)));
      EvPrint (if negb (Z.eqb (return_code p3) 0)
               then MsgDigenFailed (return_code p3) else MsgDigenOk)].

Definition version_check : event := EvSubprocessRun ["java"; "-version"].

(** Puts the tree [t] at the components [p], creating the directories
    on the way. *)
Definition graft (p : list string) (t : node) (fs : node) : node :=
  match makedirs true p fs with
  | inr fs' => place p t fs'
  | inl _ => fs
  end.

(** The DBFS mount: [dbfs:/x] is [/dbfs/x] for the OS; a volume path is
    the same for both. *)
Definition example_mount (p : string) : string :=
  if String.prefix "dbfs:" p
  then "/dbfs" ++ String.substring 5 (String.length p - 5) p
  else p.

Definition example_out : list string := ["local_disk0"; "tmp"; "tpcdi"; "sf=1"].

(** A workspace with the tool directory, holding the jar or not. *)
Definition example_fs (with_jar : bool) : node :=
  Dir [("ws", Dir [("tools",
         Dir [("datagen",
               Dir (if with_jar then [("DIGen.jar", File "jar")] else []))])])].

(** Scale factor 1; the generator writes the tree [out] as its output
    directory and exits with [code]; tasks complete in reverse order of
    submission. *)
Definition example_env (uc : bool) (cat : string) (code : Z) (out : node) : Env :=
  {| scale_factor := "1";
     catalog := cat;
     tpcdi_directory := "/Volumes/c/s/v/";
     workspace_src_path := "/ws";
     UC_enabled := uc;
     lighthouse := false;
     defaultParallelism := 4;
     catalog_has_tables := false;
     walk_fault := fun _ => false;
     digen_child := fun _ _ fs => MkChild ["AuditTotalRecordsSummaryWriter"] "" code
                                          (graft example_out out fs);
     schedule := fun _ jobs => rev jobs;
     dbfs_mount := example_mount |}.

Definition one_batch : node := Dir [("Batch1", Dir [("Date.txt", File "d")])].

(** The destination already holds one generated file. *)
Definition populated_fs : node :=
  graft ["Volumes"; "c"; "s"; "v"; "sf=1"] one_batch (example_fs true).

(** A stale file sits in the local output directory and the tool
    directory holds no jar. *)
Definition stale_fs : node :=
  graft example_out (Dir [("stale.txt", File "old")]) (example_fs false).

Definition gone_file : string := "/local_disk0/tmp/tpcdi/sf=1/gone.txt".


(** Lines 60-67: the [try] block of [copy_directory] with its two
    [except] clauses. *)
Definition copy_attempt (source_dir target_dir : string) : M (option string) :=
  try_except
    (dst <- shutil_copytree source_dir target_dir ;;
     emit (EvPrint MsgCopied) ;;
     ret (Some dst))
    (fun e =>
       match e with
       | FileExistsError => Some (emit (EvPrint MsgFolderExists) ;; ret None)
       | FileNotFoundError => Some (emit (EvPrint MsgFolderMissing) ;; ret None)
       | _ => None
       end).


Definition sep_after (a : string) : string :=
  if (String.eqb a "" || ends_with_slash a)%bool then "" else "/".

Definition batch_fs : node := graft example_out one_batch (Dir []).

(** An output directory that holds, four levels down, a path spelled
    like the output directory itself. *)
Definition nested_out : node :=
  Dir [("local_disk0",
        Dir [("tmp", Dir [("tpcdi", Dir [("sf=1", Dir [("x", File "")])])])])].

Definition nested_fs : node := graft example_out nested_out (Dir []).

Definition nested_file : string :=
  "/local_disk0/tmp/tpcdi/sf=1/local_disk0/tmp/tpcdi/sf=1/x".

(** What makes [shutil.copyfile(src, dst)] succeed: [src] is a regular
    file, [dst] is another path whose parent is a directory and which is
    absent or a regular file. *)
Definition copy_ready (fs : node) (src dst : string) : Prop :=
  String.eqb src "" = false /\ ends_with_slash src = false /\
  kind_at (segs src) fs = Some KFile /\
  String.eqb dst "" = false /\ ends_with_slash dst = false /\
  segs_eqb (segs src) (segs dst) = false /\
  (exists par x, segs dst = par ++ [x] /\ kind_at par fs = Some KDir) /\
  (kind_at (segs dst) fs = None \/ kind_at (segs dst) fs = Some KFile).

(** [prepared paths fs fs']: [fs'] is [fs] after [mkdirs] on each of
    [paths]: nodes keep their kind, the new nodes are the directories on
    the way to the paths, and what lies off the paths is untouched. *)
Definition prepared (paths : list (list string)) (fs fs' : node) : Prop :=
  (forall q,
     kind_at q fs' =
     match kind_at q fs with
     | Some k => Some k
     | None => if existsb (is_prefix q) paths then Some KDir else None
     end) /\
  (forall q, (forall p, In p paths -> is_prefix q p = false) ->
             lookup q fs' = lookup q fs).

(** The components of the destination sub-directory made for [dir]. *)
Definition subdir_path (E : Env) (dir : string) : list string :=
  segs (dbfs_mount E (blob_out_path E ++ "/" ++ dir)).

(** The sub-directories that lines 214-215 read off the output root. *)
Definition first_level_dirs (fs : node) (top : string) : list string :=
  match path_node fs top with
  | Some (Dir es) => dirnames es
  | _ => []
  end.

(** The generator writes one file three levels below the output root. *)
Definition deep_out : node :=
  Dir [("Batch1", Dir [("deep", Dir [("b.txt", File "B")])])].

Definition deep_fs : node := graft example_out deep_out (Dir []).


Definition deep_env : Env := example_env true "tpcdi" 0 deep_out.

Definition batch_file : string := "/local_disk0/tmp/tpcdi/sf=1/Batch1/Date.txt".

Definition batch_env : Env := example_env true "tpcdi" 0 one_batch.


(** A line that reports a failed copy (lines 245-248). *)
Definition is_warning (e : event) : bool :=
  match e with
  | EvPrint MsgMoveError | EvPrint MsgConnectTimeout => true
  | _ => false
  end.


(** The actions that a run of the notebook can take, on the paths it
    takes them: [P] holds of each. *)
Definition run_events (P : event -> Prop) (E : Env) : Prop :=
  (forall m, P (EvPrint m)) /\
  P (EvRmtree driver_tmp_path) /\
  P (EvCopytree (workspace_src_path E ++ "/tools/datagen") driver_tmp_path) /\
  P (EvSubprocessRun ["java"; "-version"]) /\
  (forall args, P (EvPopen args driver_tmp_path)) /\
  (forall s, P (EvStdinWrite s)) /\
  P EvStdinFlush /\
  (forall s, P (EvReadline s)) /\
  P EvStderrRead /\
  P EvWait /\
  (forall q, P (EvSql q)) /\
  (forall p, P (EvMkdirs p)) /\
  (forall s d, P (EvCopyfile s d)).


(** Whatever exists on the way to [p], and at [p], is a directory. *)
Definition can_host (fs : node) (p : list string) : Prop :=
  forall q k, is_prefix q p = true -> kind_at q fs = Some k -> k = KDir.

(** A source tree and a target for it. *)
Definition tool_src : node := Dir [("DIGen.jar", File "jar"); ("pdgf", Dir [("x", File "1")])].

Definition tool_fs : node :=
  Dir [("ws", Dir [("tools", Dir [("datagen", tool_src)])]);
       ("local_disk0", Dir [("tmp", Dir [("tpcdi", Dir [("datagen", Dir [("old", File "o")])])])])].

(** The four stretches of a run: the steps on the driver, the SQL
    statements, the creation of directories, the copies. *)
Definition on_driver (e : event) : Prop :=
  is_sql e = false /\ is_mkdirs e = false /\ is_copy e = false.

Definition in_provisioning (e : event) : Prop :=
  is_launch e = false /\ is_mkdirs e = false /\ is_copy e = false.

Definition in_preparation (e : event) : Prop :=
  is_launch e = false /\ is_sql e = false /\ is_copy e = false.

Definition in_transfer (e : event) : Prop :=
  is_launch e = false /\ is_sql e = false /\ is_mkdirs e = false.



(** The workspace holds a regular file where the tool directory should
    be. *)
Definition file_tool_fs : node := Dir [("ws", Dir [("tools", Dir [("datagen", File "x")])])].


(* ================================================================== *)
(** * Part II: lemmas *)
(* ================================================================== *)

(** ** Strings and paths *)

Lemma append_nil_r (s : string) : (s ++ "")%string = s.
Proof. induction s; simpl; congruence. Qed.

Lemma append_assoc (a b c : string) : ((a ++ b) ++ c)%string = (a ++ b ++ c)%string.
Proof. induction a; simpl; congruence. Qed.

Lemma slashes_append (a b : string) : slashes (a ++ b) = slashes a + slashes b.
Proof. induction a as [|c a IH]; simpl; [reflexivity | rewrite IH; lia]. Qed.

(** segs *)

Lemma segs_cons_slash (s : string) : segs (String slash s) = segs s.
Proof. reflexivity. Qed.

Lemma segs_nonempty (s : string) :
  s <> "" -> starts_with_slash s = false -> segs s <> [].
Proof.
  destruct s as [|c s]; [congruence|]. intros _ H. cbn [starts_with_slash] in H.
  cbn [segs]. rewrite H. destruct s as [|c' s]; [discriminate|].
  destruct (Ascii.eqb c' slash); [discriminate|].
  destruct (segs (String c' s)); discriminate.
Qed.

Lemma segs_sep (a b : string) : segs (a ++ "/" ++ b) = segs a ++ segs b.
Proof.
  induction a as [|c a IH].
  - reflexivity.
  - cbn [append]. cbn [segs]. destruct (Ascii.eqb c slash) eqn:Hc.
    + exact IH.
    + destruct a as [|c' a].
      * reflexivity.
      * cbn [append] in *. destruct (Ascii.eqb c' slash) eqn:Hc'.
        -- rewrite IH. reflexivity.
        -- rewrite IH.
           assert (Hne : segs (String c' a) <> []).
           { apply segs_nonempty; [discriminate | exact Hc']. }
           destruct (segs (String c' a)) as [|x r]; [congruence|]. reflexivity.
Qed.

Lemma ends_with_slash_split (a : string) :
  ends_with_slash a = true -> exists a0, a = (a0 ++ "/")%string.
Proof.
  induction a as [|c a IH]; [discriminate|].
  destruct a as [|c' a].
  - cbn. intros H. apply Ascii.eqb_eq in H. subst c. exists "". reflexivity.
  - intros H. change (ends_with_slash (String c' a) = true) in H.
    destruct (IH H) as [a0 Ha0]. exists (String c a0). cbn. now rewrite Ha0.
Qed.

Lemma segs_trailing (a : string) : segs (a ++ "/") = segs a.
Proof.
  transitivity (segs a ++ segs ""); [exact (segs_sep a "") | apply app_nil_r].
Qed.

Lemma segs_after_slash (a b : string) :
  ends_with_slash a = true -> segs (a ++ b) = segs a ++ segs b.
Proof.
  intros H. destruct (ends_with_slash_split _ H) as [a0 ->].
  rewrite append_assoc. rewrite segs_sep. now rewrite segs_trailing.
Qed.

Lemma valid_name_inv (x : string) :
  valid_name x = true -> x <> "" /\ slashes x = 0.
Proof.
  unfold valid_name. intros H. apply andb_true_iff in H as [H1 H2].
  apply negb_true_iff in H1. apply String.eqb_neq in H1. apply Nat.eqb_eq in H2.
  now split.
Qed.

Lemma segs_valid (x : string) : valid_name x = true -> segs x = [x].
Proof.
  intros H. apply valid_name_inv in H as [Hne Hs].
  induction x as [|c x IH]; [congruence|].
  cbn [slashes] in Hs. destruct (Ascii.eqb c slash) eqn:Hc; [lia|].
  cbn [segs]. rewrite Hc. destruct x as [|c' x]; [reflexivity|].
  assert (Hx : segs (String c' x) = [String c' x]).
  { apply IH; [discriminate | lia]. }
  cbn [slashes] in Hs. destruct (Ascii.eqb c' slash) eqn:Hc'; [lia|].
  rewrite Hx. reflexivity.
Qed.

Lemma valid_no_leading_slash (x : string) :
  valid_name x = true -> starts_with_slash x = false.
Proof.
  intros H. apply valid_name_inv in H as [Hne Hs].
  destruct x as [|c x]; [reflexivity|]. cbn in *. destruct (Ascii.eqb c slash); [lia|reflexivity].
Qed.

Lemma ends_with_slash_slashes (x : string) :
  ends_with_slash x = true -> 1 <= slashes x.
Proof.
  intros H. destruct (ends_with_slash_split _ H) as [a0 ->].
  rewrite slashes_append. cbn. lia.
Qed.

Lemma valid_no_trailing_slash (x : string) :
  valid_name x = true -> ends_with_slash x = false.
Proof.
  intros H. apply valid_name_inv in H as [Hne Hs].
  destruct (ends_with_slash x) eqn:He; [|reflexivity].
  apply ends_with_slash_slashes in He. lia.
Qed.

Lemma ends_with_slash_append (a b : string) :
  b <> "" -> ends_with_slash (a ++ b) = ends_with_slash b.
Proof.
  intros Hb. induction a as [|c a IH]; [reflexivity|].
  cbn [append]. 
  destruct (a ++ b)%string as [|c' s] eqn:Hab.
  - destruct a; [cbn in Hab; congruence | discriminate].
  - change (ends_with_slash (String c (String c' s))) with (ends_with_slash (String c' s)).
    exact IH.
Qed.

Lemma append_not_empty_r (a b : string) : b <> "" -> (a ++ b)%string <> "".
Proof. destruct a; cbn; [auto | discriminate]. Qed.

(** py_join *)

Lemma py_join_rel (a b : string) :
  starts_with_slash b = false ->
  py_join a b =
  (a ++ (if (String.eqb a "" || ends_with_slash a)%bool then "" else "/") ++ b)%string.
Proof.
  intros H. unfold py_join. rewrite H.
  destruct (String.eqb a "" || ends_with_slash a)%bool; reflexivity.
Qed.

Lemma segs_py_join (a x : string) :
  valid_name x = true -> segs (py_join a x) = segs a ++ [x].
Proof.
  intros Hx. rewrite py_join_rel by now apply valid_no_leading_slash.
  rewrite <- (segs_valid x Hx).
  destruct (String.eqb a "") eqn:Ha.
  - apply String.eqb_eq in Ha. subst a. reflexivity.
  - cbn [orb]. destruct (ends_with_slash a) eqn:He.
    + cbn [append]. now apply segs_after_slash.
    + apply segs_sep.
Qed.

Lemma py_join_not_empty (a x : string) :
  valid_name x = true -> String.eqb (py_join a x) "" = false.
Proof.
  intros Hx. apply String.eqb_neq.
  rewrite py_join_rel by now apply valid_no_leading_slash.
  apply append_not_empty_r, append_not_empty_r.
  now apply valid_name_inv in Hx.
Qed.

Lemma py_join_no_trailing_slash (a x : string) :
  valid_name x = true -> ends_with_slash (py_join a x) = false.
Proof.
  intros Hx. rewrite py_join_rel by now apply valid_no_leading_slash.
  rewrite <- append_assoc.
  rewrite ends_with_slash_append by now apply valid_name_inv in Hx.
  now apply valid_no_trailing_slash.
Qed.

(** ** Trees *)

Lemma node_rect' (P : node -> Prop) :
  (forall d, P (File d)) ->
  P Special ->
  (forall es, Forall (fun e => P (snd e)) es -> P (Dir es)) ->
  forall n, P n.
Proof.
  intros HF HS HD. fix IH 1. intros [d| |es].
  - apply HF.
  - apply HS.
  - apply HD. induction es as [|[x c] es IHes]; constructor.
    + exact (IH c).
    + exact IHes.
Qed.

Lemma lookup_app (p q : list string) (n : node) :
  lookup (p ++ q) n =
  match lookup p n with Some m => lookup q m | None => None end.
Proof.
  revert n. induction p as [|x p IH]; intros n; [reflexivity|].
  cbn [app lookup]. destruct n as [d| |es]; try reflexivity.
  destruct (find_entry x es); [apply IH | reflexivity].
Qed.

Lemma find_entry_In (x : string) (es : list (string * node)) (c : node) :
  find_entry x es = Some c -> In (x, c) es.
Proof.
  induction es as [|[y n] es IH]; cbn; [discriminate|].
  destruct (String.eqb x y) eqn:Hxy.
  - apply String.eqb_eq in Hxy. subst y. intros [= ->]. now left.
  - intros H. right. now apply IH.
Qed.

Lemma existsb_eqb_In (x : string) (l : list string) :
  existsb (String.eqb x) l = false -> ~ In x l.
Proof.
  intros H Hin. assert (existsb (String.eqb x) l = true); [|congruence].
  apply existsb_exists. exists x. split; [exact Hin | apply String.eqb_refl].
Qed.

Lemma find_entry_nodup (x : string) (c : node) (es : list (string * node)) :
  names_nodup (map fst es) = true -> In (x, c) es -> find_entry x es = Some c.
Proof.
  induction es as [|[y n] es IH]; [intros _ []|].
  cbn [map fst names_nodup find_entry]. intros H Hin.
  apply andb_true_iff in H as [Hy Hnd]. apply negb_true_iff in Hy.
  destruct Hin as [Heq|Hin].
  - injection Heq as -> ->. now rewrite String.eqb_refl.
  - destruct (String.eqb x y) eqn:Hxy.
    + apply String.eqb_eq in Hxy. subst y. exfalso.
      apply (existsb_eqb_In _ _ Hy). apply (in_map fst) in Hin. exact Hin.
    + now apply IH.
Qed.

Lemma wf_Dir (es : list (string * node)) :
  wf (Dir es) = true ->
  forall x c, In (x, c) es ->
    valid_name x = true /\ wf c = true /\ find_entry x es = Some c.
Proof.
  cbn [wf]. intros H x c Hin.
  apply andb_true_iff in H as [H Hwf]. apply andb_true_iff in H as [Hv Hnd].
  rewrite forallb_forall in Hv, Hwf.
  split; [exact (Hv _ Hin) | split; [exact (Hwf _ Hin) |]].
  now apply find_entry_nodup.
Qed.

Lemma wf_lookup (p : list string) (fs n : node) :
  wf fs = true -> lookup p fs = Some n -> wf n = true.
Proof.
  revert fs. induction p as [|x p IH]; intros fs Hwf; cbn [lookup].
  - now intros [= <-].
  - destruct fs as [d| |es]; try discriminate.
    destruct (find_entry x es) as [c|] eqn:Hc; [|discriminate].
    apply IH. apply find_entry_In in Hc. now apply (wf_Dir es Hwf x c).
Qed.

(** The node named by a directory's path joined with an entry name. *)
Lemma path_node_join (fs : node) (root x : string) (es : list (string * node)) :
  valid_name x = true ->
  lookup (segs root) fs = Some (Dir es) ->
  path_node fs (py_join root x) = find_entry x es.
Proof.
  intros Hx Hroot. unfold path_node.
  rewrite py_join_not_empty by exact Hx.
  rewrite segs_py_join by exact Hx.
  rewrite lookup_app, Hroot. cbn [lookup].
  rewrite py_join_no_trailing_slash by exact Hx.
  destruct (find_entry x es); reflexivity.
Qed.

Lemma lookup_join (fs : node) (root x : string) (es : list (string * node)) (c : node) :
  valid_name x = true ->
  lookup (segs root) fs = Some (Dir es) ->
  find_entry x es = Some c ->
  lookup (segs (py_join root x)) fs = Some c.
Proof.
  intros Hx Hroot Hc. rewrite segs_py_join by exact Hx.
  rewrite lookup_app, Hroot. cbn [lookup]. now rewrite Hc.
Qed.

Lemma path_node_lookup (fs : node) (p : string) (n : node) :
  path_node fs p = Some n -> lookup (segs p) fs = Some n.
Proof.
  unfold path_node. destruct (String.eqb p ""); [discriminate|].
  destruct (lookup (segs p) fs) as [m|]; [|discriminate].
  destruct (ends_with_slash p); [destruct (is_dir_node m)|]; congruence.
Qed.

(** ** The walk *)

Lemma any_isfile_app (fs : node) (l1 l2 : list witem) :
  any_isfile fs (l1 ++ l2) =
  match any_isfile fs l1 with
  | Ok false => any_isfile fs l2
  | r => r
  end.
Proof.
  induction l1 as [|[[[root ds] fsn]|] l1 IH]; cbn [app any_isfile]; try reflexivity.
  destruct (existsb _ fsn); [reflexivity | exact IH].
Qed.

Lemma walk_node_no_fault (fault : string -> bool) (root : string) (n : node) :
  (forall p, fault p = false) -> ~ In Fault (walk_node fault root n).
Proof.
  intros Hf. revert root. induction n as [d| |es IH] using node_rect'; intros root; cbn [walk_node];
    try (intros []).
  rewrite Hf. intros [H|H]; [discriminate|].
  apply in_flat_map in H as [[x c] [Hin H]].
  rewrite Forall_forall in IH. specialize (IH _ Hin). cbn [snd] in IH.
  destruct c; try contradiction. exact (IH _ H).
Qed.

Lemma existsb_files (fs : node) (root : string) (es : list (string * node)) :
  wf (Dir es) = true ->
  lookup (segs root) fs = Some (Dir es) ->
  existsb (fun f => os_path_isfile fs (py_join root f)) (filenames_of es) =
  existsb (fun e : string * node => is_file_node (snd e)) es.
Proof.
  intros Hwf Hroot. pose proof (wf_Dir es Hwf) as Hes.
  unfold filenames_of.
  assert (H : forall l, (forall x c, In (x, c) l -> In (x, c) es) ->
    existsb (fun f => os_path_isfile fs (py_join root f))
            (map fst (filter (fun e => negb (is_dir_node (snd e))) l)) =
    existsb (fun e : string * node => is_file_node (snd e)) l).
  { induction l as [|[x c] l IHl]; intros Hsub; [reflexivity|].
    assert (Hin : In (x, c) es) by (apply Hsub; now left).
    destruct (Hes x c Hin) as (Hv & _ & Hfind).
    assert (IHl' := IHl (fun y d Hy => Hsub y d (or_intror Hy))).
    cbn [filter snd]. destruct c as [d| |es']; cbn [is_dir_node negb map fst existsb is_file_node snd].
    - unfold os_path_isfile at 1. rewrite (path_node_join fs root x es Hv Hroot), Hfind.
      reflexivity.
    - unfold os_path_isfile at 1. rewrite (path_node_join fs root x es Hv Hroot), Hfind.
      cbn [orb]. exact IHl'.
    - exact IHl'. }
  apply H. auto.
Qed.

Lemma any_isfile_walk (fault : string -> bool) (fs : node) (n : node) :
  (forall p, fault p = false) ->
  forall root, wf n = true -> lookup (segs root) fs = Some n ->
  any_isfile fs (walk_node fault root n) = Ok (has_file n).
Proof.
  intros Hf. induction n as [d| |es IH] using node_rect'; intros root Hwf Hroot;
    try reflexivity.
  cbn [walk_node]. rewrite Hf. cbn [any_isfile].
  rewrite (existsb_files fs root es Hwf Hroot).
  pose proof (wf_Dir es Hwf) as Hes.
  assert (H : forall l, (forall x c, In (x, c) l -> In (x, c) es) ->
    any_isfile fs
      (flat_map (fun e : string * node =>
                   match e with
                   | (x, c) => match c with
                               | Dir _ => walk_node fault (py_join root x) c
                               | _ => []
                               end
                   end) l) =
    Ok (existsb (fun e : string * node => match e with (_, c) => has_file c end) l)).
  { induction l as [|[x c] l IHl]; intros Hsub; [reflexivity|].
    assert (Hin : In (x, c) es) by (apply Hsub; now left).
    destruct (Hes x c Hin) as (Hv & Hwfc & Hfind).
    assert (IHl' := IHl (fun y d Hy => Hsub y d (or_intror Hy))).
    cbn [flat_map existsb]. rewrite any_isfile_app.
    rewrite Forall_forall in IH. specialize (IH _ Hin). cbn [snd] in IH.
    destruct c as [d| |es'].
    - cbn. exact IHl'.
    - cbn. exact IHl'.
    - rewrite (IH (py_join root x) Hwfc (lookup_join fs root x es _ Hv Hroot Hfind)).
      destruct (has_file (Dir es')); [reflexivity | exact IHl']. }
  rewrite (H es) by auto.
  cbn [has_file].
  assert (Hex : forall l : list (string * node),
    (existsb (fun e => is_file_node (snd e)) l ||
     existsb (fun e : string * node => match e with (_, c) => has_file c end) l)%bool =
    existsb (fun e : string * node => match e with (_, c) => (is_file_node c || has_file c)%bool end) l).
  { induction l as [|[x c] l IHl]; [reflexivity|]. cbn [existsb snd]. rewrite <- IHl.
    destruct (is_file_node c), (has_file c), (existsb (fun e => is_file_node (snd e)) l);
      reflexivity. }
  rewrite <- Hex.
  destruct (existsb (fun e => is_file_node (snd e)) es); reflexivity.
Qed.


Lemma lookup_has_file (n : node) :
  forall rel d, rel <> [] -> lookup rel n = Some (File d) -> has_file n = true.
Proof.
  induction n as [d| |es IH] using node_rect'; intros rel d' Hne Hl;
    destruct rel as [|x rel]; try congruence; try discriminate.
  cbn [lookup] in Hl. destruct (find_entry x es) as [c|] eqn:Hfind; [|discriminate].
  apply find_entry_In in Hfind. cbn [has_file]. apply existsb_exists.
  exists (x, c). split; [exact Hfind|].
  rewrite Forall_forall in IH. specialize (IH _ Hfind). cbn [snd] in IH.
  destruct rel as [|y rel].
  - cbn in Hl. injection Hl as ->. reflexivity.
  - apply orb_true_iff. right. apply (IH (y :: rel) d'); [discriminate | exact Hl].
Qed.


Lemma count_files_ok (items : list witem) :
  ~ In Fault items -> exists n, count_files items = Ok n.
Proof.
  induction items as [|[[[root ds] fsn]|] items IH]; intros Hin.
  - now exists 0.
  - destruct IH as [n Hn]; [intros H; apply Hin; now right|].
    cbn [count_files]. rewrite Hn. eauto.
  - exfalso. apply Hin. now left.
Qed.

Lemma check_data_exists_run (E : Env) (fs : node) :
  outcome (check_data_exists E fs) = Ok (probe_value E fs) /\
  fs_after (check_data_exists E fs) = fs /\
  forallb (fun e => negb (is_action e)) (log (check_data_exists E fs)) = true.
Proof.
  unfold check_data_exists, probe_value, bind, try_except, get_fs, lift_res, emit, ret.
  cbn [outcome fs_after log].
  destruct (os_path_exists fs (os_blob_out_path E)); cbn; [|auto].
  destruct (any_isfile fs (os_walk (walk_fault E) fs (os_blob_out_path E))) as [[|]|e]; cbn; auto.
  destruct (count_files (os_walk (walk_fault E) fs (os_blob_out_path E))) as [n|e]; cbn; auto.
Qed.

(** ** The monad *)

Lemma bind_ok {A B : Type} (m : M A) (k : A -> M B) (fs : node) (a : A) :
  outcome (m fs) = Ok a ->
  bind m k fs =
  MkRun (outcome (k a (fs_after (m fs)))) (fs_after (k a (fs_after (m fs))))
        (log (m fs) ++ log (k a (fs_after (m fs)))).
Proof. intros H. unfold bind. now rewrite H. Qed.

Lemma bind_raise {A B : Type} (m : M A) (k : A -> M B) (fs : node) (e : exn) :
  outcome (m fs) = Raise e ->
  bind m k fs = MkRun (Raise e) (fs_after (m fs)) (log (m fs)).
Proof. intros H. unfold bind. now rewrite H. Qed.

Section Emits.
Variable P : event -> Prop.

Lemma emits_ret {A : Type} (a : A) : emits P (ret a).
Proof. intros fs. constructor. Qed.

Lemma emits_raise {A : Type} (e : exn) : emits P (@raise A e).
Proof. intros fs. constructor. Qed.

Lemma emits_get_fs : emits P get_fs.
Proof. intros fs. constructor. Qed.

Lemma emits_put_fs (fs' : node) : emits P (put_fs fs').
Proof. intros fs. constructor. Qed.

Lemma emits_lift_res {A : Type} (r : res A) : emits P (lift_res r).
Proof. intros fs. constructor. Qed.

Lemma emits_lift_fs (f : node -> exn + node) : emits P (lift_fs f).
Proof. intros fs. unfold lift_fs. destruct (f fs); constructor. Qed.

Lemma emits_emit (e : event) : P e -> emits P (emit e).
Proof. intros H fs. repeat constructor. exact H. Qed.

Lemma emits_emit_all (es : list event) : Forall P es -> emits P (emit_all es).
Proof. intros H fs. exact H. Qed.

Lemma emits_bind {A B : Type} (m : M A) (k : A -> M B) :
  emits P m -> (forall a, emits P (k a)) -> emits P (bind m k).
Proof.
  intros Hm Hk fs. unfold bind. destruct (outcome (m fs)) as [a|e]; cbn [log].
  - apply Forall_app. split; [apply Hm | apply Hk].
  - apply Hm.
Qed.

Lemma emits_try_except {A : Type} (m : M A) (h : exn -> option (M A)) :
  emits P m -> (forall e k, h e = Some k -> emits P k) -> emits P (try_except m h).
Proof.
  intros Hm Hh fs. unfold try_except. destruct (outcome (m fs)) as [a|e]; [apply Hm|].
  destruct (h e) as [k|] eqn:He; [|apply Hm]. cbn [log].
  apply Forall_app. split; [apply Hm | apply (Hh _ _ He)].
Qed.

Lemma emits_capture {A : Type} (m : M A) : emits P m -> emits P (capture m).
Proof. intros Hm fs. apply Hm. Qed.

Lemma emits_if {A : Type} (b : bool) (m1 m2 : M A) :
  emits P m1 -> emits P m2 -> emits P (if b then m1 else m2).
Proof. destruct b; auto. Qed.
End Emits.

Ltac emits_step :=
  lazymatch goal with
  | |- emits _ (bind _ _) => apply emits_bind; [|intros ?]
  | |- emits _ (ret _) => apply emits_ret
  | |- emits _ (raise _) => apply emits_raise
  | |- emits _ get_fs => apply emits_get_fs
  | |- emits _ (put_fs _) => apply emits_put_fs
  | |- emits _ (lift_res _) => apply emits_lift_res
  | |- emits _ (lift_fs _) => apply emits_lift_fs
  | |- emits _ (emit _) => apply emits_emit
  | |- emits _ (emit_all _) => apply emits_emit_all
  | |- emits _ (capture _) => apply emits_capture
  | |- emits _ (if ?b then _ else _) => destruct b
  | |- emits _ ?m =>
      match m with
      | context [match ?x with _ => _ end] => destruct x
      end
  end.

Ltac emits_auto := repeat emits_step.

(** The events of the components *)

Lemma emits_shutil_copyfile (P : event -> Prop) (src dst : string) :
  P (EvCopyfile src dst) -> emits P (shutil_copyfile src dst).
Proof. intros H. unfold shutil_copyfile. emits_auto. exact H. Qed.

Lemma emits_shutil_rmtree (P : event -> Prop) (path : string) :
  P (EvRmtree path) -> emits P (shutil_rmtree path).
Proof. intros H. unfold shutil_rmtree. emits_auto. exact H. Qed.

Lemma emits_shutil_copytree (P : event -> Prop) (src dst : string) :
  P (EvCopytree src dst) -> emits P (shutil_copytree src dst).
Proof. intros H. unfold shutil_copytree. emits_auto. exact H. Qed.

Lemma emits_copy_directory (P : event -> Prop) (src dst : string) (ow : bool) :
  P (EvRmtree dst) -> P (EvCopytree src dst) ->
  (forall m, P (EvPrint m)) ->
  emits P (copy_directory src dst ow).
Proof.
  intros H1 H2 H3. unfold copy_directory. emits_auto; auto.
  - now apply emits_shutil_rmtree.
  - apply emits_try_except.
    + emits_auto; auto. now apply emits_shutil_copytree.
    + intros e k. destruct e; intros [= <-]; emits_auto; auto.
Qed.

Lemma emits_check_data_exists (P : event -> Prop) (E : Env) :
  (forall m, P (EvPrint m)) -> emits P (check_data_exists E).
Proof.
  intros H. unfold check_data_exists. emits_auto; auto.
  apply emits_try_except.
  - emits_auto; auto.
  - intros e k [= <-]. emits_auto; auto.
Qed.

Lemma emits_DIGen (P : event -> Prop) (E : Env) (dp sf out : string) :
  (forall m, P (EvPrint m)) ->
  (forall e, is_copy e = false -> is_sql e = false -> is_mkdirs e = false ->
             (forall m, e <> EvPrint m) -> P e) ->
  emits P (DIGen E dp sf out).
Proof.
  intros H1 H2. unfold DIGen. emits_auto; auto; try (apply H2; try reflexivity; discriminate).
  generalize 0. induction (stdout_lines _) as [|ln lns IH]; intros n; cbn [read_loop fst].
  - repeat constructor. apply H2; try reflexivity; discriminate.
  - constructor; [apply H2; try reflexivity; discriminate | apply IH].
Qed.

Lemma early_check_data_exists (E : Env) : emits early (check_data_exists E).
Proof.
  unfold check_data_exists. emits_auto; try reflexivity.
  apply emits_try_except.
  - emits_auto; reflexivity.
  - intros e k [= <-]. emits_auto; reflexivity.
Qed.

Lemma early_copy_directory (src dst : string) (ow : bool) :
  emits early (copy_directory src dst ow).
Proof.
  unfold copy_directory. emits_auto; try reflexivity.
  - apply emits_shutil_rmtree. reflexivity.
  - apply emits_try_except.
    + emits_auto; try reflexivity. apply emits_shutil_copytree. reflexivity.
    + intros e k. destruct e; intros [= <-]; emits_auto; reflexivity.
Qed.

Lemma Forall_read_loop (P : event -> Prop) (lines : list string) (n : nat) :
  (forall s, P (EvReadline s)) -> Forall P (fst (read_loop lines n)).
Proof.
  intros H. revert n. induction lines as [|ln lns IH]; intros n; cbn [read_loop fst].
  - repeat constructor. apply H.
  - constructor; [apply H | apply IH].
Qed.

Lemma early_DIGen (E : Env) (dp sf out : string) : emits early (DIGen E dp sf out).
Proof.
  unfold DIGen. emits_auto; try reflexivity.
  apply Forall_read_loop. reflexivity.
Qed.

Lemma bind_emit {B : Type} (e : event) (k : unit -> M B) (fs : node) :
  bind (emit e) k fs =
  MkRun (outcome (k tt fs)) (fs_after (k tt fs)) (e :: log (k tt fs)).
Proof. reflexivity. Qed.

Lemma log_mk {A : Type} (o : res A) (f : node) (l : list event) :
  log (MkRun o f l) = l.
Proof. reflexivity. Qed.

Lemma outcome_mk {A : Type} (o : res A) (f : node) (l : list event) :
  outcome (MkRun o f l) = o.
Proof. reflexivity. Qed.

Lemma fs_after_mk {A : Type} (o : res A) (f : node) (l : list event) :
  fs_after (MkRun o f l) = f.
Proof. reflexivity. Qed.

Ltac run_proj := rewrite ?log_mk, ?outcome_mk, ?fs_after_mk.

Ltac step_bind :=
  match goal with
  | |- context [bind ?m ?k ?fs] =>
      let H := fresh "Hout" in
      let a := fresh "a" in
      let e := fresh "e" in
      destruct (outcome (m fs)) as [a|e] eqn:H;
      [rewrite (bind_ok m k fs a H) | rewrite (bind_raise m k fs e H)];
      run_proj
  end.

Lemma generate_data_phases (E : Env) (fs : node) :
  Forall early (log (generate_data E fs)) \/
  exists pre fs2,
    Forall early pre /\
    log (generate_data E fs) = pre ++ log (move_to_storage E fs2) /\
    outcome (generate_data E fs) = outcome (move_to_storage E fs2) /\
    fs_after (generate_data E fs) = fs_after (move_to_storage E fs2).
Proof.
  unfold generate_data. destruct (missing_vars E).
  { left. repeat (rewrite bind_emit; run_proj). repeat constructor. }
  pose proof (early_check_data_exists E fs) as H0.
  step_bind; [|now left].
  destruct a.
  { left. apply Forall_app. split; [exact H0|]. repeat constructor. }
  rewrite bind_emit. run_proj.
  set (fs1 := fs_after (check_data_exists E fs)).
  pose proof (early_copy_directory (workspace_src_path E ++ "/tools/datagen")
                driver_tmp_path true fs1) as H1.
  step_bind.
  2:{ left. apply Forall_app. split; [exact H0|]. constructor; [reflexivity | exact H1]. }
  set (fs2 := fs_after (copy_directory (workspace_src_path E ++ "/tools/datagen")
                                      driver_tmp_path true fs1)) in *.
  pose proof (early_DIGen E driver_tmp_path (scale_factor E) (driver_out_path E) fs2) as H2.
  step_bind.
  2:{ left. apply Forall_app. split; [exact H0|]. constructor; [reflexivity|].
      apply Forall_app. split; assumption. }
  set (fs3 := fs_after (DIGen E driver_tmp_path (scale_factor E) (driver_out_path E) fs2)).
  right.
  exists (log (check_data_exists E fs) ++
          EvPrint MsgProceeding ::
          log (copy_directory (workspace_src_path E ++ "/tools/datagen")
                              driver_tmp_path true fs1) ++
          log (DIGen E driver_tmp_path (scale_factor E) (driver_out_path E) fs2)), fs3.
  split; [|split; [|split; reflexivity]].
  - apply Forall_app. split; [exact H0|].
    constructor; [reflexivity|]. apply Forall_app. split; assumption.
  - rewrite <- !app_assoc. rewrite <- !app_comm_cons. rewrite <- !app_assoc.
    reflexivity.
Qed.

(** ** Equations of [bind] on the primitive computations *)

Lemma bind_ret {A B : Type} (a : A) (k : A -> M B) (fs : node) :
  bind (ret a) k fs = MkRun (outcome (k a fs)) (fs_after (k a fs)) (log (k a fs)).
Proof. reflexivity. Qed.

Lemma bind_get_fs {B : Type} (k : node -> M B) (fs : node) :
  bind get_fs k fs = MkRun (outcome (k fs fs)) (fs_after (k fs fs)) (log (k fs fs)).
Proof. reflexivity. Qed.

Lemma bind_lift_res_ok {A B : Type} (a : A) (k : A -> M B) (fs : node) :
  bind (lift_res (Ok a)) k fs =
  MkRun (outcome (k a fs)) (fs_after (k a fs)) (log (k a fs)).
Proof. reflexivity. Qed.

Lemma bind_lift_res_raise {A B : Type} (e : exn) (k : A -> M B) (fs : node) :
  bind (lift_res (Raise e)) k fs = MkRun (Raise e) fs [].
Proof. reflexivity. Qed.

Lemma bind_ret_run {A : Type} (a : A) (fs : node) :
  ret a fs = MkRun (Ok a) fs [].
Proof. reflexivity. Qed.

(** ** Step 3 *)

Lemma provision_catalog_run (E : Env) (fs : node) :
  provision_catalog E fs = MkRun (Ok tt) fs (provision_statements E).
Proof.
  unfold provision_catalog, provision_statements.
  destruct (negb (String.eqb (catalog E) "hive_metastore")); [|reflexivity].
  destruct (negb (catalog_has_tables E)); reflexivity.
Qed.

Lemma silent_dbutils_fs_mkdirs (E : Env) (path : string) :
  emits silent (dbutils_fs_mkdirs E path).
Proof. unfold dbutils_fs_mkdirs. emits_auto. split; reflexivity. Qed.

Lemma silent_mkdirs_each (E : Env) (subdirs : list string) :
  emits silent (mkdirs_each E subdirs).
Proof.
  induction subdirs as [|d ds IH]; cbn [mkdirs_each]; emits_auto.
  - apply silent_dbutils_fs_mkdirs.
  - exact IH.
Qed.

Lemma silent_create_target_directories (E : Env) :
  emits silent (create_target_directories E).
Proof.
  unfold create_target_directories. emits_auto.
  - apply silent_dbutils_fs_mkdirs.
  - apply emits_try_except.
    + emits_auto. apply silent_mkdirs_each.
    + intros e k. destruct e; intros [= <-]. emits_auto. split; reflexivity.
Qed.

Lemma shutil_copyfile_log (s d : string) (fs : node) :
  log (shutil_copyfile s d fs) = [EvCopyfile s d].
Proof.
  unfold shutil_copyfile. rewrite bind_emit. run_proj.
  rewrite bind_get_fs. run_proj. f_equal.
  destruct (samefile fs s d); [reflexivity|].
  destruct (is_fifo fs s || is_fifo fs d)%bool; [reflexivity|].
  destruct (path_node fs s) as [[c| |es]|]; try reflexivity.
  destruct (String.eqb d "" || ends_with_slash d)%bool; [reflexivity|].
  unfold lift_fs. destruct (write_file (segs d) c fs); reflexivity.
Qed.

Lemma move_file_log (s d : string) (fs : node) :
  log (move_file s d fs) = [EvCopyfile s d].
Proof.
  unfold move_file.
  destruct (outcome (shutil_copyfile s d fs)) as [a|e] eqn:H.
  - rewrite (bind_ok _ _ _ _ H). run_proj. rewrite shutil_copyfile_log. reflexivity.
  - rewrite (bind_raise _ _ _ _ H). run_proj. apply shutil_copyfile_log.
Qed.

Lemma run_pool_run (order : list (string * string)) (fs : node) :
  exists rs,
    outcome (run_pool order fs) = Ok rs /\
    length rs = length order /\
    log (run_pool order fs) = copy_events order.
Proof.
  revert fs. induction order as [|[s d] order IH]; intros fs.
  - exists []. repeat split.
  - cbn [run_pool].
    rewrite (bind_ok (capture (move_file s d)) _ fs (outcome (move_file s d fs)) eq_refl).
    run_proj.
    destruct (IH (fs_after (capture (move_file s d) fs))) as (rs & Hrs & Hlen & Hlog).
    rewrite (bind_ok _ _ _ _ Hrs). run_proj. rewrite bind_ret_run. run_proj.
    exists (outcome (move_file s d fs) :: rs). split; [reflexivity|]. split.
    + cbn [length]. now rewrite Hlen.
    + rewrite Hlog. change (log (capture (move_file s d) fs)) with (log (move_file s d fs)).
      rewrite move_file_log, app_nil_r. reflexivity.
Qed.

Lemma copy_calls_app (l1 l2 : list event) :
  copy_calls (l1 ++ l2) = copy_calls l1 + copy_calls l2.
Proof. unfold copy_calls. now rewrite filter_app, length_app. Qed.

Lemma copy_calls_copy_events (order : list (string * string)) :
  copy_calls (copy_events order) = length order.
Proof.
  unfold copy_calls, copy_events. induction order as [|j order IH]; [reflexivity|].
  cbn [map filter is_copy length]. f_equal. exact IH.
Qed.

Lemma copy_calls_none (l : list event) :
  Forall (fun e => is_copy e = false) l -> copy_calls l = 0.
Proof.
  unfold copy_calls. induction 1 as [|e l He _ IH]; [reflexivity|].
  cbn [filter]. now rewrite He.
Qed.

Lemma sql_calls_app (l1 l2 : list event) :
  sql_calls (l1 ++ l2) = sql_calls l1 ++ sql_calls l2.
Proof. apply filter_app. Qed.

Lemma sql_calls_none (l : list event) :
  Forall (fun e => is_sql e = false) l -> sql_calls l = [].
Proof.
  unfold sql_calls. induction 1 as [|e l He _ IH]; [reflexivity|].
  cbn [filter]. now rewrite He.
Qed.

Lemma as_completed_loop_prints (total c : nat) (rs : list (res string)) :
  Forall (fun e => is_print e = true) (fst (as_completed_loop total c rs)).
Proof.
  revert c. induction rs as [|[m|e] rs IH]; intros c; cbn [as_completed_loop fst].
  - constructor.
  - apply Forall_app. split; [|apply IH].
    destruct (Nat.eqb (S c mod 10) 0 || Nat.eqb (S c) total)%bool; repeat constructor.
  - destruct e; cbn [fst]; constructor; try reflexivity; apply IH.
Qed.

Lemma as_completed_loop_count (total c : nat) (rs : list (res string)) :
  snd (as_completed_loop total c rs) = c + moved rs.
Proof.
  unfold moved. revert c. induction rs as [|[m|e] rs IH]; intros c; cbn [as_completed_loop snd].
  - cbn. lia.
  - rewrite IH. cbn. lia.
  - destruct e; cbn [snd]; rewrite IH; cbn; lia.
Qed.

Lemma moved_failed {A : Type} (rs : list (res A)) :
  moved rs + failed rs = length rs.
Proof.
  unfold moved, failed. induction rs as [|r rs IH]; [reflexivity|].
  cbn [filter]. destruct (is_ok r); cbn [negb length]; lia.
Qed.

Lemma transfer_files_run (E : Env) (filenames : list string) (fs : node) :
  0 < length filenames -> 0 < threads_of E ->
  exists rs,
    outcome (run_pool (schedule E (threads_of E) (submit_all E filenames)) fs) = Ok rs /\
    length rs = length (schedule E (threads_of E) (submit_all E filenames)) /\
    outcome (transfer_files E filenames fs) = Ok tt /\
    log (transfer_files E filenames fs) =
      copy_events (schedule E (threads_of E) (submit_all E filenames)) ++
      fst (as_completed_loop (length filenames) 0 rs) ++
      [EvPrint (MsgTransferComplete (moved rs) (length filenames));
       EvPrint MsgCompletedSuccessfully].
Proof.
  intros HK HW. unfold transfer_files. fold (threads_of E).
  apply Nat.ltb_lt in HK. rewrite HK.
  destruct (Nat.eqb (threads_of E) 0) eqn:Hz; [apply Nat.eqb_eq in Hz; lia|].
  destruct (run_pool_run (schedule E (threads_of E) (submit_all E filenames)) fs)
    as (rs & Hrs & Hlen & Hlog).
  exists rs. split; [exact Hrs|]. split; [exact Hlen|].
  rewrite (bind_ok _ _ _ _ Hrs). run_proj. rewrite Hlog.
  rewrite as_completed_loop_count. cbn [Nat.add].
  split; reflexivity.
Qed.

Lemma emits_run_pool (P : event -> Prop) (order : list (string * string)) :
  (forall s d, P (EvCopyfile s d)) -> emits P (run_pool order).
Proof.
  intros H fs. destruct (run_pool_run order fs) as (rs & _ & _ & ->).
  unfold copy_events. apply Forall_forall. intros e He.
  apply in_map_iff in He as (j & <- & _). apply H.
Qed.

Lemma transfer_files_sql (E : Env) (filenames : list string) :
  emits (fun e => is_sql e = false) (transfer_files E filenames).
Proof.
  unfold transfer_files. emits_auto; try reflexivity.
  all: try (apply emits_run_pool; reflexivity).
  all: eapply Forall_impl; [|apply as_completed_loop_prints];
    intros e He; destruct e; try discriminate; reflexivity.
Qed.

Lemma transfer_files_copies (E : Env) (filenames : list string) (fs : node) :
  fair_schedule E ->
  outcome (transfer_files E filenames fs) = Ok tt ->
  copy_calls (log (transfer_files E filenames fs)) = length filenames.
Proof.
  intros Hfair Hok. destruct (length filenames) as [|K] eqn:HK.
  - unfold transfer_files. rewrite HK. reflexivity.
  - destruct (threads_of E) as [|W] eqn:HW.
    + exfalso. unfold transfer_files in Hok. fold (threads_of E) in Hok.
      rewrite HK, HW in Hok. discriminate.
    + destruct (transfer_files_run E filenames fs) as (rs & _ & _ & _ & Hlog);
        [lia | lia |].
      rewrite Hlog, !copy_calls_app, copy_calls_copy_events.
      rewrite (Permutation_length (Hfair _ _)).
      unfold submit_all. rewrite length_map.
      rewrite copy_calls_none.
      * cbn. lia.
      * eapply Forall_impl; [|apply as_completed_loop_prints].
        intros e He. destruct e; try discriminate. reflexivity.
Qed.

Lemma provision_statements_sql (E : Env) :
  sql_calls (provision_statements E) = provision_statements E.
Proof.
  unfold provision_statements.
  destruct (negb (String.eqb (catalog E) "hive_metastore")); [|reflexivity].
  destruct (negb (catalog_has_tables E)); reflexivity.
Qed.

Lemma provision_statements_copies (E : Env) :
  copy_calls (provision_statements E) = 0.
Proof.
  unfold provision_statements.
  destruct (negb (String.eqb (catalog E) "hive_metastore")); [|reflexivity].
  destruct (negb (catalog_has_tables E)); reflexivity.
Qed.

(** The report of an empty enumeration prints, changes nothing, and
    raises exactly when the output path is there and is not a
    directory. *)
Lemma report_no_files_run (E : Env) (fs : node) :
  fs_after (report_no_files E fs) = fs /\
  Forall (fun e => is_print e = true) (log (report_no_files E fs)) /\
  outcome (report_no_files E fs) =
  match path_node fs (driver_out_path E) with
  | Some (Dir _) | None => Ok tt
  | Some _ => Raise NotADirectoryError
  end.
Proof.
  unfold report_no_files. rewrite bind_emit, bind_get_fs. run_proj.
  unfold os_path_exists.
  destruct (path_node fs (driver_out_path E)) as [[d| |es]|];
    (split; [reflexivity|]); (split; [repeat constructor | reflexivity]).
Qed.

Lemma found_report_run (E : Env) (fs : node) (filenames : list string) :
  fs_after (found_report E fs filenames) = fs /\
  Forall (fun e => is_print e = true) (log (found_report E fs filenames)).
Proof.
  unfold found_report. destruct (Nat.eqb (length filenames) 0).
  - destruct (report_no_files_run E fs) as (H1 & H2 & _). now split.
  - split; [reflexivity | constructor].
Qed.

(** The run of step 3, phase by phase. *)
Lemma move_to_storage_run (E : Env) (fs : node) :
  match list_files (os_walk (walk_fault E) fs (driver_out_path E)) with
  | Raise e =>
      move_to_storage E fs =
      MkRun (Raise e) fs (EvPrint MsgGenerationCompleted :: provision_statements E)
  | Ok filenames =>
      let r0 := found_report E fs filenames in
      let found := EvPrint (MsgFound (length filenames)) :: log r0 in
      match outcome r0 with
      | Raise e =>
          move_to_storage E fs =
          MkRun (Raise e) fs
                (EvPrint MsgGenerationCompleted :: provision_statements E ++ found)
      | Ok _ =>
          let r1 := create_target_directories E fs in
          match outcome r1 with
          | Raise e =>
              move_to_storage E fs =
              MkRun (Raise e) (fs_after r1)
                    (EvPrint MsgGenerationCompleted
                     :: provision_statements E ++ found ++ log r1)
          | Ok _ =>
              let r2 := transfer_files E filenames (fs_after r1) in
              move_to_storage E fs =
              MkRun (outcome r2) (fs_after r2)
                    (EvPrint MsgGenerationCompleted
                     :: provision_statements E ++ found ++ log r1 ++ log r2)
          end
      end
  end.
Proof.
  unfold move_to_storage. rewrite bind_emit.
  rewrite (bind_ok (provision_catalog E) _ fs tt)
    by (rewrite provision_catalog_run; reflexivity).
  rewrite provision_catalog_run. run_proj.
  rewrite bind_get_fs. run_proj.
  destruct (list_files (os_walk (walk_fault E) fs (driver_out_path E))) as [filenames|e].
  2:{ rewrite bind_lift_res_raise. run_proj. now rewrite app_nil_r. }
  rewrite bind_lift_res_ok. run_proj. rewrite bind_emit. run_proj.
  cbv zeta.
  destruct (found_report_run E fs filenames) as [Hfs _].
  unfold found_report in *.
  set (m0 := if Nat.eqb (length filenames) 0 then report_no_files E else ret tt) in *.
  destruct (outcome (m0 fs)) as [u|e] eqn:H0.
  2:{ rewrite (bind_raise _ _ _ _ H0). run_proj. rewrite Hfs. reflexivity. }
  rewrite (bind_ok _ _ _ _ H0). run_proj. rewrite Hfs.
  destruct (outcome (create_target_directories E fs)) as [a|e] eqn:H1.
  - rewrite (bind_ok _ _ _ _ H1). run_proj.
    rewrite <- ?app_comm_cons, <- ?app_assoc. reflexivity.
  - rewrite (bind_raise _ _ _ _ H1). run_proj.
    rewrite <- ?app_comm_cons, <- ?app_assoc. reflexivity.
Qed.

Lemma DIGen_jar_missing (E : Env) (dp sf out : string) (fs : node) :
  os_path_exists fs (dp ++ "DIGen.jar") = false ->
  DIGen E dp sf out fs = MkRun (Ok tt) fs [version_check; EvPrint MsgJarNotFound].
Proof.
  intros H. unfold DIGen. rewrite bind_emit, bind_get_fs. run_proj.
  cbv zeta. rewrite H. reflexivity.
Qed.

Lemma DIGen_bad_command (E : Env) (dp sf out : string) (fs : node) :
  os_path_exists fs (dp ++ "DIGen.jar") = true ->
  shlex_split (digen_cmd dp sf out) = None ->
  DIGen E dp sf out fs = MkRun (Raise ValueError) fs [version_check].
Proof.
  intros H Hs. unfold DIGen. rewrite bind_emit, bind_get_fs. run_proj.
  cbv zeta. rewrite H. unfold digen_cmd in Hs. cbn [negb]. rewrite Hs. reflexivity.
Qed.

Lemma DIGen_launched (E : Env) (dp sf out : string) (fs : node) (args : list string) :
  os_path_exists fs (dp ++ "DIGen.jar") = true ->
  shlex_split (digen_cmd dp sf out) = Some args ->
  DIGen E dp sf out fs =
  MkRun (Ok tt) (child_fs (digen_child E args dp fs))
        (version_check :: launch_events args dp
         ++ supervise_events (digen_child E args dp fs)).
Proof.
  intros H Hs. unfold DIGen. rewrite bind_emit, bind_get_fs. run_proj.
  cbv zeta. rewrite H. unfold digen_cmd in Hs. cbn [negb]. rewrite Hs.
  unfold supervise_events, launch_events.
  destruct (negb (String.eqb (stderr_output (digen_child E args dp fs)) "") &&
            (occurs "NoClassDefFoundError" (stderr_output (digen_child E args dp fs)) ||
             occurs "ClassNotFoundException" (stderr_output (digen_child E args dp fs))))%bool;
    destruct (negb (Z.eqb (return_code (digen_child E args dp fs)) 0));
    cbn; rewrite <- ?app_assoc; reflexivity.
Qed.

(** ** The whole run *)

Lemma early_no_copy (l : list event) : Forall early l -> copy_calls l = 0.
Proof.
  intros H. apply copy_calls_none. eapply Forall_impl; [|exact H].
  intros e He. destruct e; try reflexivity. discriminate.
Qed.

Lemma early_no_sql (l : list event) : Forall early l -> sql_calls l = [].
Proof.
  intros H. apply sql_calls_none. eapply Forall_impl; [|exact H].
  intros e He. destruct e; try reflexivity. discriminate.
Qed.

Lemma early_not_completed (l : list event) :
  Forall early l -> ~ In (EvPrint MsgGenerationCompleted) l.
Proof.
  intros H Hin. rewrite Forall_forall in H. specialize (H _ Hin). discriminate.
Qed.

(** A run that calls [DIGen] and sees it return goes on with step 3. *)
Lemma generate_data_step3 (E : Env) (fs : node) (a : unit) :
  reaches_generation E fs ->
  outcome (generation E fs) = Ok a ->
  generate_data E fs =
  MkRun (outcome (move_to_storage E (fs_after (generation E fs))))
        (fs_after (move_to_storage E (fs_after (generation E fs))))
        (log (check_data_exists E fs)
         ++ EvPrint MsgProceeding
            :: log (tool_copy E fs) ++ log (generation E fs)
               ++ log (move_to_storage E (fs_after (generation E fs)))).
Proof.
  intros (Hmiss & Hprobe & Hcopy) Hgen.
  destruct (check_data_exists_run E fs) as (H0 & Hfs & _). rewrite Hprobe in H0.
  unfold generate_data. rewrite Hmiss.
  rewrite (bind_ok _ _ _ _ H0). run_proj. rewrite bind_emit. run_proj. rewrite Hfs.
  unfold generation in *. unfold tool_copy in *.
  destruct (outcome (copy_directory (workspace_src_path E ++ "/tools/datagen")
                                    driver_tmp_path true fs)) as [o|e] eqn:H1;
    [|discriminate].
  rewrite (bind_ok _ _ _ _ H1). run_proj.
  rewrite (bind_ok _ _ _ _ Hgen). run_proj.
  reflexivity.
Qed.

Lemma found_copies (E : Env) (fs : node) (filenames : list string) :
  copy_calls (EvPrint (MsgFound (length filenames))
              :: log (found_report E fs filenames)) = 0.
Proof.
  apply copy_calls_none. constructor; [reflexivity|].
  destruct (found_report_run E fs filenames) as [_ Hp].
  eapply Forall_impl; [|exact Hp]. intros e He. destruct e; try discriminate. reflexivity.
Qed.

Lemma found_sql (E : Env) (fs : node) (filenames : list string) :
  sql_calls (EvPrint (MsgFound (length filenames))
             :: log (found_report E fs filenames)) = [].
Proof.
  apply sql_calls_none. constructor; [reflexivity|].
  destruct (found_report_run E fs filenames) as [_ Hp].
  eapply Forall_impl; [|exact Hp]. intros e He. destruct e; try discriminate. reflexivity.
Qed.

Lemma move_to_storage_copies (E : Env) (fs : node) :
  fair_schedule E ->
  outcome (move_to_storage E fs) = Ok tt ->
  exists filenames,
    list_files (os_walk (walk_fault E) fs (driver_out_path E)) = Ok filenames /\
    In (EvPrint (MsgFound (length filenames))) (log (move_to_storage E fs)) /\
    copy_calls (log (move_to_storage E fs)) = length filenames.
Proof.
  intros Hfair Hok. pose proof (move_to_storage_run E fs) as H.
  destruct (list_files (os_walk (walk_fault E) fs (driver_out_path E)))
    as [filenames|e].
  2:{ rewrite H in Hok. discriminate. }
  exists filenames. split; [reflexivity|]. cbv zeta in H.
  pose proof (found_copies E fs filenames) as Hfound.
  destruct (outcome (found_report E fs filenames)) as [u0|e].
  2:{ rewrite H in Hok. discriminate. }
  pose proof (silent_create_target_directories E fs) as Hs.
  destruct (outcome (create_target_directories E fs)) as [u|e] eqn:H1.
  2:{ rewrite H in Hok. discriminate. }
  rewrite H in Hok |- *. run_proj. rewrite outcome_mk in Hok. split.
  - apply in_cons. apply in_or_app. right. apply in_eq.
  - change (EvPrint MsgGenerationCompleted :: ?l) with ([EvPrint MsgGenerationCompleted] ++ l).
    rewrite !copy_calls_app, provision_statements_copies, Hfound.
    rewrite (transfer_files_copies E filenames _ Hfair Hok).
    rewrite (copy_calls_none (log (create_target_directories E fs))).
    + reflexivity.
    + eapply Forall_impl; [|exact Hs]. intros e He. apply He.
Qed.

Lemma move_to_storage_sql (E : Env) (fs : node) :
  sql_calls (log (move_to_storage E fs)) = provision_statements E /\
  In (EvPrint MsgGenerationCompleted) (log (move_to_storage E fs)).
Proof.
  pose proof (move_to_storage_run E fs) as H.
  pose proof (silent_create_target_directories E fs) as Hs.
  assert (Hctd : sql_calls (log (create_target_directories E fs)) = []).
  { apply sql_calls_none. eapply Forall_impl; [|exact Hs]. intros e He. apply He. }
  destruct (list_files (os_walk (walk_fault E) fs (driver_out_path E)))
    as [filenames|e].
  2:{ rewrite H. run_proj. split; [|apply in_eq].
      change (EvPrint MsgGenerationCompleted :: ?l) with ([EvPrint MsgGenerationCompleted] ++ l).
      rewrite sql_calls_app. apply provision_statements_sql. }
  cbv zeta in H.
  pose proof (found_sql E fs filenames) as Hfound.
  destruct (outcome (found_report E fs filenames)) as [u0|e0].
  2:{ rewrite H. run_proj. split; [|apply in_eq].
      change (EvPrint MsgGenerationCompleted :: ?l) with ([EvPrint MsgGenerationCompleted] ++ l).
      rewrite !sql_calls_app, Hfound, provision_statements_sql.
      cbn [sql_calls filter is_sql app]. now rewrite app_nil_r. }
  destruct (outcome (create_target_directories E fs)) as [u|e] eqn:H1;
    rewrite H; run_proj; (split; [|apply in_eq]);
    change (EvPrint MsgGenerationCompleted :: ?l) with ([EvPrint MsgGenerationCompleted] ++ l);
    rewrite !sql_calls_app, Hfound, Hctd, provision_statements_sql.
  - rewrite (sql_calls_none _ (transfer_files_sql E filenames _)).
    cbn [sql_calls filter is_sql app]. now rewrite app_nil_r.
  - cbn [sql_calls filter is_sql app]. now rewrite app_nil_r.
Qed.

(** ** Example worlds *)

Ltac in_log := vm_compute; repeat (first [left; reflexivity | right]).

Lemma is_ok_inv {A : Type} (r : res A) : is_ok r = true -> exists a, r = Ok a.
Proof. destruct r as [a|e]; [eauto | discriminate]. Qed.

Lemma example_fair (uc : bool) (cat : string) (code : Z) (out : node) :
  fair_schedule (example_env uc cat code out).
Proof. intros w jobs. cbn. apply Permutation_sym, Permutation_rev. Qed.

(* ------------------------------------------------------------------ *)
(** ** C8: the idempotency gate *)

(** C8.  Whenever the probe of lines 140-161 sets [data_exists] (the
    destination holds at least one regular file), [generate_data] prints
    that generation is skipped and returns: the file system is untouched
    and the log holds printed lines only, so no tool copy, no
    subprocess, no SQL statement, no directory creation and no file copy
    took place. *)
Theorem skipped_when_data_exists (E : Env) (fs : node) :
  missing_vars E = false ->
  outcome (check_data_exists E fs) = Ok true ->
  generate_data E fs =
    MkRun (Ok tt) fs (log (check_data_exists E fs) ++ [EvPrint MsgSkipped]) /\
  Forall (fun e => is_action e = false) (log (generate_data E fs)).
Proof.
  intros Hmiss Hprobe.
  destruct (check_data_exists_run E fs) as (_ & Hfs & Hquiet).
  assert (Hrun : generate_data E fs =
            MkRun (Ok tt) fs (log (check_data_exists E fs) ++ [EvPrint MsgSkipped])).
  { unfold generate_data. rewrite Hmiss. rewrite (bind_ok _ _ _ _ Hprobe).
    run_proj. rewrite Hfs. reflexivity. }
  split; [exact Hrun|]. rewrite Hrun. run_proj. apply Forall_app. split.
  - rewrite forallb_forall in Hquiet. apply Forall_forall. intros e He.
    apply Hquiet in He. now apply negb_true_iff in He.
  - repeat constructor.
Qed.

Lemma skipped_when_data_exists_witness :
  generate_data (example_env true "tpcdi" 0 one_batch) populated_fs =
    MkRun (Ok tt) populated_fs
          (log (check_data_exists (example_env true "tpcdi" 0 one_batch) populated_fs)
           ++ [EvPrint MsgSkipped]).
Proof.
  refine (proj1 (skipped_when_data_exists
                   (example_env true "tpcdi" 0 one_batch) populated_fs _ _));
    vm_compute; reflexivity.
Defined.

(* ------------------------------------------------------------------ *)
(** ** C1: a generator that exits with a nonzero code *)

Lemma DIGen_failed_inv (E : Env) (dp sf out : string) (fs : node) (c : Z) :
  In (EvPrint (MsgDigenFailed c)) (log (DIGen E dp sf out fs)) ->
  c <> 0%Z /\ outcome (DIGen E dp sf out fs) = Ok tt /\
  exists args, shlex_split (digen_cmd dp sf out) = Some args /\
               return_code (digen_child E args dp fs) = c.
Proof.
  destruct (os_path_exists fs (dp ++ "DIGen.jar")) eqn:Hjar.
  2:{ rewrite (DIGen_jar_missing E dp sf out fs Hjar). run_proj.
      intros [H|[H|[]]]; discriminate. }
  destruct (shlex_split (digen_cmd dp sf out)) as [args|] eqn:Hs.
  2:{ rewrite (DIGen_bad_command E dp sf out fs Hjar Hs). run_proj.
      intros [H|[]]; discriminate. }
  rewrite (DIGen_launched E dp sf out fs args Hjar Hs). run_proj.
  intros Hin. split; [|split; [reflexivity | exists args; split; [reflexivity|]]].
  all: destruct Hin as [H|Hin]; [discriminate|];
    apply in_app_or in Hin as [Hin|Hin];
    [ unfold launch_events in Hin; cbn [In] in Hin;
      repeat (destruct Hin as [H|Hin]; [discriminate|]); destruct Hin |];
    unfold supervise_events in Hin;
    apply in_app_or in Hin as [Hin|Hin];
    [ exfalso; revert Hin; generalize 0;
      induction (stdout_lines (digen_child E args dp fs)) as [|ln lns IH];
      intros n; cbn [read_loop fst In];
      [ intros [H|[]]; discriminate
      | intros [H|H]; [discriminate | exact (IH _ H)] ] |];
    apply in_app_or in Hin as [Hin|Hin];
    [ destruct Hin as [H|[]]; discriminate |];
    apply in_app_or in Hin as [Hin|Hin];
    [ destruct (_ && _)%bool in Hin; [destruct Hin as [H|[]]; discriminate | destruct Hin] |];
    destruct Hin as [H|[H|[H|[]]]]; try discriminate;
    destruct (Z.eqb (return_code (digen_child E args dp fs)) 0) eqn:Hz;
    cbn [negb] in H; try discriminate; injection H as <-.
  - intros Hc. rewrite Hc in Hz. discriminate.
  - reflexivity.
Qed.

(** C1 (as the code has it).  When the generator exits with a nonzero
    code [c], [DIGen] prints the code and a warning and returns
    normally; [generate_data] never looks at the outcome and goes on
    with step 3 on the file system the generator left.  If that run ends
    without an exception, [move_file] has been called once for every
    file found under the local output directory: no copy happens only
    when the directory holds no file. *)
Theorem failed_generation_still_migrates (E : Env) (fs : node) (c : Z) :
  reaches_generation E fs ->
  In (EvPrint (MsgDigenFailed c)) (log (generation E fs)) ->
  c <> 0%Z /\
  outcome (generation E fs) = Ok tt /\
  generate_data E fs =
    MkRun (outcome (move_to_storage E (fs_after (generation E fs))))
          (fs_after (move_to_storage E (fs_after (generation E fs))))
          (log (check_data_exists E fs)
           ++ EvPrint MsgProceeding
              :: log (tool_copy E fs) ++ log (generation E fs)
                 ++ log (move_to_storage E (fs_after (generation E fs)))) /\
  (fair_schedule E -> outcome (generate_data E fs) = Ok tt ->
   exists filenames,
     list_files (os_walk (walk_fault E) (fs_after (generation E fs)) (driver_out_path E))
       = Ok filenames /\
     In (EvPrint (MsgFound (length filenames))) (log (generate_data E fs)) /\
     copy_calls (log (generate_data E fs)) = length filenames).
Proof.
  intros Hreach Hfail.
  destruct (DIGen_failed_inv _ _ _ _ _ _ Hfail) as (Hc & Hok & _).
  pose proof (generate_data_step3 E fs tt Hreach Hok) as Hrun.
  split; [exact Hc|]. split; [exact Hok|]. split; [exact Hrun|].
  intros Hfair Hdone. rewrite Hrun in Hdone |- *. rewrite outcome_mk in Hdone. run_proj.
  destruct (move_to_storage_copies E _ Hfair Hdone) as (filenames & Hl & Hfound & Hcopies).
  exists filenames. split; [exact Hl|]. split.
  - apply in_or_app; right. apply in_cons.
    apply in_or_app; right. apply in_or_app; right. exact Hfound.
  - change (EvPrint MsgProceeding :: ?l) with ([EvPrint MsgProceeding] ++ l).
    rewrite !copy_calls_app, Hcopies.
    rewrite (early_no_copy _ (early_check_data_exists E fs)).
    rewrite (early_no_copy (log (tool_copy E fs)) (early_copy_directory _ _ _ fs)).
    rewrite (early_no_copy (log (generation E fs)) (early_DIGen E _ _ _ _)).
    reflexivity.
Qed.

Lemma failed_generation_still_migrates_witness :
  outcome (generation (example_env true "tpcdi" 1 one_batch) (example_fs true)) = Ok tt.
Proof.
  refine (proj1 (proj2 (failed_generation_still_migrates
                          (example_env true "tpcdi" 1 one_batch) (example_fs true) 1 _ _))).
  - unfold reaches_generation. repeat split; vm_compute; reflexivity.
  - in_log.
Defined.

(** C1 fails as stated: the generator exits with code 1 after writing
    one file, and that file is copied to the destination. *)
Lemma failed_generation_copy_counterexample :
  In (EvPrint (MsgDigenFailed 1))
     (log (generate_data (example_env true "tpcdi" 1 one_batch) (example_fs true))) /\
  copy_calls (log (generate_data (example_env true "tpcdi" 1 one_batch) (example_fs true))) = 1 /\
  In (EvPrint MsgCompletedSuccessfully)
     (log (generate_data (example_env true "tpcdi" 1 one_batch) (example_fs true))).
Proof. split; [in_log | split; [vm_compute; reflexivity | in_log]]. Qed.

(* ------------------------------------------------------------------ *)
(** ** C2: the jar is missing *)

(** C2 (as the code has it).  When [DIGen.jar] is absent, [DIGen] still
    runs the [java -version] check, then prints an error and returns
    normally without launching the generator: no [Popen], nothing
    written to a child, the file system unchanged.  [generate_data] does
    not stop there: it goes on with step 3, and when that ends without
    an exception [move_file] has been called once for every file found
    under the local output directory. *)
Theorem missing_jar_is_not_fatal (E : Env) (fs : node) :
  reaches_generation E fs ->
  os_path_exists (fs_after (tool_copy E fs)) (driver_tmp_path ++ "DIGen.jar") = false ->
  generation E fs =
    MkRun (Ok tt) (fs_after (tool_copy E fs)) [version_check; EvPrint MsgJarNotFound] /\
  generate_data E fs =
    MkRun (outcome (move_to_storage E (fs_after (tool_copy E fs))))
          (fs_after (move_to_storage E (fs_after (tool_copy E fs))))
          (log (check_data_exists E fs)
           ++ EvPrint MsgProceeding
              :: log (tool_copy E fs) ++ [version_check; EvPrint MsgJarNotFound]
                 ++ log (move_to_storage E (fs_after (tool_copy E fs)))) /\
  (fair_schedule E -> outcome (generate_data E fs) = Ok tt ->
   exists filenames,
     list_files (os_walk (walk_fault E) (fs_after (tool_copy E fs)) (driver_out_path E))
       = Ok filenames /\
     copy_calls (log (generate_data E fs)) = length filenames).
Proof.
  intros Hreach Hjar.
  assert (Hgen : generation E fs =
            MkRun (Ok tt) (fs_after (tool_copy E fs)) [version_check; EvPrint MsgJarNotFound]).
  { unfold generation. now apply DIGen_jar_missing. }
  assert (Hok : outcome (generation E fs) = Ok tt) by now rewrite Hgen.
  pose proof (generate_data_step3 E fs tt Hreach Hok) as Hrun.
  rewrite Hgen in Hrun. rewrite log_mk, fs_after_mk in Hrun.
  split; [exact Hgen|]. split; [exact Hrun|].
  intros Hfair Hdone. rewrite Hrun in Hdone |- *. rewrite outcome_mk in Hdone. run_proj.
  destruct (move_to_storage_copies E _ Hfair Hdone) as (filenames & Hl & _ & Hcopies).
  exists filenames. split; [exact Hl|].
  change (EvPrint MsgProceeding :: ?l) with ([EvPrint MsgProceeding] ++ l).
  rewrite !copy_calls_app, Hcopies.
  rewrite (early_no_copy _ (early_check_data_exists E fs)).
  rewrite (early_no_copy (log (tool_copy E fs)) (early_copy_directory _ _ _ fs)).
  reflexivity.
Qed.

Lemma missing_jar_is_not_fatal_witness :
  generation (example_env true "tpcdi" 0 one_batch) stale_fs =
    MkRun (Ok tt) (fs_after (tool_copy (example_env true "tpcdi" 0 one_batch) stale_fs))
          [version_check; EvPrint MsgJarNotFound].
Proof.
  refine (proj1 (missing_jar_is_not_fatal
                   (example_env true "tpcdi" 0 one_batch) stale_fs _ _)).
  - unfold reaches_generation. repeat split; vm_compute; reflexivity.
  - vm_compute. reflexivity.
Defined.

(** C2 fails as stated: with the jar absent a subprocess is launched all
    the same (the version check), the run ends normally, the destination
    is created and the stale file of the output directory is copied. *)
Lemma missing_jar_counterexample :
  os_path_exists (fs_after (tool_copy (example_env true "tpcdi" 0 one_batch) stale_fs))
                 (driver_tmp_path ++ "DIGen.jar") = false /\
  In version_check (log (generate_data (example_env true "tpcdi" 0 one_batch) stale_fs)) /\
  outcome (generate_data (example_env true "tpcdi" 0 one_batch) stale_fs) = Ok tt /\
  In (EvMkdirs "/Volumes/c/s/v/sf=1")
     (log (generate_data (example_env true "tpcdi" 0 one_batch) stale_fs)) /\
  copy_calls (log (generate_data (example_env true "tpcdi" 0 one_batch) stale_fs)) = 1.
Proof.
  split; [vm_compute; reflexivity|]. split; [in_log|].
  split; [vm_compute; reflexivity|]. split; [in_log | vm_compute; reflexivity].
Qed.

(* ------------------------------------------------------------------ *)
(** ** C4: catalog provisioning *)

Lemma provision_statements_nonempty (E : Env) :
  provision_statements E <> [] <-> catalog E <> "hive_metastore".
Proof.
  unfold provision_statements.
  destruct (String.eqb (catalog E) "hive_metastore") eqn:Hc; cbn [negb].
  - apply String.eqb_eq in Hc. split; intros H; congruence.
  - apply String.eqb_neq in Hc. split; intros _; [exact Hc | discriminate].
Qed.

(** C4 (as the code has it).  The SQL statements of a run are exactly
    those of lines 181-194, issued when step 3 is reached, and none
    otherwise; they are issued if and only if the catalog is not
    [hive_metastore].  [UC_enabled] plays no part. *)
Theorem provisioning_guard (E : Env) (fs : node) :
  (In (EvPrint MsgGenerationCompleted) (log (generate_data E fs)) ->
   sql_calls (log (generate_data E fs)) = provision_statements E) /\
  (~ In (EvPrint MsgGenerationCompleted) (log (generate_data E fs)) ->
   sql_calls (log (generate_data E fs)) = []) /\
  (sql_calls (log (generate_data E fs)) <> [] <->
   In (EvPrint MsgGenerationCompleted) (log (generate_data E fs)) /\
   catalog E <> "hive_metastore").
Proof.
  assert (H : (In (EvPrint MsgGenerationCompleted) (log (generate_data E fs)) /\
               sql_calls (log (generate_data E fs)) = provision_statements E) \/
              (~ In (EvPrint MsgGenerationCompleted) (log (generate_data E fs)) /\
               sql_calls (log (generate_data E fs)) = [])).
  { destruct (generate_data_phases E fs) as [Hearly | (pre & fs2 & Hpre & Hlog & _)].
    - right. split; [now apply early_not_completed | now apply early_no_sql].
    - left. destruct (move_to_storage_sql E fs2) as (Hsql & Hin). rewrite Hlog. split.
      + apply in_or_app; right. exact Hin.
      + rewrite sql_calls_app, (early_no_sql _ Hpre), Hsql. reflexivity. }
  destruct H as [(Hin & Hsql) | (Hnot & Hsql)].
  - split; [intros _; exact Hsql|]. split; [intros Hn; contradiction|].
    rewrite Hsql, provision_statements_nonempty. tauto.
  - split; [intros Hin; contradiction|]. split; [intros _; exact Hsql|].
    rewrite Hsql. split; [congruence | tauto].
Qed.

(** C4 fails as stated: with managed-volume mode off and the catalog
    [tpcdi], the catalog, schema and volume statements are issued. *)
Lemma provisioning_guard_counterexample :
  UC_enabled (example_env false "tpcdi" 0 one_batch) = false /\
  sql_calls (log (generate_data (example_env false "tpcdi" 0 one_batch) (example_fs true)))
  = provision_statements (example_env false "tpcdi" 0 one_batch) /\
  length (provision_statements (example_env false "tpcdi" 0 one_batch)) = 5.
Proof. repeat split; vm_compute; reflexivity. Qed.

(* ------------------------------------------------------------------ *)
(** ** C3: the outcomes of the transfer *)

(** C3 (as the code has it).  For [K > 0] files and a pool of [W > 0]
    workers that completes its tasks in any order, the [K] futures each
    hold a result or an exception, so moved + failed = K; the running
    count [completed_count] is incremented for results only, and the
    final line reports the number of files moved, not of attempts. *)
Theorem transfer_counts_successes (E : Env) (filenames : list string) (fs : node) :
  fair_schedule E -> 0 < length filenames -> 0 < threads_of E ->
  exists rs,
    outcome (run_pool (schedule E (threads_of E) (submit_all E filenames)) fs) = Ok rs /\
    length rs = length filenames /\
    moved rs + failed rs = length filenames /\
    snd (as_completed_loop (length filenames) 0 rs) = moved rs /\
    outcome (transfer_files E filenames fs) = Ok tt /\
    In (EvPrint (MsgTransferComplete (moved rs) (length filenames)))
       (log (transfer_files E filenames fs)).
Proof.
  intros Hfair HK HW.
  destruct (transfer_files_run E filenames fs HK HW) as (rs & Hrs & Hlen & Hok & Hlog).
  assert (HlenK : length rs = length filenames).
  { rewrite Hlen, (Permutation_length (Hfair _ _)). unfold submit_all. apply length_map. }
  exists rs. split; [exact Hrs|]. split; [exact HlenK|].
  split; [rewrite moved_failed; exact HlenK|].
  split; [rewrite as_completed_loop_count; reflexivity|].
  split; [exact Hok|].
  rewrite Hlog. apply in_or_app; right. apply in_or_app; right. apply in_eq.
Qed.

Lemma transfer_counts_successes_witness :
  exists rs,
    outcome (run_pool (schedule (example_env true "tpcdi" 0 one_batch)
                                (threads_of (example_env true "tpcdi" 0 one_batch))
                                (submit_all (example_env true "tpcdi" 0 one_batch) [gone_file]))
                      (example_fs true)) = Ok rs /\
    length rs = 1.
Proof.
  destruct (transfer_counts_successes (example_env true "tpcdi" 0 one_batch)
              [gone_file] (example_fs true)
              (example_fair true "tpcdi" 0 one_batch)
              (Nat.lt_0_succ 0) (Nat.lt_0_succ 3)) as (rs & H1 & H2 & _).
  exists rs. split; [exact H1 | exact H2].
Defined.

(** C3 fails as stated: one file whose source is gone before its copy
    runs gives one failed attempt, and the running count stays at 0. *)
Lemma transfer_count_counterexample :
  outcome (run_pool (schedule (example_env true "tpcdi" 0 one_batch) 4
                              (submit_all (example_env true "tpcdi" 0 one_batch) [gone_file]))
                    (example_fs true)) = Ok [Raise FileNotFoundError] /\
  snd (as_completed_loop 1 0 [Raise FileNotFoundError]) = 0 /\
  In (EvPrint (MsgTransferComplete 0 1))
     (log (transfer_files (example_env true "tpcdi" 0 one_batch) [gone_file] (example_fs true))).
Proof. split; [vm_compute; reflexivity|]. split; [reflexivity | in_log]. Qed.

(* ------------------------------------------------------------------ *)
(** ** C7: the existence probe *)



Lemma os_walk_top (fault : string -> bool) (fs : node) (top : string) (n : node) :
  path_node fs top = Some n -> os_walk fault fs top = walk_node fault top n.
Proof. intros H. unfold os_walk. now rewrite H. Qed.


Lemma probe_value_reachable (E : Env) (fs : node) :
  wf fs = true -> no_faults E ->
  reachable_file fs (os_blob_out_path E) -> probe_value E fs = true.
Proof.
  intros Hwf Hnf (n & rel & d & Hn & Hne & Hrel).
  unfold probe_value, os_path_exists. rewrite Hn. cbn [andb].
  rewrite (os_walk_top _ _ _ _ Hn).
  pose proof (path_node_lookup _ _ _ Hn) as Hl.
  pose proof (wf_lookup _ _ _ Hwf Hl) as Hwfn.
  rewrite (any_isfile_walk (walk_fault E) fs n Hnf _ Hwfn Hl).
  rewrite (lookup_has_file n rel d Hne Hrel).
  destruct (count_files_ok (walk_node (walk_fault E) (os_blob_out_path E) n))
    as [k ->]; [|reflexivity].
  now apply walk_node_no_fault.
Qed.




(* ------------------------------------------------------------------ *)
(** ** C9: the launch of the generator *)










(** ** Updates of a directory listing *)

Lemma find_entry_set_same (x : string) (c : node) (es : list (string * node)) :
  find_entry x (set_entry x c es) = Some c.
Proof.
  induction es as [|[y n] es IH]; cbn [set_entry find_entry].
  - now rewrite String.eqb_refl.
  - destruct (String.eqb x y) eqn:Hxy; cbn [find_entry]; rewrite Hxy; [reflexivity | exact IH].
Qed.

Lemma find_entry_set_other (x y : string) (c : node) (es : list (string * node)) :
  String.eqb y x = false -> find_entry y (set_entry x c es) = find_entry y es.
Proof.
  intros Hyx. induction es as [|[z n] es IH]; cbn [set_entry find_entry].
  - now rewrite Hyx.
  - destruct (String.eqb x z) eqn:Hxz; cbn [find_entry].
    + apply String.eqb_eq in Hxz. subst z. now rewrite Hyx.
    + destruct (String.eqb y z); [reflexivity | exact IH].
Qed.

Lemma find_entry_remove_same (x : string) (es : list (string * node)) :
  find_entry x (remove_entry x es) = None.
Proof.
  unfold remove_entry. induction es as [|[y n] es IH]; [reflexivity|].
  cbn [filter fst]. destruct (String.eqb x y) eqn:Hxy; cbn [negb]; [exact IH|].
  cbn [find_entry]. now rewrite Hxy.
Qed.

Lemma find_entry_remove_other (x y : string) (es : list (string * node)) :
  String.eqb y x = false -> find_entry y (remove_entry x es) = find_entry y es.
Proof.
  intros Hyx. unfold remove_entry. induction es as [|[z n] es IH]; [reflexivity|].
  cbn [filter fst]. destruct (String.eqb x z) eqn:Hxz; cbn [negb find_entry].
  - apply String.eqb_eq in Hxz. subst z. now rewrite Hyx.
  - now rewrite IH.
Qed.

(** ** Removal *)

Lemma lookup_remove_self (p : list string) (fs : node) :
  p <> [] -> lookup p (remove_at p fs) = None.
Proof.
  revert fs. induction p as [|x p IH]; intros fs Hne; [congruence|].
  destruct fs as [d| |es]; try reflexivity.
  destruct p as [|y p].
  - cbn [remove_at lookup]. now rewrite find_entry_remove_same.
  - cbn [remove_at]. destruct (find_entry x es) as [c|] eqn:Hc.
    + cbn [lookup]. rewrite find_entry_set_same. apply IH. discriminate.
    + cbn [lookup]. now rewrite Hc.
Qed.

(** Removal creates nothing, and what it leaves in place keeps its
    kind. *)
Lemma lookup_remove (p : list string) :
  forall (q : list string) (fs n' : node),
  lookup q (remove_at p fs) = Some n' ->
  exists n, lookup q fs = Some n /\ is_dir_node n = is_dir_node n'.
Proof.
  induction p as [|x p IH]; intros q fs n' H; [eauto|].
  destruct fs as [d| |es]; try (cbn [remove_at] in H; eauto).
  destruct q as [|y q].
  { cbn [lookup] in *. injection H as <-. eexists. split; [reflexivity|].
    cbn [remove_at]. destruct p; [reflexivity|]. destruct (find_entry x es); reflexivity. }
  destruct (String.eqb y x) eqn:Hyx.
  - apply String.eqb_eq in Hyx. subst y. destruct p as [|z p].
    + cbn [remove_at lookup] in H. rewrite find_entry_remove_same in H. discriminate.
    + cbn [remove_at] in H. destruct (find_entry x es) as [c|] eqn:Hc.
      * cbn [lookup] in H. rewrite find_entry_set_same in H.
        cbn [lookup]. rewrite Hc. exact (IH _ _ _ H).
      * eauto.
  - destruct p as [|z p].
    + cbn [remove_at lookup] in H. rewrite (find_entry_remove_other _ _ _ Hyx) in H.
      cbn [lookup]. destruct (find_entry y es); [eauto | discriminate].
    + cbn [remove_at] in H. destruct (find_entry x es) as [c|] eqn:Hc; [|eauto].
      cbn [lookup] in H. rewrite (find_entry_set_other _ _ _ _ Hyx) in H.
      cbn [lookup]. destruct (find_entry y es); [eauto | discriminate].
Qed.



(** ** [shutil] runs *)

Lemma try_except_ok {A : Type} (m : M A) (h : exn -> option (M A)) (fs : node) (a : A) :
  outcome (m fs) = Ok a -> try_except m h fs = m fs.
Proof. intros H. unfold try_except. now rewrite H. Qed.

Lemma try_except_caught {A : Type} (m : M A) (h : exn -> option (M A)) (fs : node)
      (e : exn) (k : M A) :
  outcome (m fs) = Raise e -> h e = Some k ->
  try_except m h fs =
  MkRun (outcome (k (fs_after (m fs)))) (fs_after (k (fs_after (m fs))))
        (log (m fs) ++ log (k (fs_after (m fs)))).
Proof. intros H Hh. unfold try_except. now rewrite H, Hh. Qed.

Lemma try_except_uncaught {A : Type} (m : M A) (h : exn -> option (M A)) (fs : node)
      (e : exn) :
  outcome (m fs) = Raise e -> h e = None -> try_except m h fs = m fs.
Proof. intros H Hh. unfold try_except. now rewrite H, Hh. Qed.


Lemma shutil_copytree_not_a_directory (src dst : string) (fs n : node) :
  path_node fs src = Some n -> is_dir_node n = false ->
  shutil_copytree src dst fs = MkRun (Raise NotADirectoryError) fs [EvCopytree src dst].
Proof.
  intros H Hn. unfold shutil_copytree. rewrite bind_emit, bind_get_fs. run_proj.
  rewrite H. destruct n; [reflexivity | reflexivity | discriminate].
Qed.


Lemma shutil_rmtree_directory (path : string) (fs : node) (es : list (string * node)) :
  path_node fs path = Some (Dir es) -> segs path <> [] ->
  shutil_rmtree path fs = MkRun (Ok tt) (remove_at (segs path) fs) [EvRmtree path].
Proof.
  intros H Hne. unfold shutil_rmtree. rewrite bind_emit, bind_get_fs. run_proj.
  rewrite H. destruct (segs path); [congruence | reflexivity].
Qed.


(* ------------------------------------------------------------------ *)
(** ** C10: the copy of the tool directory *)



Lemma copy_attempt_source_not_a_directory (src tgt : string) (fs n : node) :
  path_node fs src = Some n -> is_dir_node n = false ->
  copy_attempt src tgt fs =
  MkRun (Raise NotADirectoryError) fs [EvCopytree src tgt].
Proof.
  intros H Hn. pose proof (shutil_copytree_not_a_directory src tgt fs n H Hn) as Hc.
  unfold copy_attempt.
  erewrite try_except_uncaught.
  2:{ rewrite (bind_raise (shutil_copytree src tgt) _ fs NotADirectoryError)
        by (rewrite Hc; reflexivity).
      reflexivity. }
  2:{ reflexivity. }
  rewrite (bind_raise (shutil_copytree src tgt) _ fs NotADirectoryError)
    by (rewrite Hc; reflexivity).
  rewrite Hc. reflexivity.
Qed.

Lemma copy_directory_no_delete (src tgt : string) (ow : bool) (fs : node) :
  (os_path_exists fs tgt && ow)%bool = false ->
  copy_directory src tgt ow fs =
  MkRun (outcome (copy_attempt src tgt fs)) (fs_after (copy_attempt src tgt fs))
        (log (copy_attempt src tgt fs)).
Proof.
  intros H. unfold copy_directory. rewrite bind_get_fs. run_proj. rewrite H.
  rewrite bind_ret. run_proj. reflexivity.
Qed.

Lemma copy_directory_delete (src tgt : string) (fs : node) (es : list (string * node)) :
  path_node fs tgt = Some (Dir es) -> segs tgt <> [] ->
  copy_directory src tgt true fs =
  MkRun (outcome (copy_attempt src tgt (remove_at (segs tgt) fs)))
        (fs_after (copy_attempt src tgt (remove_at (segs tgt) fs)))
        (EvPrint MsgOverwriteDeleting :: EvRmtree tgt :: EvPrint MsgDeleted
         :: log (copy_attempt src tgt (remove_at (segs tgt) fs))).
Proof.
  intros H Hne. pose proof (shutil_rmtree_directory tgt fs es H Hne) as Hrm.
  unfold copy_directory. rewrite bind_get_fs. run_proj.
  unfold os_path_exists. rewrite H. cbn [andb].
  assert (Hdel : (emit (EvPrint MsgOverwriteDeleting);;
                  shutil_rmtree tgt;; emit (EvPrint MsgDeleted)) fs =
                 MkRun (Ok tt) (remove_at (segs tgt) fs)
                       [EvPrint MsgOverwriteDeleting; EvRmtree tgt; EvPrint MsgDeleted]).
  { rewrite bind_emit.
    rewrite (bind_ok (shutil_rmtree tgt) _ fs tt) by (rewrite Hrm; reflexivity).
    run_proj. rewrite Hrm. reflexivity. }
  rewrite (bind_ok _ _ fs tt) by (rewrite Hdel; reflexivity).
  rewrite Hdel. run_proj. reflexivity.
Qed.








(** ** [str.replace] *)

Lemma length_append (a b : string) :
  String.length (a ++ b) = String.length a + String.length b.
Proof. induction a; simpl; congruence. Qed.

Lemma prefix_append (a t : string) : String.prefix a (a ++ t) = true.
Proof.
  induction a as [|c a IH]; simpl.
  - destruct t; reflexivity.
  - destruct (ascii_dec c c) as [_|H]; [exact IH | congruence].
Qed.

Lemma prefix_slashes (a s : string) :
  String.prefix a s = true -> slashes a <= slashes s.
Proof.
  revert s; induction a as [|c a IH]; intros s H; simpl; [lia|].
  destruct s as [|c' s]; simpl in H; [discriminate|].
  destruct (ascii_dec c c') as [->|_]; [|discriminate].
  simpl. specialize (IH _ H). lia.
Qed.

Lemma occurs_slashes (a s : string) :
  occurs a s = true -> slashes a <= slashes s.
Proof.
  induction s as [|c s IH]; cbn [occurs]; intros H.
  - rewrite orb_false_r in H. apply prefix_slashes in H. exact H.
  - apply orb_true_iff in H as [H|H].
    + apply prefix_slashes in H. exact H.
    + specialize (IH H). cbn [slashes]. lia.
Qed.

Lemma occurs_tail (a : string) (c : ascii) (s : string) :
  occurs a (String c s) = false -> occurs a s = false.
Proof. cbn [occurs]. intros H. now apply orb_false_iff in H as [_ H]. Qed.

Lemma replace_from_skip (old new a t : string) :
  replace_from old new (String.length a) (a ++ t) = replace_from old new 0 t.
Proof.
  induction a as [|c a IH]; simpl; [reflexivity | exact IH].
Qed.

Lemma replace_from_absent (old new s : string) :
  occurs old s = false -> replace_from old new 0 s = s.
Proof.
  induction s as [|c s IH]; intros H; [reflexivity|].
  cbn [occurs] in H. apply orb_false_iff in H as [H1 H2].
  cbn [replace_from]. rewrite H1. f_equal. exact (IH H2).
Qed.

Lemma py_replace_prefix (old new t : string) :
  old <> "" ->
  py_replace (old ++ t) old new = (new ++ replace_from old new 0 t)%string.
Proof.
  intros Hne. destruct old as [|c o]; [congruence|].
  unfold py_replace. cbn [append replace_from].
  change (String c (o ++ t)) with (String c o ++ t)%string.
  rewrite prefix_append. f_equal.
  replace (String.length (String c o) - 1) with (String.length o)
    by (cbn [String.length]; lia).
  apply replace_from_skip.
Qed.

(** Replacing a prefix that occurs nowhere else swaps the prefix. *)
Lemma py_replace_root (old new t : string) :
  old <> "" -> occurs old t = false ->
  py_replace (old ++ t) old new = (new ++ t)%string.
Proof.
  intros Hne Hocc. rewrite py_replace_prefix by exact Hne.
  now rewrite replace_from_absent.
Qed.

(** ** Relative paths *)

Lemma rel_path_cons (x : string) (names : list string) :
  names <> [] -> rel_path (x :: names) = (x ++ "/" ++ rel_path names)%string.
Proof. destruct names; [congruence | reflexivity]. Qed.

Lemma starts_with_slash_append (a b : string) :
  a <> "" -> starts_with_slash (a ++ b) = starts_with_slash a.
Proof. destruct a; [congruence | reflexivity]. Qed.

Lemma rel_path_relative (names : list string) :
  names <> [] -> Forall (fun x => valid_name x = true) names ->
  starts_with_slash (rel_path names) = false /\ rel_path names <> "".
Proof.
  intros Hne Hv. destruct names as [|x names]; [congruence|].
  inversion Hv as [|? ? Hx Hrest]; subst.
  pose proof (valid_no_leading_slash x Hx) as Hs.
  apply valid_name_inv in Hx as [Hxne _].
  destruct names as [|y names].
  - cbn. auto.
  - rewrite rel_path_cons by discriminate.
    rewrite starts_with_slash_append by exact Hxne. split; [exact Hs|].
    destruct x; [congruence | discriminate].
Qed.

Lemma py_join_sep (a b : string) :
  starts_with_slash b = false -> py_join a b = (a ++ sep_after a ++ b)%string.
Proof. intros H. unfold sep_after. now apply py_join_rel. Qed.

Lemma py_join_nested (root x r : string) :
  valid_name x = true -> starts_with_slash r = false ->
  py_join (py_join root x) r = py_join root (x ++ "/" ++ r).
Proof.
  intros Hx Hr.
  assert (Hsep : sep_after (py_join root x) = "/").
  { unfold sep_after. rewrite (py_join_not_empty root x Hx).
    now rewrite (py_join_no_trailing_slash root x Hx). }
  rewrite (py_join_sep (py_join root x) r Hr), Hsep.
  pose proof (valid_no_leading_slash x Hx) as Hs.
  rewrite (py_join_sep root x Hs).
  rewrite py_join_sep.
  - now rewrite !append_assoc.
  - rewrite starts_with_slash_append; [exact Hs|].
    now apply valid_name_inv in Hx.
Qed.

(** ** The manifest *)

Lemma list_files_app (l1 l2 : list witem) :
  list_files (l1 ++ l2) =
  match list_files l1, list_files l2 with
  | Ok a, Ok b => Ok (a ++ b)
  | Raise e, _ => Raise e
  | Ok _, Raise e => Raise e
  end.
Proof.
  induction l1 as [|[[[root ds] fsn]|] l1 IH]; cbn [app list_files].
  - destruct (list_files l2); reflexivity.
  - rewrite IH. destruct (list_files l1), (list_files l2); try reflexivity.
    now rewrite app_assoc.
  - reflexivity.
Qed.

(** Every file name of the manifest is the root joined with the
    relative path of an entry of the tree that is not a directory. *)
Lemma list_files_shape (fault : string -> bool) (n : node) :
  forall root filenames,
  wf n = true ->
  list_files (walk_node fault root n) = Ok filenames ->
  forall f, In f filenames ->
  exists names c,
    names <> [] /\ Forall (fun x => valid_name x = true) names /\
    lookup names n = Some c /\ is_dir_node c = false /\
    f = py_join root (rel_path names).
Proof.
  induction n as [d| |es IH] using node_rect'; intros root filenames Hwf Hl f Hf;
    try (cbn in Hl; injection Hl as <-; destruct Hf).
  cbn [walk_node] in Hl. destruct (fault root); [discriminate|].
  cbn [list_files] in Hl.
  pose proof (wf_Dir es Hwf) as Hes.
  match type of Hl with
  | match list_files ?w with _ => _ end = _ =>
      destruct (list_files w) as [rest|e] eqn:Hrest; [|discriminate]
  end.
  injection Hl as <-. apply in_app_or in Hf as [Hf|Hf].
  - apply in_map_iff in Hf as (x & <- & Hx). unfold filenames_of in Hx.
    apply in_map_iff in Hx as ([x' c] & Hfst & Hin). cbn [fst] in Hfst. subst x'.
    apply filter_In in Hin as [Hin Hnd]. cbn [snd] in Hnd. apply negb_true_iff in Hnd.
    destruct (Hes x c Hin) as (Hv & _ & Hfind).
    exists [x], c. split; [discriminate|]. split; [now constructor|].
    split; [cbn [lookup]; now rewrite Hfind|]. split; [exact Hnd | reflexivity].
  - assert (H : forall l rest', (forall x c, In (x, c) l -> In (x, c) es) ->
      list_files
        (flat_map (fun e : string * node =>
                     match e with
                     | (x, c) => match c with
                                 | Dir _ => walk_node fault (py_join root x) c
                                 | _ => []
                                 end
                     end) l) = Ok rest' ->
      In f rest' ->
      exists x c rest'',
        In (x, c) es /\ is_dir_node c = true /\
        list_files (walk_node fault (py_join root x) c) = Ok rest'' /\ In f rest'').
    { induction l as [|[x c] l IHl]; intros rest' Hsub Hlr Hin.
      - cbn in Hlr. injection Hlr as <-. destruct Hin.
      - cbn [flat_map] in Hlr. rewrite list_files_app in Hlr.
        match type of Hlr with
        | match list_files ?w with _ => _ end = _ =>
            destruct (list_files w) as [r1|e1] eqn:H1; [|discriminate]
        end.
        match type of Hlr with
        | match list_files ?w with _ => _ end = _ =>
            destruct (list_files w) as [r2|e2] eqn:H2; [|discriminate]
        end.
        injection Hlr as <-. apply in_app_or in Hin as [Hin|Hin].
        + destruct c as [d| |es'];
            try (cbn in H1; injection H1 as <-; destruct Hin).
          exists x, (Dir es'), r1. split; [apply Hsub; now left|].
          split; [reflexivity|]. split; [exact H1 | exact Hin].
        + apply (IHl r2); [intros y d Hy; apply Hsub; now right | reflexivity | exact Hin]. }
    destruct (H es rest (fun x c Hxc => Hxc) Hrest Hf) as (x & c & rest'' & Hin & Hd & Hl' & Hf').
    destruct (Hes x c Hin) as (Hv & Hwfc & Hfind).
    rewrite Forall_forall in IH. specialize (IH _ Hin). cbn [snd] in IH.
    destruct (IH (py_join root x) rest'' Hwfc Hl' f Hf')
      as (names & c' & Hne & Hvs & Hlook & Hnd & ->).
    exists (x :: names), c'. split; [discriminate|]. split; [now constructor|].
    split; [cbn [lookup]; now rewrite Hfind|]. split; [exact Hnd|].
    rewrite rel_path_cons by exact Hne.
    apply py_join_nested; [exact Hv|]. now apply rel_path_relative.
Qed.

(* ------------------------------------------------------------------ *)
(** ** C5: the destination of a file *)

Lemma driver_out_path_eq (E : Env) :
  driver_out_path E = ("/local_disk0/tmp/tpcdi/sf=" ++ scale_factor E)%string.
Proof. reflexivity. Qed.

Lemma os_blob_out_path_eq (E : Env) :
  os_blob_out_path E =
  (((if UC_enabled E then "" else "/dbfs") ++ tpcdi_directory E ++ "sf=")
   ++ scale_factor E)%string.
Proof.
  unfold os_blob_out_path, volume_out_path.
  destruct (UC_enabled E); cbn [append]; now rewrite !append_assoc.
Qed.

Lemma sep_after_append (a b : string) : b <> "" -> sep_after (a ++ b) = sep_after b.
Proof.
  intros Hb. unfold sep_after. rewrite (ends_with_slash_append a b Hb).
  pose proof (append_not_empty_r a b Hb) as H1.
  apply String.eqb_neq in H1. apply String.eqb_neq in Hb. now rewrite H1, Hb.
Qed.

Lemma root_separators (E : Env) :
  scale_factor E <> "" ->
  sep_after (driver_out_path E) = sep_after (scale_factor E) /\
  sep_after (os_blob_out_path E) = sep_after (scale_factor E) /\
  driver_out_path E <> "".
Proof.
  intros Hsf. rewrite driver_out_path_eq, os_blob_out_path_eq.
  rewrite !sep_after_append by exact Hsf. split; [reflexivity|]. split; [reflexivity|].
  discriminate.
Qed.

Lemma occurs_after_sep (top r : string) :
  occurs top ("/" ++ r) = false -> occurs top (sep_after top ++ r) = false.
Proof.
  intros H. unfold sep_after.
  destruct (String.eqb top "" || ends_with_slash top)%bool; [|exact H].
  exact (occurs_tail _ _ _ H).
Qed.

(** C5 (as the code has it).  Every file name of the manifest is the
    source root joined with a relative path, and when the source root
    does not occur again in what follows it, replacing the source root
    by the destination root in the file name gives the destination root
    joined with that relative path.  ([str.replace] replaces every
    occurrence, so without that condition the two differ.) *)
Theorem destination_of_file (E : Env) (fs : node) (filenames : list string) :
  wf fs = true -> scale_factor E <> "" ->
  list_files (os_walk (walk_fault E) fs (driver_out_path E)) = Ok filenames ->
  forall filename, In filename filenames ->
  exists names,
    names <> [] /\ Forall (fun x => valid_name x = true) names /\
    filename = py_join (driver_out_path E) (rel_path names) /\
    (occurs (driver_out_path E) ("/" ++ rel_path names) = false ->
     py_replace filename (driver_out_path E) (os_blob_out_path E) =
     py_join (os_blob_out_path E) (rel_path names)).
Proof.
  intros Hwf Hsf Hl f Hf. unfold os_walk in Hl.
  destruct (path_node fs (driver_out_path E)) as [n|] eqn:Hn.
  2:{ injection Hl as <-. destruct Hf. }
  pose proof (wf_lookup _ _ _ Hwf (path_node_lookup _ _ _ Hn)) as Hwfn.
  destruct (list_files_shape _ n _ _ Hwfn Hl f Hf)
    as (names & c & Hne & Hv & _ & _ & ->).
  exists names. split; [exact Hne|]. split; [exact Hv|]. split; [reflexivity|].
  intros Hocc. destruct (rel_path_relative names Hne Hv) as [Hrel _].
  destruct (root_separators E Hsf) as (Hs1 & Hs2 & Htop).
  rewrite !(py_join_sep _ _ Hrel).
  rewrite (py_replace_root _ _ _ Htop (occurs_after_sep _ _ Hocc)).
  now rewrite Hs1, Hs2.
Qed.

Lemma destination_of_file_witness :
  exists names,
    names <> [] /\ Forall (fun x => valid_name x = true) names /\
    "/local_disk0/tmp/tpcdi/sf=1/Batch1/Date.txt" =
      py_join (driver_out_path (example_env true "tpcdi" 0 one_batch)) (rel_path names) /\
    (occurs (driver_out_path (example_env true "tpcdi" 0 one_batch))
            ("/" ++ rel_path names) = false ->
     py_replace "/local_disk0/tmp/tpcdi/sf=1/Batch1/Date.txt"
                (driver_out_path (example_env true "tpcdi" 0 one_batch))
                (os_blob_out_path (example_env true "tpcdi" 0 one_batch)) =
     py_join (os_blob_out_path (example_env true "tpcdi" 0 one_batch)) (rel_path names)).
Proof.
  apply (destination_of_file (example_env true "tpcdi" 0 one_batch) batch_fs
           ["/local_disk0/tmp/tpcdi/sf=1/Batch1/Date.txt"]).
  - vm_compute. reflexivity.
  - discriminate.
  - vm_compute. reflexivity.
  - left. reflexivity.
Defined.

(** C5 fails as stated: for this file of the manifest the substitution
    replaces both occurrences of the source root. *)
Lemma destination_of_file_counterexample :
  list_files (os_walk (walk_fault (example_env true "tpcdi" 0 nested_out)) nested_fs
                      (driver_out_path (example_env true "tpcdi" 0 nested_out)))
  = Ok [nested_file] /\
  nested_file = py_join (driver_out_path (example_env true "tpcdi" 0 nested_out))
                        "local_disk0/tmp/tpcdi/sf=1/x" /\
  py_replace nested_file (driver_out_path (example_env true "tpcdi" 0 nested_out))
             (os_blob_out_path (example_env true "tpcdi" 0 nested_out))
  = "/Volumes/c/s/v/sf=1/Volumes/c/s/v/sf=1/x" /\
  py_join (os_blob_out_path (example_env true "tpcdi" 0 nested_out))
          "local_disk0/tmp/tpcdi/sf=1/x"
  = "/Volumes/c/s/v/sf=1/local_disk0/tmp/tpcdi/sf=1/x" /\
  py_replace nested_file (driver_out_path (example_env true "tpcdi" 0 nested_out))
             (os_blob_out_path (example_env true "tpcdi" 0 nested_out))
  <> py_join (os_blob_out_path (example_env true "tpcdi" 0 nested_out))
             "local_disk0/tmp/tpcdi/sf=1/x".
Proof.
  repeat split; try (vm_compute; reflexivity).
  apply String.eqb_neq. vm_compute. reflexivity.
Qed.

(** ** Kinds of nodes under updates *)

Lemma segs_eqb_eq (p q : list string) : segs_eqb p q = true <-> p = q.
Proof.
  revert q. induction p as [|x p IH]; intros [|y q]; cbn [segs_eqb];
    try (split; [discriminate | congruence]); [tauto|].
  rewrite andb_true_iff, String.eqb_eq, IH. split; [intros [-> ->]; reflexivity|].
  intros [= -> ->]. auto.
Qed.

Lemma segs_eqb_refl (p : list string) : segs_eqb p p = true.
Proof. now apply segs_eqb_eq. Qed.

Lemma is_prefix_app (p q : list string) : is_prefix p (p ++ q) = true.
Proof.
  induction p as [|x p IH]; [reflexivity|]. cbn [app is_prefix].
  now rewrite String.eqb_refl, IH.
Qed.

Lemma is_prefix_length (p q : list string) :
  is_prefix p q = true -> length p <= length q.
Proof.
  revert q. induction p as [|x p IH]; intros [|y q]; cbn [is_prefix length];
    try lia; try discriminate.
  intros H. apply andb_true_iff in H as [_ H]. specialize (IH _ H). lia.
Qed.

Lemma is_prefix_inv (p q : list string) :
  is_prefix p q = true -> exists r, q = p ++ r.
Proof.
  revert q. induction p as [|x p IH]; intros q H; [exists q; reflexivity|].
  destruct q as [|y q]; [discriminate|]. cbn [is_prefix] in H.
  apply andb_true_iff in H as [Hxy H]. apply String.eqb_eq in Hxy. subst y.
  destruct (IH _ H) as [r ->]. now exists r.
Qed.

Lemma kind_at_nil (fs : node) : kind_at [] fs = Some (kind_of fs).
Proof. reflexivity. Qed.

Lemma kind_at_cons (x : string) (p : list string) (fs : node) :
  kind_at (x :: p) fs =
  match fs with
  | Dir es => match find_entry x es with Some c => kind_at p c | None => None end
  | _ => None
  end.
Proof.
  unfold kind_at. cbn [lookup]. destruct fs as [d| |es]; try reflexivity.
  destruct (find_entry x es); reflexivity.
Qed.

Lemma kind_at_app (p q : list string) (fs : node) :
  kind_at (p ++ q) fs =
  match lookup p fs with Some n => kind_at q n | None => None end.
Proof.
  unfold kind_at. rewrite lookup_app. destruct (lookup p fs); reflexivity.
Qed.

Lemma kind_at_below_absent (p q : list string) (fs : node) :
  kind_at p fs = None -> kind_at (p ++ q) fs = None.
Proof.
  rewrite kind_at_app. unfold kind_at. destruct (lookup p fs); [discriminate | reflexivity].
Qed.

Lemma kind_at_below_file (p q : list string) (fs : node) :
  kind_at p fs = Some KFile -> q <> [] -> kind_at (p ++ q) fs = None.
Proof.
  rewrite kind_at_app. unfold kind_at.
  destruct (lookup p fs) as [[d| |es]|]; try discriminate.
  intros _ Hq. destruct q; [congruence | reflexivity].
Qed.

Lemma fresh_dirs_kind (p q : list string) :
  kind_at q (fresh_dirs p) = if is_prefix q p then Some KDir else None.
Proof.
  revert q. induction p as [|x p IH]; intros [|y q]; try reflexivity.
  rewrite kind_at_cons. cbn [fresh_dirs find_entry is_prefix].
  destruct (String.eqb y x); [apply IH | reflexivity].
Qed.

(** [os.makedirs(p, exist_ok=True)] keeps the kind of every node that
    was there, and what it adds are the directories on the way to
    [p]. *)
Lemma makedirs_kind (p : list string) :
  forall (fs fs' : node) (q : list string),
  makedirs true p fs = inr fs' ->
  kind_at q fs' =
  match kind_at q fs with
  | Some k => Some k
  | None => if is_prefix q p then Some KDir else None
  end.
Proof.
  induction p as [|x p IH]; intros fs fs' q H.
  - cbn [makedirs andb] in H. destruct (is_dir_node fs); [|discriminate].
    injection H as <-. destruct (kind_at q fs) eqn:Hk; [reflexivity|].
    destruct q; [discriminate | reflexivity].
  - cbn [makedirs] in H. destruct fs as [d| |es]; try discriminate.
    destruct (find_entry x es) as [c|] eqn:Hc.
    + destruct (makedirs true p c) as [e|c'] eqn:Hm; [discriminate|].
      injection H as <-. destruct q as [|y q]; [reflexivity|].
      rewrite !kind_at_cons. cbn [is_prefix].
      destruct (String.eqb y x) eqn:Hyx.
      * apply String.eqb_eq in Hyx. subst y.
        rewrite find_entry_set_same, Hc. exact (IH _ _ _ Hm).
      * rewrite (find_entry_set_other _ _ _ _ Hyx).
        destruct (find_entry y es) as [cy|]; [|reflexivity].
        destruct (kind_at q cy); reflexivity.
    + injection H as <-. destruct q as [|y q]; [reflexivity|].
      rewrite !kind_at_cons. cbn [is_prefix].
      destruct (String.eqb y x) eqn:Hyx.
      * apply String.eqb_eq in Hyx. subst y.
        rewrite find_entry_set_same, Hc. apply fresh_dirs_kind.
      * rewrite (find_entry_set_other _ _ _ _ Hyx).
        destruct (find_entry y es) as [cy|]; [|reflexivity].
        destruct (kind_at q cy); reflexivity.
Qed.

(** When it succeeds, the path is a directory afterwards. *)
Lemma makedirs_is_dir (p : list string) (fs fs' : node) :
  makedirs true p fs = inr fs' -> kind_at p fs' = Some KDir.
Proof.
  revert fs fs'. induction p as [|x p IH]; intros fs fs' H.
  - cbn [makedirs andb] in H. destruct fs as [d| |es]; try discriminate.
    injection H as <-. reflexivity.
  - cbn [makedirs] in H. destruct fs as [d| |es]; try discriminate.
    destruct (find_entry x es) as [c|] eqn:Hc.
    + destruct (makedirs true p c) as [e|c'] eqn:Hm; [discriminate|].
      injection H as <-. rewrite kind_at_cons, find_entry_set_same. exact (IH _ _ Hm).
    + injection H as <-. rewrite kind_at_cons, find_entry_set_same.
      rewrite fresh_dirs_kind. clear. induction p as [|y p IH]; [reflexivity|].
      cbn [is_prefix]. now rewrite String.eqb_refl.
Qed.

(** Outside the path, nothing changes. *)
Lemma makedirs_elsewhere (p : list string) :
  forall (fs fs' : node) (q : list string),
  makedirs true p fs = inr fs' -> is_prefix q p = false ->
  lookup q fs' = lookup q fs.
Proof.
  induction p as [|x p IH]; intros fs fs' q H Hq.
  - cbn [makedirs andb] in H. destruct (is_dir_node fs); [|discriminate].
    now injection H as <-.
  - destruct q as [|y q]; [discriminate|].
    cbn [makedirs] in H. destruct fs as [d| |es]; try discriminate.
    cbn [is_prefix] in Hq.
    destruct (find_entry x es) as [c|] eqn:Hc.
    + destruct (makedirs true p c) as [e|c'] eqn:Hm; [discriminate|].
      injection H as <-. cbn [lookup].
      destruct (String.eqb y x) eqn:Hyx.
      * apply String.eqb_eq in Hyx. subst y.
        rewrite find_entry_set_same, Hc. exact (IH _ _ _ Hm Hq).
      * now rewrite (find_entry_set_other _ _ _ _ Hyx).
    + injection H as <-. cbn [lookup].
      destruct (String.eqb y x) eqn:Hyx.
      * apply String.eqb_eq in Hyx. subst y.
        rewrite find_entry_set_same, Hc. cbn [andb] in Hq.
        pose proof (fresh_dirs_kind p q) as Hk. rewrite Hq in Hk.
        unfold kind_at in Hk. destruct (lookup q (fresh_dirs p)); [discriminate | reflexivity].
      * now rewrite (find_entry_set_other _ _ _ _ Hyx).
Qed.

(** Writing a file succeeds exactly when the parent is a directory and
    the target is absent or a regular file; then the target is a regular
    file and every other node keeps its kind. *)
Lemma write_file_kind (p : list string) (d : string) :
  forall (fs fs' : node) (q : list string),
  write_file p d fs = inr fs' ->
  (kind_at p fs = None \/ kind_at p fs = Some KFile) /\
  kind_at q fs' = if segs_eqb q p then Some KFile else kind_at q fs.
Proof.
  induction p as [|x p IH]; intros fs fs' q H; [discriminate|].
  cbn [write_file] in H. destruct fs as [c0| |es]; try discriminate.
  destruct p as [|z p].
  - assert (Hx : find_entry x es = None \/ exists c, find_entry x es = Some (File c)).
    { destruct (find_entry x es) as [[c| |es']|]; try discriminate; eauto. }
    assert (Hfs' : fs' = Dir (set_entry x (File d) es)).
    { destruct (find_entry x es) as [[c| |es']|]; try discriminate; now injection H as <-. }
    subst fs'. split.
    + rewrite kind_at_cons. destruct Hx as [->|[c ->]]; auto.
    + destruct q as [|y q]; [reflexivity|].
      rewrite !kind_at_cons. cbn [segs_eqb].
      destruct (String.eqb y x) eqn:Hyx.
      * apply String.eqb_eq in Hyx. subst y. rewrite find_entry_set_same.
        destruct q as [|y' q]; [reflexivity|]. cbn [andb segs_eqb].
        rewrite kind_at_cons.
        destruct Hx as [->|[c ->]]; [reflexivity | now rewrite kind_at_cons].
      * now rewrite (find_entry_set_other _ _ _ _ Hyx).
  - destruct (find_entry x es) as [c|] eqn:Hc; [|discriminate].
    destruct (write_file (z :: p) d c) as [e|c'] eqn:Hw; [discriminate|].
    injection H as <-. split.
    + rewrite kind_at_cons, Hc. exact (proj1 (IH _ _ [] Hw)).
    + destruct q as [|y q]; [reflexivity|].
      rewrite !kind_at_cons. cbn [segs_eqb].
      destruct (String.eqb y x) eqn:Hyx.
      * apply String.eqb_eq in Hyx. subst y.
        rewrite find_entry_set_same, Hc. exact (proj2 (IH _ _ q Hw)).
      * now rewrite (find_entry_set_other _ _ _ _ Hyx).
Qed.

Lemma write_file_succeeds (par : list string) (x d : string) :
  forall fs,
  kind_at par fs = Some KDir ->
  (kind_at (par ++ [x]) fs = None \/ kind_at (par ++ [x]) fs = Some KFile) ->
  exists fs', write_file (par ++ [x]) d fs = inr fs'.
Proof.
  induction par as [|y par IH]; intros fs Hpar Htgt.
  - cbn [app] in *. destruct fs as [c0| |es]; try discriminate.
    rewrite kind_at_cons in Htgt. cbn [write_file].
    destruct (find_entry x es) as [[c| |es']|]; eauto;
      destruct Htgt as [Ht|Ht]; discriminate.
  - rewrite kind_at_cons in Hpar. cbn [app] in *. rewrite kind_at_cons in Htgt.
    destruct fs as [c0| |es]; try discriminate.
    destruct (find_entry y es) as [c|] eqn:Hc; [|discriminate].
    destruct (IH c Hpar Htgt) as [c' Hc'].
    cbn [write_file]. rewrite Hc.
    destruct (par ++ [x]) as [|z r] eqn:Hr; [destruct par; discriminate|].
    rewrite Hc'. eauto.
Qed.

(** ** One copy *)

Lemma path_node_plain (fs : node) (p : string) :
  String.eqb p "" = false -> ends_with_slash p = false ->
  path_node fs p = lookup (segs p) fs.
Proof.
  intros H1 H2. unfold path_node. rewrite H1, H2.
  destruct (lookup (segs p) fs); reflexivity.
Qed.

Lemma kind_at_file (p : list string) (fs : node) :
  kind_at p fs = Some KFile -> exists c, lookup p fs = Some (File c).
Proof.
  unfold kind_at. destruct (lookup p fs) as [[c| |es]|]; try discriminate. eauto.
Qed.

(** The file system after a copy: unchanged, or with the target
    written. *)
Lemma move_file_fs (s d : string) (fs : node) :
  fs_after (move_file s d fs) = fs \/
  exists c fs', write_file (segs d) c fs = inr fs' /\ fs_after (move_file s d fs) = fs'.
Proof.
  unfold move_file.
  assert (H : fs_after (shutil_copyfile s d fs) = fs \/
              exists c fs', write_file (segs d) c fs = inr fs' /\
                            fs_after (shutil_copyfile s d fs) = fs').
  { unfold shutil_copyfile. rewrite bind_emit. run_proj.
    rewrite bind_get_fs. run_proj.
    destruct (samefile fs s d); [now left|].
    destruct (is_fifo fs s || is_fifo fs d)%bool; [now left|].
    destruct (path_node fs s) as [[c| |es]|]; try (now left).
    destruct (String.eqb d "" || ends_with_slash d)%bool; [now left|].
    unfold lift_fs. destruct (write_file (segs d) c fs) as [e|fs'] eqn:Hw; [now left|].
    right. exists c, fs'. auto. }
  destruct (outcome (shutil_copyfile s d fs)) as [a|e] eqn:Ho.
  - rewrite (bind_ok _ _ _ _ Ho). run_proj. exact H.
  - rewrite (bind_raise _ _ _ _ Ho). run_proj. exact H.
Qed.

Lemma copy_ready_ok (fs : node) (s d : string) :
  copy_ready fs s d -> is_ok (outcome (move_file s d fs)) = true.
Proof.
  intros (Hs1 & Hs2 & Hsk & Hd1 & Hd2 & Hne & (par & x & Hpar & Hpk) & Htk).
  destruct (kind_at_file _ _ Hsk) as [c Hc].
  assert (Hsrc : path_node fs s = Some (File c)).
  { now rewrite (path_node_plain fs s Hs1 Hs2). }
  assert (Hfifo : is_fifo fs d = false).
  { unfold is_fifo. rewrite (path_node_plain fs d Hd1 Hd2). unfold kind_at in Htk.
    destruct (lookup (segs d) fs) as [[c'| |es]|]; try reflexivity.
    destruct Htk; discriminate. }
  assert (Hw : exists fs', write_file (segs d) c fs = inr fs').
  { rewrite Hpar in Htk |- *. now apply write_file_succeeds. }
  destruct Hw as [fs' Hw].
  assert (Hcopy : outcome (shutil_copyfile s d fs) = Ok tt).
  { unfold shutil_copyfile. rewrite bind_emit. run_proj. rewrite bind_get_fs. run_proj.
    unfold samefile. rewrite Hne, andb_false_r.
    unfold is_fifo at 1. rewrite Hsrc, Hfifo. cbn [orb].
    rewrite Hd1, Hd2. cbn [orb]. unfold lift_fs. now rewrite Hw. }
  unfold move_file. rewrite (bind_ok _ _ _ _ Hcopy). run_proj. reflexivity.
Qed.

(** A copy that can succeed can still succeed after any other copy. *)
Lemma copy_ready_preserved (fs : node) (s d s' d' : string) :
  copy_ready fs s d -> copy_ready (fs_after (move_file s' d' fs)) s d.
Proof.
  intros Hr. destruct (move_file_fs s' d' fs) as [->|(c & fs' & Hw & ->)]; [exact Hr|].
  destruct Hr as (Hs1 & Hs2 & Hsk & Hd1 & Hd2 & Hne & (par & x & Hpar & Hpk) & Htk).
  pose proof (write_file_kind _ _ _ _ (segs s) Hw) as [Hold Hks].
  pose proof (write_file_kind _ _ _ _ (segs d) Hw) as [_ Hkd].
  pose proof (write_file_kind _ _ _ _ par Hw) as [_ Hkp].
  repeat split; try assumption.
  - rewrite Hks. destruct (segs_eqb (segs s) (segs d')); [reflexivity | exact Hsk].
  - exists par, x. split; [exact Hpar|]. rewrite Hkp.
    destruct (segs_eqb par (segs d')) eqn:He; [|exact Hpk].
    apply segs_eqb_eq in He. rewrite He in Hpk. destruct Hold; congruence.
  - rewrite Hkd. destruct (segs_eqb (segs d) (segs d')); [now right | exact Htk].
Qed.

(** ** The pool *)

Lemma run_pool_cons (s d : string) (rest : list (string * string)) (fs : node) :
  exists rs,
    outcome (run_pool rest (fs_after (move_file s d fs))) = Ok rs /\
    outcome (run_pool ((s, d) :: rest) fs) = Ok (outcome (move_file s d fs) :: rs).
Proof.
  destruct (run_pool_run rest (fs_after (move_file s d fs))) as (rs & Hrs & _ & _).
  exists rs. split; [exact Hrs|]. cbn [run_pool].
  rewrite (bind_ok (capture (move_file s d)) _ fs (outcome (move_file s d fs)) eq_refl).
  run_proj.
  change (fs_after (capture (move_file s d) fs)) with (fs_after (move_file s d fs)).
  rewrite (bind_ok _ _ _ _ Hrs). run_proj. reflexivity.
Qed.

(** Whatever the order of completion, a task that could succeed before
    the pool started holds a result at the end. *)
Lemma run_pool_ready (order : list (string * string)) :
  forall (fs : node) (rs : list (res string)),
  outcome (run_pool order fs) = Ok rs ->
  forall s d r, In ((s, d), r) (combine order rs) ->
  copy_ready fs s d -> is_ok r = true.
Proof.
  induction order as [|[s0 d0] order IH]; intros fs rs Hrs s d r Hin Hready.
  - destruct Hin.
  - destruct (run_pool_cons s0 d0 order fs) as (rs' & Hrs' & Hcons).
    rewrite Hcons in Hrs. injection Hrs as <-.
    cbn [combine] in Hin. destruct Hin as [Heq|Hin].
    + injection Heq as <- <- <-. now apply copy_ready_ok.
    + apply (IH _ _ Hrs' s d r Hin). now apply copy_ready_preserved.
Qed.

(** ** Preparation of the destination *)

Lemma prepared_refl (fs : node) : prepared [] fs fs.
Proof.
  split; [|reflexivity]. intros q. cbn [existsb]. destruct (kind_at q fs); reflexivity.
Qed.

Lemma prepared_makedirs (p : list string) (fs fs' : node) :
  makedirs true p fs = inr fs' -> prepared [p] fs fs'.
Proof.
  intros H. split.
  - intros q. rewrite (makedirs_kind _ _ _ q H). cbn [existsb]. now rewrite orb_false_r.
  - intros q Hq. apply (makedirs_elsewhere _ _ _ _ H). apply Hq. now left.
Qed.

Lemma prepared_trans (P1 P2 : list (list string)) (fs fs1 fs2 : node) :
  prepared P1 fs fs1 -> prepared P2 fs1 fs2 -> prepared (P1 ++ P2) fs fs2.
Proof.
  intros [K1 L1] [K2 L2]. split.
  - intros q. rewrite K2, K1, existsb_app.
    destruct (kind_at q fs); [reflexivity|].
    destruct (existsb (is_prefix q) P1); reflexivity.
  - intros q Hq. rewrite L2, L1; [reflexivity| |];
      intros p Hp; apply Hq; apply in_or_app; auto.
Qed.

Lemma dbutils_fs_mkdirs_run (E : Env) (path : string) (fs : node) :
  dbutils_fs_mkdirs E path fs =
  match makedirs true (segs (dbfs_mount E path)) fs with
  | inr fs' => MkRun (Ok tt) fs' [EvMkdirs path]
  | inl e => MkRun (Raise e) fs [EvMkdirs path]
  end.
Proof.
  unfold dbutils_fs_mkdirs. rewrite bind_emit. run_proj. unfold lift_fs.
  destruct (makedirs true (segs (dbfs_mount E path)) fs); reflexivity.
Qed.

Lemma mkdirs_each_prepared (E : Env) (subdirs : list string) :
  forall fs,
  outcome (mkdirs_each E subdirs fs) = Ok tt ->
  prepared (map (subdir_path E) subdirs) fs (fs_after (mkdirs_each E subdirs fs)).
Proof.
  induction subdirs as [|d ds IH]; intros fs Hok; [apply prepared_refl|].
  cbn [mkdirs_each map] in *.
  pose proof (dbutils_fs_mkdirs_run E (blob_out_path E ++ "/" ++ d) fs) as Hrun.
  destruct (makedirs true (segs (dbfs_mount E (blob_out_path E ++ "/" ++ d))) fs)
    as [e|fs1] eqn:Hm.
  - rewrite (bind_raise _ _ _ e) in Hok by (rewrite Hrun; reflexivity).
    rewrite outcome_mk in Hok. discriminate.
  - rewrite (bind_ok _ _ _ tt) in Hok |- * by (rewrite Hrun; reflexivity).
    rewrite outcome_mk in Hok. rewrite fs_after_mk. rewrite Hrun in Hok |- *.
    rewrite fs_after_mk in Hok |- *.
    change (subdir_path E d :: map (subdir_path E) ds)
      with ([subdir_path E d] ++ map (subdir_path E) ds).
    apply (prepared_trans _ _ fs fs1).
    + now apply prepared_makedirs.
    + now apply IH.
Qed.

Lemma walk_next_first_level (E : Env) (fs : node) (top : string) :
  walk_fault E top = false ->
  match walk_next (os_walk (walk_fault E) fs top) with
  | Ok t => snd (fst t) = first_level_dirs fs top
  | Raise e => e = StopIteration /\ first_level_dirs fs top = []
  end.
Proof.
  intros Hnf. unfold os_walk, first_level_dirs.
  destruct (path_node fs top) as [[d| |es]|]; cbn [walk_node walk_next]; auto.
  rewrite Hnf. reflexivity.
Qed.

(** A preparation that succeeds has made the destination root and one
    directory for each first-level sub-directory of the output root. *)
Lemma create_target_directories_prepared (E : Env) (fs : node) :
  walk_fault E (driver_out_path E) = false ->
  outcome (create_target_directories E fs) = Ok tt ->
  exists fs1,
    makedirs true (segs (dbfs_mount E (blob_out_path E))) fs = inr fs1 /\
    prepared (segs (dbfs_mount E (blob_out_path E))
              :: map (subdir_path E) (first_level_dirs fs1 (driver_out_path E)))
             fs (fs_after (create_target_directories E fs)).
Proof.
  intros Hnf Hok. unfold create_target_directories in *.
  pose proof (dbutils_fs_mkdirs_run E (blob_out_path E) fs) as Hrun.
  destruct (makedirs true (segs (dbfs_mount E (blob_out_path E))) fs) as [e|fs1] eqn:Hm.
  { rewrite (bind_raise _ _ _ e) in Hok by (rewrite Hrun; reflexivity).
    rewrite outcome_mk in Hok. discriminate. }
  exists fs1. split; [reflexivity|].
  rewrite (bind_ok _ _ _ tt) in Hok |- * by (rewrite Hrun; reflexivity).
  rewrite outcome_mk in Hok. rewrite fs_after_mk. rewrite Hrun in Hok |- *.
  rewrite fs_after_mk in Hok |- *.
  rewrite bind_get_fs in Hok |- *. rewrite outcome_mk in Hok. rewrite fs_after_mk.
  pose proof (walk_next_first_level E fs1 (driver_out_path E) Hnf) as Hw.
  change (?p :: map (subdir_path E) ?l) with ([p] ++ map (subdir_path E) l).
  apply (prepared_trans _ _ fs fs1); [now apply prepared_makedirs|].
  destruct (walk_next (os_walk (walk_fault E) fs1 (driver_out_path E))) as [t|e] eqn:Hnext.
  - rewrite <- Hw.
    assert (Hbody : forall X,
      (walk_result <- lift_res (Ok t) ;; mkdirs_each E (snd (fst walk_result))) X =
      MkRun (outcome (mkdirs_each E (snd (fst t)) X))
            (fs_after (mkdirs_each E (snd (fst t)) X))
            (log (mkdirs_each E (snd (fst t)) X))).
    { intros X. now rewrite bind_lift_res_ok. }
    destruct (outcome (mkdirs_each E (snd (fst t)) fs1)) as [u|e] eqn:Hmk.
    + rewrite (try_except_ok _ _ _ u) in Hok |- * by (rewrite Hbody, outcome_mk; exact Hmk).
      rewrite Hbody, fs_after_mk. apply mkdirs_each_prepared. now destruct u.
    + exfalso.
      assert (Hraise : outcome ((walk_result <- lift_res (Ok t) ;;
                                 mkdirs_each E (snd (fst walk_result))) fs1) = Raise e).
      { rewrite Hbody, outcome_mk. exact Hmk. }
      destruct e;
        try (rewrite (try_except_uncaught _ _ _ _ Hraise eq_refl) in Hok;
             rewrite Hraise in Hok; discriminate).
      (* [StopIteration] is not raised by [mkdirs]. *)
      clear - Hmk. revert Hmk. generalize (snd (fst t)). intros ds. revert fs1.
      induction ds as [|d ds IH]; intros fs1 Hmk; [discriminate|].
      cbn [mkdirs_each] in Hmk.
      pose proof (dbutils_fs_mkdirs_run E (blob_out_path E ++ "/" ++ d) fs1) as Hrun.
      destruct (makedirs true (segs (dbfs_mount E (blob_out_path E ++ "/" ++ d))) fs1)
        as [e|fs2] eqn:Hm.
      * rewrite (bind_raise _ _ _ e) in Hmk by (rewrite Hrun; reflexivity).
        rewrite outcome_mk in Hmk. injection Hmk as ->.
        clear - Hm. revert Hm. generalize (segs (dbfs_mount E (blob_out_path E ++ "/" ++ d))).
        intros p. revert fs1. induction p as [|x p IHp]; intros fs1 Hm.
        -- cbn in Hm. destruct (is_dir_node fs1); discriminate.
        -- cbn [makedirs] in Hm. destruct fs1 as [c| |es]; try discriminate.
           destruct (find_entry x es) as [c|]; [|discriminate].
           destruct (makedirs true p c) as [e'|c'] eqn:Hm'; [|discriminate].
           injection Hm as ->. exact (IHp _ Hm').
      * rewrite (bind_ok _ _ _ tt) in Hmk by (rewrite Hrun; reflexivity).
        rewrite outcome_mk in Hmk. rewrite Hrun, fs_after_mk in Hmk. exact (IH _ Hmk).
  - destruct Hw as [-> Hnone]. rewrite Hnone. cbn [map].
    assert (Hraise : outcome ((walk_result <- lift_res (@Raise triple StopIteration) ;;
                               mkdirs_each E (snd (fst walk_result))) fs1)
                     = Raise StopIteration).
    { now rewrite bind_lift_res_raise. }
    rewrite (try_except_caught _ _ _ _ _ Hraise eq_refl). rewrite fs_after_mk.
    rewrite bind_lift_res_raise. rewrite fs_after_mk. apply prepared_refl.
Qed.

(** ** Well-formedness is kept by [makedirs] *)

Lemma valid_name_cons (c : ascii) (x : string) :
  Ascii.eqb c slash = false -> slashes x = 0 -> valid_name (String c x) = true.
Proof.
  intros Hc Hx. unfold valid_name. cbn [slashes]. rewrite Hc, Hx. reflexivity.
Qed.

Lemma segs_all_valid (s : string) : Forall (fun x => valid_name x = true) (segs s).
Proof.
  induction s as [|c s IH]; [constructor|].
  cbn [segs]. destruct (Ascii.eqb c slash) eqn:Hc; [exact IH|].
  destruct s as [|c' s].
  - constructor; [now apply valid_name_cons | constructor].
  - destruct (Ascii.eqb c' slash) eqn:Hc'.
    + constructor; [now apply valid_name_cons | exact IH].
    + destruct (segs (String c' s)) as [|x r].
      * constructor; [now apply valid_name_cons | constructor].
      * inversion IH as [|? ? Hx Hr]; subst. constructor; [|exact Hr].
        apply valid_name_inv in Hx as [_ Hx]. now apply valid_name_cons.
Qed.

Lemma set_entry_names (x : string) (c : node) (es : list (string * node)) :
  map fst (set_entry x c es) =
  if existsb (String.eqb x) (map fst es) then map fst es else map fst es ++ [x].
Proof.
  induction es as [|[y n] es IH]; [reflexivity|].
  cbn [set_entry map fst existsb]. destruct (String.eqb x y) eqn:Hxy.
  - reflexivity.
  - cbn [map fst orb]. rewrite IH.
    destruct (existsb (String.eqb x) (map fst es)); reflexivity.
Qed.

Lemma names_nodup_snoc (l : list string) (x : string) :
  names_nodup l = true -> existsb (String.eqb x) l = false ->
  names_nodup (l ++ [x]) = true.
Proof.
  induction l as [|y l IH]; intros Hl Hx; [reflexivity|].
  cbn [names_nodup existsb app] in *.
  apply andb_true_iff in Hl as [Hy Hl]. apply orb_false_iff in Hx as [Hxy Hx].
  rewrite (IH Hl Hx), andb_true_r. rewrite existsb_app. cbn [existsb].
  apply negb_true_iff in Hy. rewrite Hy. rewrite String.eqb_sym, Hxy. reflexivity.
Qed.

Lemma set_entry_In (x : string) (c : node) (es : list (string * node)) :
  forall y n, In (y, n) (set_entry x c es) -> In (y, n) es \/ (y = x /\ n = c).
Proof.
  induction es as [|[z m] es IH]; intros y n H; cbn [set_entry] in H.
  - destruct H as [[= <- <-]|[]]. now right.
  - destruct (String.eqb x z) eqn:Hxz.
    + apply String.eqb_eq in Hxz. subst z. destruct H as [[= <- <-]|H].
      * now right.
      * left. now right.
    + destruct H as [H|H].
      * left. now left.
      * destruct (IH _ _ H) as [H'|H']; [left; now right | now right].
Qed.

Lemma wf_intro (es : list (string * node)) :
  (forall x c, In (x, c) es -> valid_name x = true /\ wf c = true) ->
  names_nodup (map fst es) = true -> wf (Dir es) = true.
Proof.
  intros H Hn. cbn [wf]. rewrite Hn, andb_true_r. apply andb_true_iff. split.
  - apply forallb_forall. intros [x c] Hin. exact (proj1 (H _ _ Hin)).
  - apply forallb_forall. intros [x c] Hin. exact (proj2 (H _ _ Hin)).
Qed.

Lemma wf_nodup (es : list (string * node)) :
  wf (Dir es) = true -> names_nodup (map fst es) = true.
Proof.
  cbn [wf]. intros H. apply andb_true_iff in H as [H _].
  now apply andb_true_iff in H as [_ H].
Qed.

Lemma wf_set_entry (x : string) (c : node) (es : list (string * node)) :
  valid_name x = true -> wf c = true -> wf (Dir es) = true ->
  wf (Dir (set_entry x c es)) = true.
Proof.
  intros Hx Hc Hes. apply wf_intro.
  - intros y n Hin. destruct (set_entry_In _ _ _ _ _ Hin) as [H|[-> ->]].
    + destruct (wf_Dir _ Hes _ _ H) as (Hv & Hw & _). now split.
    + now split.
  - rewrite set_entry_names. pose proof (wf_nodup _ Hes) as Hn.
    destruct (existsb (String.eqb x) (map fst es)) eqn:Hex; [exact Hn|].
    now apply names_nodup_snoc.
Qed.

Lemma fresh_dirs_wf (p : list string) :
  Forall (fun x => valid_name x = true) p -> wf (fresh_dirs p) = true.
Proof.
  induction 1 as [|x p Hx Hp IH]; [reflexivity|].
  cbn [fresh_dirs]. apply (wf_set_entry x (fresh_dirs p) []); auto.
Qed.

Lemma makedirs_wf (ok : bool) (p : list string) :
  Forall (fun x => valid_name x = true) p ->
  forall fs fs', wf fs = true -> makedirs ok p fs = inr fs' -> wf fs' = true.
Proof.
  induction 1 as [|x p Hx Hp IH]; intros fs fs' Hwf Hm.
  - cbn [makedirs] in Hm. destruct (ok && is_dir_node fs)%bool; [|discriminate].
    now injection Hm as <-.
  - cbn [makedirs] in Hm. destruct fs as [d| |es]; try discriminate.
    destruct (find_entry x es) as [c|] eqn:Hf.
    + destruct (makedirs ok p c) as [e|c'] eqn:Hm'; [discriminate|].
      injection Hm as <-. apply wf_set_entry; [exact Hx| |exact Hwf].
      apply find_entry_In in Hf. destruct (wf_Dir _ Hwf _ _ Hf) as (_ & Hc & _).
      exact (IH _ _ Hc Hm').
    + injection Hm as <-. apply wf_set_entry; [exact Hx| |exact Hwf].
      now apply fresh_dirs_wf.
Qed.

Lemma lookup_valid (p : list string) :
  forall n c, wf n = true -> lookup p n = Some c ->
  Forall (fun x => valid_name x = true) p.
Proof.
  induction p as [|x p IH]; intros n c Hwf H; [constructor|].
  cbn [lookup] in H. destruct n as [d| |es]; try discriminate.
  destruct (find_entry x es) as [m|] eqn:Hf; [|discriminate].
  apply find_entry_In in Hf. destruct (wf_Dir _ Hwf _ _ Hf) as (Hx & Hm & _).
  constructor; [exact Hx | exact (IH _ _ Hm H)].
Qed.


Lemma makedirs_blocked (p : list string) :
  forall fs n, lookup p fs = Some n -> is_dir_node n = false ->
  exists e, makedirs true p fs = inl e.
Proof.
  induction p as [|x p IH]; intros fs n Hl Hn.
  - cbn in Hl. injection Hl as ->. cbn [makedirs]. rewrite Hn. now eexists.
  - cbn [lookup] in Hl. cbn [makedirs]. destruct fs as [d| |es]; try discriminate.
    destruct (find_entry x es) as [c|]; [|discriminate].
    destruct (IH _ _ Hl Hn) as [e ->]. now eexists.
Qed.

Lemma dirnames_In (d : string) (es : list (string * node)) :
  In d (dirnames es) <-> exists l, In (d, Dir l) es.
Proof.
  unfold dirnames. rewrite in_map_iff. split.
  - intros [[x c] [Hx Hin]]. cbn in Hx. subst x. apply filter_In in Hin as [Hin Hd].
    cbn in Hd. destruct c as [| |l]; try discriminate. now exists l.
  - intros [l Hin]. exists (d, Dir l). split; [reflexivity|].
    apply filter_In. now split.
Qed.

(** ** Files of the first two levels *)

Lemma join_rel_path (names : list string) :
  names <> [] -> Forall (fun x => valid_name x = true) names ->
  forall a,
    segs (py_join a (rel_path names)) = segs a ++ names /\
    String.eqb (py_join a (rel_path names)) "" = false /\
    ends_with_slash (py_join a (rel_path names)) = false.
Proof.
  induction names as [|x names IH]; intros Hne Hv a; [congruence|].
  inversion Hv as [|? ? Hx Hr]; subst. destruct names as [|y r].
  - change (rel_path [x]) with x. split; [now apply segs_py_join|].
    split; [now apply py_join_not_empty | now apply py_join_no_trailing_slash].
  - rewrite rel_path_cons by discriminate.
    destruct (rel_path_relative (y :: r)) as [Hrel _]; [discriminate | exact Hr|].
    rewrite <- (py_join_nested a x _ Hx Hrel).
    destruct (IH ltac:(discriminate) Hr (py_join a x)) as (H1 & H2 & H3).
    rewrite H1, (segs_py_join a x Hx), <- app_assoc. split; [reflexivity|]. now split.
Qed.

Lemma slashes_rel_path (names : list string) :
  Forall (fun x => valid_name x = true) names ->
  slashes (rel_path names) = length names - 1.
Proof.
  induction 1 as [|x names Hx Hr IH]; [reflexivity|].
  apply valid_name_inv in Hx as [_ Hx]. destruct names as [|y r].
  - change (rel_path [x]) with x. cbn. lia.
  - rewrite rel_path_cons by discriminate. rewrite !slashes_append, Hx, IH. cbn. lia.
Qed.

Lemma shallow_no_recurrence (E : Env) (names : list string) :
  Forall (fun x => valid_name x = true) names -> length names <= 2 ->
  occurs (driver_out_path E) ("/" ++ rel_path names) = false.
Proof.
  intros Hv Hlen. destruct (occurs (driver_out_path E) ("/" ++ rel_path names)) eqn:Ho;
    [|reflexivity].
  apply occurs_slashes in Ho. rewrite driver_out_path_eq in Ho.
  rewrite !slashes_append, (slashes_rel_path _ Hv) in Ho.
  change (slashes "/local_disk0/tmp/tpcdi/sf=") with 4 in Ho.
  change (slashes "/") with 1 in Ho. lia.
Qed.

(** The target that line 234 computes for a file of the first two
    levels. *)
Lemma shallow_destination (E : Env) (names : list string) :
  scale_factor E <> "" -> names <> [] ->
  Forall (fun x => valid_name x = true) names -> length names <= 2 ->
  py_replace (py_join (driver_out_path E) (rel_path names))
             (driver_out_path E) (os_blob_out_path E) =
  py_join (os_blob_out_path E) (rel_path names).
Proof.
  intros Hsf Hne Hv Hlen. destruct (rel_path_relative names Hne Hv) as [Hrel _].
  destruct (root_separators E Hsf) as (Hs1 & Hs2 & Htop).
  rewrite !(py_join_sep _ _ Hrel).
  rewrite (py_replace_root _ _ _ Htop
             (occurs_after_sep _ _ (shallow_no_recurrence E names Hv Hlen))).
  now rewrite Hs1, Hs2.
Qed.

Lemma is_prefix_refl (p : list string) : is_prefix p p = true.
Proof. pose proof (is_prefix_app p []) as H. now rewrite app_nil_r in H. Qed.

Lemma path_node_dir (fs : node) (p : string) (es : list (string * node)) :
  p <> "" -> lookup (segs p) fs = Some (Dir es) -> path_node fs p = Some (Dir es).
Proof.
  intros Hp Hl. unfold path_node. apply String.eqb_neq in Hp. rewrite Hp, Hl.
  destruct (ends_with_slash p); reflexivity.
Qed.

Lemma first_level_member (fs : node) (top d : string) :
  top <> "" -> kind_at (segs top ++ [d]) fs = Some KDir ->
  In d (first_level_dirs fs top).
Proof.
  intros Htop Hk. rewrite kind_at_app in Hk.
  destruct (lookup (segs top) fs) as [n|] eqn:Hl; [|discriminate].
  rewrite kind_at_cons in Hk. destruct n as [c| |es]; try discriminate.
  destruct (find_entry d es) as [m|] eqn:Hf; [|discriminate].
  rewrite kind_at_nil in Hk. destruct m as [c| |l]; try discriminate.
  unfold first_level_dirs. rewrite (path_node_dir _ _ _ Htop Hl).
  apply dirnames_In. exists l. now apply find_entry_In.
Qed.

Lemma first_level_kind (fs : node) (top d : string) :
  wf fs = true -> In d (first_level_dirs fs top) ->
  valid_name d = true /\ kind_at (segs top ++ [d]) fs = Some KDir.
Proof.
  intros Hwf Hin. unfold first_level_dirs in Hin.
  destruct (path_node fs top) as [[c| |es]|] eqn:Hn; try destruct Hin.
  apply dirnames_In in Hin as [l Hin]. apply path_node_lookup in Hn.
  pose proof (wf_lookup _ _ _ Hwf Hn) as Hes.
  destruct (wf_Dir _ Hes _ _ Hin) as (Hv & _ & Hf). split; [exact Hv|].
  rewrite kind_at_app, Hn, kind_at_cons, Hf. reflexivity.
Qed.

Lemma subdir_path_eq (E : Env) (d : string) :
  mount_agrees E -> valid_name d = true ->
  subdir_path E d = segs (os_blob_out_path E) ++ [d].
Proof.
  intros Hma Hd. unfold subdir_path. rewrite (Hma ("/" ++ d)%string), segs_sep.
  now rewrite (segs_valid _ Hd).
Qed.

(** After a preparation that succeeds, a regular file one or two levels
    below the output root can be copied to its place below a destination
    that was not there before. *)
Lemma shallow_copy_ready (E : Env) (fs : node) (names : list string) (content : string) :
  wf fs = true -> scale_factor E <> "" -> mount_agrees E ->
  os_path_exists fs (os_blob_out_path E) = false ->
  walk_fault E (driver_out_path E) = false ->
  outcome (create_target_directories E fs) = Ok tt ->
  lookup (segs (driver_out_path E) ++ names) fs = Some (File content) ->
  names <> [] -> length names <= 2 ->
  copy_ready (fs_after (create_target_directories E fs))
             (py_join (driver_out_path E) (rel_path names))
             (py_join (os_blob_out_path E) (rel_path names)).
Proof.
  intros Hwf Hsf Hma Hex Hft Hok Hsrc Hne Hlen.
  assert (Hv : Forall (fun x => valid_name x = true) names).
  { pose proof (lookup_valid _ _ _ Hwf Hsrc) as H. now apply Forall_app in H as [_ H]. }
  destruct (create_target_directories_prepared E fs Hft Hok) as (fs1 & Hm & [HK HL]).
  assert (Hmount0 : dbfs_mount E (blob_out_path E) = os_blob_out_path E).
  { pose proof (Hma "") as H. now rewrite !append_nil_r in H. }
  rewrite Hmount0 in *.
  destruct (root_separators E Hsf) as (_ & _ & Htop).
  assert (Hos : os_blob_out_path E <> "").
  { rewrite os_blob_out_path_eq. now apply append_not_empty_r. }
  assert (Hfresh : kind_at (segs (os_blob_out_path E)) fs = None).
  { unfold os_path_exists, path_node in Hex. apply String.eqb_neq in Hos.
    rewrite Hos in Hex. unfold kind_at.
    destruct (lookup (segs (os_blob_out_path E)) fs) as [n0|] eqn:Hl; [|reflexivity].
    exfalso. destruct (ends_with_slash (os_blob_out_path E)); [|discriminate].
    destruct (is_dir_node n0) eqn:Hd; [discriminate|].
    destruct (makedirs_blocked _ _ _ Hl Hd) as [e He]. congruence. }
  assert (Hwf1 : wf fs1 = true).
  { exact (makedirs_wf true _ (segs_all_valid _) fs fs1 Hwf Hm). }
  assert (Hkeep : forall q k, kind_at q fs = Some k -> kind_at q fs1 = Some k).
  { intros q k Hq. now rewrite (makedirs_kind _ _ _ q Hm), Hq. }
  assert (Hfile : kind_at (segs (driver_out_path E) ++ names) fs = Some KFile).
  { unfold kind_at. now rewrite Hsrc. }
  destruct (join_rel_path names Hne Hv (driver_out_path E)) as (Ss & Sne & Sts).
  destruct (join_rel_path names Hne Hv (os_blob_out_path E)) as (Ds & Dne & Dts).
  unfold copy_ready. rewrite Ss, Ds.
  split; [exact Sne|]. split; [exact Sts|].
  split; [now rewrite HK, Hfile|].
  split; [exact Dne|]. split; [exact Dts|].
  split.
  { destruct (segs_eqb (segs (driver_out_path E) ++ names)
                       (segs (os_blob_out_path E) ++ names)) eqn:Heq; [|reflexivity].
    apply segs_eqb_eq in Heq. rewrite Heq in Hfile.
    rewrite (kind_at_below_absent _ names _ Hfresh) in Hfile. discriminate. }
  split.
  - destruct names as [|a [|b [|c r]]]; [congruence| | |cbn in Hlen; lia].
    + exists (segs (os_blob_out_path E)), a. split; [reflexivity|].
      rewrite HK, Hfresh. cbn [existsb]. now rewrite is_prefix_refl.
    + exists (segs (os_blob_out_path E) ++ [a]), b.
      split; [now rewrite <- app_assoc|].
      rewrite HK, (kind_at_below_absent _ [a] _ Hfresh).
      assert (Hdir : kind_at (segs (driver_out_path E) ++ [a]) fs = Some KDir).
      { change [a; b] with ([a] ++ [b]) in Hsrc. rewrite app_assoc, lookup_app in Hsrc.
        unfold kind_at.
        destruct (lookup (segs (driver_out_path E) ++ [a]) fs) as [m|]; [|discriminate].
        cbn [lookup] in Hsrc. destruct m as [c| |l]; try discriminate. reflexivity. }
      inversion Hv as [|? ? Ha _]; subst.
      assert (Hex1 : existsb (is_prefix (segs (os_blob_out_path E) ++ [a]))
                 (segs (os_blob_out_path E)
                  :: map (subdir_path E) (first_level_dirs fs1 (driver_out_path E)))
                 = true).
      { apply existsb_exists. exists (segs (os_blob_out_path E) ++ [a]).
        split; [|apply is_prefix_refl]. apply in_cons. apply in_map_iff. exists a.
        split; [now apply subdir_path_eq|].
        apply (first_level_member _ _ _ Htop). now apply Hkeep. }
      now rewrite Hex1.
  - left. rewrite HK, (kind_at_below_absent _ names _ Hfresh).
    destruct (existsb (is_prefix (segs (os_blob_out_path E) ++ names))
                (segs (os_blob_out_path E)
                 :: map (subdir_path E) (first_level_dirs fs1 (driver_out_path E))))
      eqn:Hex1; [exfalso|reflexivity].
    apply existsb_exists in Hex1 as (p & Hin & Hp). destruct Hin as [<-|Hin].
    + apply is_prefix_length in Hp. rewrite length_app in Hp.
      destruct names; [congruence | cbn in Hp; lia].
    + apply in_map_iff in Hin as (d' & <- & Hd').
      destruct (first_level_kind _ _ _ Hwf1 Hd') as (Hvd & Hkd).
      rewrite (subdir_path_eq _ _ Hma Hvd) in Hp.
      apply is_prefix_inv in Hp as [r Hr]. rewrite <- app_assoc in Hr.
      apply app_inv_head in Hr.
      destruct names as [|f [|b r']]; [congruence| |discriminate].
      cbn in Hr. injection Hr as -> _.
      rewrite (Hkeep _ _ Hfile) in Hkd. discriminate.
Qed.

Lemma example_agrees (cat : string) (code : Z) (out : node) :
  mount_agrees (example_env true cat code out).
Proof. intros s. reflexivity. Qed.




(** ** The content that a copy writes *)

Lemma write_file_lookup (p : list string) (d : string) :
  forall (fs fs' : node),
  write_file p d fs = inr fs' ->
  lookup p fs' = Some (File d) /\
  forall q, is_prefix q p = false -> lookup q fs' = lookup q fs.
Proof.
  induction p as [|x p IH]; intros fs fs' Hw; [discriminate|].
  cbn [write_file] in Hw. destruct fs as [c| |es]; try discriminate.
  destruct p as [|z p].
  - assert (Hfs' : fs' = Dir (set_entry x (File d) es) /\
                   (find_entry x es = None \/ exists c, find_entry x es = Some (File c))).
    { destruct (find_entry x es) as [[c| |l]|]; try discriminate;
        injection Hw as <-; split; eauto. }
    destruct Hfs' as [-> Hold]. split.
    + cbn [lookup]. now rewrite find_entry_set_same.
    + intros [|y q] Hq; [discriminate|]. cbn [is_prefix] in Hq. cbn [lookup].
      destruct (String.eqb y x) eqn:Hyx.
      * apply String.eqb_eq in Hyx. subst y. rewrite find_entry_set_same.
        destruct q as [|y' q]; [discriminate|].
        destruct Hold as [->|[c ->]]; reflexivity.
      * now rewrite (find_entry_set_other _ _ _ _ Hyx).
  - destruct (find_entry x es) as [c|] eqn:Hf; [|discriminate].
    destruct (write_file (z :: p) d c) as [e|c'] eqn:Hw'; [discriminate|].
    injection Hw as <-. destruct (IH _ _ Hw') as [H1 H2]. split.
    + cbn [lookup]. rewrite find_entry_set_same. exact H1.
    + intros [|y q] Hq; [discriminate|]. cbn [is_prefix] in Hq.
      change (lookup (y :: q) (Dir es))
        with (match find_entry y es with Some m => lookup q m | None => None end).
      change (lookup (y :: q) (Dir (set_entry x c' es)))
        with (match find_entry y (set_entry x c' es) with
              | Some m => lookup q m | None => None end).
      destruct (String.eqb y x) eqn:Hyx.
      * apply String.eqb_eq in Hyx. subst y. rewrite find_entry_set_same, Hf.
        apply H2. exact Hq.
      * now rewrite (find_entry_set_other _ _ _ _ Hyx).
Qed.

Lemma move_file_ready_run (fs : node) (s d c : string) :
  copy_ready fs s d -> lookup (segs s) fs = Some (File c) ->
  exists fs',
    write_file (segs d) c fs = inr fs' /\
    move_file s d fs =
    MkRun (Ok ("Finished moving " ++ s ++ " to " ++ d)%string) fs' [EvCopyfile s d].
Proof.
  intros (Hs1 & Hs2 & Hsk & Hd1 & Hd2 & Hne & (par & x & Hpar & Hpk) & Htk) Hc.
  assert (Hsrc : path_node fs s = Some (File c)).
  { now rewrite (path_node_plain fs s Hs1 Hs2). }
  assert (Hfifo : is_fifo fs d = false).
  { unfold is_fifo. rewrite (path_node_plain fs d Hd1 Hd2). unfold kind_at in Htk.
    destruct (lookup (segs d) fs) as [[c'| |es]|]; try reflexivity.
    destruct Htk; discriminate. }
  assert (Hw : exists fs', write_file (segs d) c fs = inr fs').
  { rewrite Hpar in Htk |- *. now apply write_file_succeeds. }
  destruct Hw as [fs' Hw]. exists fs'. split; [exact Hw|].
  assert (Hcopy : shutil_copyfile s d fs = MkRun (Ok tt) fs' [EvCopyfile s d]).
  { assert (Hfs : is_fifo fs s = false) by (unfold is_fifo; now rewrite Hsrc).
    unfold shutil_copyfile. rewrite bind_emit, bind_get_fs. run_proj.
    unfold samefile. rewrite Hne, andb_false_r, Hfs, Hfifo, Hsrc, Hd1, Hd2.
    cbn [orb]. unfold lift_fs. rewrite Hw. reflexivity. }
  assert (Ho : outcome (shutil_copyfile s d fs) = Ok tt) by (rewrite Hcopy; reflexivity).
  unfold move_file. rewrite (bind_ok _ _ _ _ Ho).
  rewrite Hcopy. run_proj. rewrite bind_ret_run. run_proj. reflexivity.
Qed.

Lemma source_not_above_target (fs : node) (s d : string) :
  copy_ready fs s d -> is_prefix (segs s) (segs d) = false.
Proof.
  intros (_ & _ & Hsk & _ & _ & Hne & (par & x & Hpar & Hpk) & _).
  destruct (is_prefix (segs s) (segs d)) eqn:Hp; [exfalso|reflexivity].
  apply is_prefix_inv in Hp as [r Hr].
  destruct r as [|y r] using rev_ind.
  - rewrite app_nil_r in Hr. rewrite Hr, segs_eqb_refl in Hne. discriminate.
  - clear IHr. rewrite Hpar, app_assoc in Hr. apply app_inj_tail in Hr as [-> _].
    destruct r as [|z r].
    + rewrite app_nil_r in Hpk. congruence.
    + rewrite (kind_at_below_file _ (z :: r) _ Hsk) in Hpk; discriminate.
Qed.

(** [move_file] copies: when the source is a regular file and the parent
    of the target is a directory, the call returns its message, the
    target holds the content of the source, and the source is still
    there with its content (nothing is moved away). *)
Theorem move_file_copies_content (fs : node) (s d content : string) :
  copy_ready fs s d -> lookup (segs s) fs = Some (File content) ->
  outcome (move_file s d fs) = Ok ("Finished moving " ++ s ++ " to " ++ d)%string /\
  log (move_file s d fs) = [EvCopyfile s d] /\
  lookup (segs d) (fs_after (move_file s d fs)) = Some (File content) /\
  lookup (segs s) (fs_after (move_file s d fs)) = Some (File content).
Proof.
  intros Hr Hc. destruct (move_file_ready_run fs s d content Hr Hc) as (fs' & Hw & ->).
  run_proj. destruct (write_file_lookup _ _ _ _ Hw) as [H1 H2].
  split; [reflexivity|]. split; [reflexivity|]. split; [exact H1|].
  rewrite (H2 _ (source_not_above_target _ _ _ Hr)). exact Hc.
Qed.

Lemma move_file_copies_content_witness :
  lookup (segs "/local_disk0/tmp/tpcdi/sf=1/Batch1/Copy.txt")
         (fs_after (move_file batch_file "/local_disk0/tmp/tpcdi/sf=1/Batch1/Copy.txt"
                              batch_fs))
  = Some (File "d").
Proof.
  refine (proj1 (proj2 (proj2
            (move_file_copies_content batch_fs batch_file
               "/local_disk0/tmp/tpcdi/sf=1/Batch1/Copy.txt" "d" _ _)))).
  - unfold copy_ready. repeat split; try (vm_compute; reflexivity).
    + exists ["local_disk0"; "tmp"; "tpcdi"; "sf=1"; "Batch1"], "Copy.txt".
      split; vm_compute; reflexivity.
    + left. vm_compute. reflexivity.
  - vm_compute. reflexivity.
Defined.

(** ** A copy that fails *)





(** ** The pool *)

(** Copies do not disturb one another: the pool gives one outcome per
    task, and a task whose source is a regular file and whose target can
    be written when the pool starts holds a result, whatever the other
    tasks do and in whatever order they complete. *)
Theorem pool_isolates_failures (order : list (string * string)) (fs : node) :
  exists rs,
    outcome (run_pool order fs) = Ok rs /\
    length rs = length order /\
    forall s d r, In ((s, d), r) (combine order rs) ->
                  copy_ready fs s d -> is_ok r = true.
Proof.
  destruct (run_pool_run order fs) as (rs & Hrs & Hlen & _).
  exists rs. split; [exact Hrs|]. split; [exact Hlen|].
  intros s d r Hin Hready. exact (run_pool_ready order fs rs Hrs s d r Hin Hready).
Qed.

(** The transfer raises in one case only: there are files to move and
    the worker count is zero, which the executor refuses with
    [ValueError] before any copy.  A failed copy never makes the
    transfer raise. *)
Theorem transfer_files_raises (E : Env) (filenames : list string) (fs : node) (e : exn) :
  outcome (transfer_files E filenames fs) = Raise e <->
  filenames <> [] /\ threads_of E = 0 /\
  transfer_files E filenames fs = MkRun (Raise ValueError) fs [] /\ e = ValueError.
Proof.
  split.
  - intros He. destruct filenames as [|f l].
    + unfold transfer_files in He. cbn [length Nat.ltb Nat.leb] in He. discriminate.
    + destruct (threads_of E) as [|w] eqn:Hw.
      * assert (Hrun : transfer_files E (f :: l) fs = MkRun (Raise ValueError) fs []).
        { unfold transfer_files. unfold threads_of in Hw. rewrite Hw. reflexivity. }
        rewrite Hrun in He. injection He as <-.
        split; [discriminate|]. split; [reflexivity|]. now split.
      * destruct (transfer_files_run E (f :: l) fs) as (rs & _ & _ & Hok & _).
        -- cbn. lia.
        -- rewrite Hw. lia.
        -- rewrite Hok in He. discriminate.
  - intros (_ & _ & -> & ->). reflexivity.
Qed.

Lemma warnings_app (l1 l2 : list event) :
  length (filter is_warning (l1 ++ l2)) =
  length (filter is_warning l1) + length (filter is_warning l2).
Proof. now rewrite filter_app, length_app. Qed.

Lemma as_completed_loop_warnings (total c : nat) (rs : list (res string)) :
  length (filter is_warning (fst (as_completed_loop total c rs))) = failed rs.
Proof.
  revert c. induction rs as [|r rs IH]; intros c; [reflexivity|].
  destruct r as [m|e].
  - cbn [as_completed_loop fst]. rewrite warnings_app, IH.
    destruct (Nat.eqb (S c mod 10) 0 || Nat.eqb (S c) total)%bool; reflexivity.
  - unfold failed in *. cbn [filter is_ok negb length].
    destruct e; cbn [as_completed_loop fst filter is_warning length]; now rewrite IH.
Qed.

Lemma copy_events_warnings (order : list (string * string)) :
  length (filter is_warning (copy_events order)) = 0.
Proof. induction order as [|j l IH]; [reflexivity | exact IH]. Qed.

(** Every copy that fails is reported by exactly one warning line, and
    the run then still prints its success banner: with files to move
    and a positive worker count, the number of warning lines of the
    transfer is the number of futures that hold an exception. *)
Theorem failed_copies_are_reported (E : Env) (filenames : list string) (fs : node) :
  0 < length filenames -> 0 < threads_of E ->
  exists rs,
    outcome (run_pool (schedule E (threads_of E) (submit_all E filenames)) fs) = Ok rs /\
    length (filter is_warning (log (transfer_files E filenames fs))) = failed rs /\
    In (EvPrint MsgCompletedSuccessfully) (log (transfer_files E filenames fs)).
Proof.
  intros Hk Hw. destruct (transfer_files_run E filenames fs Hk Hw)
    as (rs & Hrs & _ & _ & Hlog).
  exists rs. split; [exact Hrs|]. rewrite Hlog. split.
  - rewrite !warnings_app, copy_events_warnings, as_completed_loop_warnings.
    cbn. lia.
  - apply in_or_app. right. apply in_or_app. right. apply in_cons. apply in_eq.
Qed.

Lemma failed_copies_are_reported_witness :
  exists rs,
    outcome (run_pool (schedule batch_env (threads_of batch_env)
                                (submit_all batch_env [gone_file]))
                      (example_fs true)) = Ok rs /\
    length (filter is_warning (log (transfer_files batch_env [gone_file] (example_fs true))))
      = failed rs /\
    In (EvPrint MsgCompletedSuccessfully)
       (log (transfer_files batch_env [gone_file] (example_fs true))).
Proof.
  apply (failed_copies_are_reported batch_env [gone_file] (example_fs true)).
  - exact (Nat.lt_0_succ 0).
  - exact (Nat.lt_0_succ 3).
Defined.

(** ** The output of the generator *)





(** ** Every event of a run *)

Lemma emits_mkdirs_each (P : event -> Prop) (E : Env) (subdirs : list string) :
  (forall p, P (EvMkdirs p)) -> emits P (mkdirs_each E subdirs).
Proof.
  intros H. induction subdirs as [|d ds IH]; cbn [mkdirs_each]; emits_auto.
  - unfold dbutils_fs_mkdirs. emits_auto. apply H.
  - exact IH.
Qed.

Lemma emits_create_target_directories (P : event -> Prop) (E : Env) :
  (forall m, P (EvPrint m)) -> (forall p, P (EvMkdirs p)) ->
  emits P (create_target_directories E).
Proof.
  intros Hp Hmk. unfold create_target_directories. emits_auto.
  - unfold dbutils_fs_mkdirs. emits_auto. apply Hmk.
  - apply emits_try_except.
    + emits_auto. now apply emits_mkdirs_each.
    + intros e k. destruct e; intros [= <-]. emits_auto. apply Hp.
Qed.

Lemma emits_transfer_files (P : event -> Prop) (E : Env) (filenames : list string) :
  (forall m, P (EvPrint m)) -> (forall s d, P (EvCopyfile s d)) ->
  emits P (transfer_files E filenames).
Proof.
  intros Hp Hcp. unfold transfer_files. emits_auto; auto.
  all: try (apply emits_run_pool; auto).
  all: eapply Forall_impl; [|apply as_completed_loop_prints];
    intros e He; destruct e; try discriminate; auto.
Qed.

Lemma emits_move_to_storage (P : event -> Prop) (E : Env) :
  run_events P E -> emits P (move_to_storage E).
Proof.
  intros (Hp & _ & _ & _ & _ & _ & _ & _ & _ & _ & Hsql & Hmk & Hcp).
  unfold move_to_storage. emits_auto; auto.
  - unfold provision_catalog. emits_auto; auto.
  - unfold report_no_files. emits_auto; auto.
  - now apply emits_create_target_directories.
  - now apply emits_transfer_files.
Qed.

Lemma emits_generate_data (P : event -> Prop) (E : Env) :
  run_events P E -> missing_vars E = false -> emits P (generate_data E).
Proof.
  intros HP Hmiss. pose proof HP as
    (Hp & Hrm & Hct & Hv & Hpo & Hw & Hf & Hr & Hse & Hwt & Hsql & Hmk & Hcp).
  unfold generate_data. rewrite Hmiss. emits_auto; auto.
  - now apply emits_check_data_exists.
  - now apply emits_copy_directory.
  - unfold DIGen. emits_auto; auto. now apply Forall_read_loop.
  - now apply emits_move_to_storage.
Qed.

Lemma missing_vars_run (E : Env) (fs : node) :
  missing_vars E = true ->
  generate_data E fs = MkRun (Raise NotebookExit) fs [EvPrint MsgMissingVars; EvNotebookExit].
Proof. intros H. unfold generate_data. rewrite H. reflexivity. Qed.

(** Lines 84-118.  A run stops at once, through [dbutils.notebook.exit]
    and an exception, exactly when one of the four string variables
    [scale_factor], [tpcdi_directory], [workspace_src_path] and
    [catalog] is unset or empty (a flag that is [False] is not missing):
    it has then printed the error and done nothing else.  In every other
    run [dbutils.notebook.exit] is never called. *)
Theorem missing_variables_abort (E : Env) (fs : node) :
  (scale_factor E = "" \/ tpcdi_directory E = "" \/
   workspace_src_path E = "" \/ catalog E = "" ->
   generate_data E fs =
   MkRun (Raise NotebookExit) fs [EvPrint MsgMissingVars; EvNotebookExit]) /\
  (In EvNotebookExit (log (generate_data E fs)) ->
   scale_factor E = "" \/ tpcdi_directory E = "" \/
   workspace_src_path E = "" \/ catalog E = "").
Proof.
  assert (Hchar : missing_vars E = true <->
                  scale_factor E = "" \/ tpcdi_directory E = "" \/
                  workspace_src_path E = "" \/ catalog E = "").
  { unfold missing_vars. rewrite !orb_true_iff, !String.eqb_eq. tauto. }
  split.
  - intros H. apply missing_vars_run. now apply Hchar.
  - intros Hin. apply Hchar. destruct (missing_vars E) eqn:Hmiss; [reflexivity|].
    exfalso.
    assert (Hem : emits (fun e => e <> EvNotebookExit) (generate_data E)).
    { apply emits_generate_data; [|exact Hmiss]. repeat split; intros; discriminate. }
    specialize (Hem fs). rewrite Forall_forall in Hem. exact (Hem _ Hin eq_refl).
Qed.

Lemma missing_variables_abort_witness :
  generate_data (MkEnv "10" "tpcdi" "" "/ws" true false 4 false
                       (fun _ => false)
                       (fun _ _ fs => MkChild [] "" 0 fs)
                       (fun _ jobs => jobs)
                       (fun p => p))
                (example_fs true)
  = MkRun (Raise NotebookExit) (example_fs true) [EvPrint MsgMissingVars; EvNotebookExit].
Proof.
  refine (proj1 (missing_variables_abort _ (example_fs true)) _).
  right. left. reflexivity.
Defined.


(** ** The enumeration misses nothing *)

Lemma list_files_no_fault (items : list witem) :
  ~ In Fault items -> exists l, list_files items = Ok l.
Proof.
  induction items as [|[[[root ds] fsn]|] items IH]; intros H.
  - now exists [].
  - destruct IH as [l Hl]; [intros Hin; apply H; now right|].
    cbn [list_files]. rewrite Hl. eauto.
  - exfalso. apply H. now left.
Qed.

Lemma list_files_below (fault : string -> bool) (root : string)
      (l : list (string * node)) :
  forall rest,
  list_files
    (flat_map (fun e : string * node =>
                 match e with
                 | (x, c) => match c with
                             | Dir _ => walk_node fault (py_join root x) c
                             | _ => []
                             end
                 end) l) = Ok rest ->
  forall x es', In (x, Dir es') l ->
  exists r1,
    list_files (walk_node fault (py_join root x) (Dir es')) = Ok r1 /\
    forall f, In f r1 -> In f rest.
Proof.
  induction l as [|[y c] l IH]; intros rest Hl x es' Hin; [destruct Hin|].
  cbn [flat_map] in Hl. rewrite list_files_app in Hl.
  match type of Hl with
  | match list_files ?w with _ => _ end = _ =>
      destruct (list_files w) as [r1|e1] eqn:H1; [|discriminate]
  end.
  match type of Hl with
  | match list_files ?w with _ => _ end = _ =>
      destruct (list_files w) as [r2|e2] eqn:H2; [|discriminate]
  end.
  injection Hl as <-. destruct Hin as [[= -> ->]|Hin].
  - exists r1. split; [exact H1|]. intros f Hf. apply in_or_app. now left.
  - destruct (IH r2 eq_refl x es' Hin) as (r & Hr & Hsub).
    exists r. split; [exact Hr|]. intros f Hf. apply in_or_app. right. now apply Hsub.
Qed.

Lemma list_files_complete (fault : string -> bool) (n : node) :
  forall root filenames names c,
  wf n = true ->
  list_files (walk_node fault root n) = Ok filenames ->
  names <> [] -> lookup names n = Some c -> is_dir_node c = false ->
  In (py_join root (rel_path names)) filenames.
Proof.
  induction n as [d| |es IH] using node_rect';
    intros root filenames names c Hwf Hl Hne Hlk Hnd;
    try (destruct names; [congruence | discriminate]).
  destruct names as [|x p]; [congruence|]. cbn [lookup] in Hlk.
  destruct (find_entry x es) as [c0|] eqn:Hf; [|discriminate].
  apply find_entry_In in Hf.
  destruct (wf_Dir es Hwf x c0 Hf) as (Hv & Hwf0 & _).
  cbn [walk_node] in Hl. destruct (fault root); [discriminate|].
  cbn [list_files] in Hl.
  match type of Hl with
  | match list_files ?w with _ => _ end = _ =>
      destruct (list_files w) as [rest|e] eqn:Hrest; [|discriminate]
  end.
  injection Hl as <-. apply in_or_app. destruct p as [|y p].
  - left. cbn in Hlk. injection Hlk as ->. change (rel_path [x]) with x.
    apply in_map. unfold filenames_of. apply in_map_iff. exists (x, c).
    split; [reflexivity|]. apply filter_In. split; [exact Hf|]. cbn [snd]. now rewrite Hnd.
  - right. destruct c0 as [d| |es']; try discriminate.
    destruct (list_files_below fault root es rest Hrest x es' Hf) as (r1 & Hr1 & Hsub).
    apply Hsub. rewrite Forall_forall in IH. specialize (IH _ Hf). cbn [snd] in IH.
    pose proof (lookup_valid _ _ _ Hwf0 Hlk) as Hvp.
    destruct (rel_path_relative (y :: p)) as [Hrel _]; [discriminate | exact Hvp|].
    rewrite rel_path_cons by discriminate.
    rewrite <- (py_join_nested root x _ Hv Hrel).
    apply (IH (py_join root x) r1 (y :: p) c Hwf0 Hr1); [discriminate | exact Hlk | exact Hnd].
Qed.

(** Line 197.  When no directory visit fails, the enumeration returns,
    and its result holds every entry that is not a directory, at any
    depth below the output root, under the name made of the root and the
    entry's relative path. *)
Theorem enumeration_is_complete (E : Env) (fs n : node) :
  wf fs = true -> no_faults E ->
  path_node fs (driver_out_path E) = Some n ->
  exists filenames,
    list_files (os_walk (walk_fault E) fs (driver_out_path E)) = Ok filenames /\
    forall names c,
      names <> [] -> lookup names n = Some c -> is_dir_node c = false ->
      In (py_join (driver_out_path E) (rel_path names)) filenames.
Proof.
  intros Hwf Hnf Hn. rewrite (os_walk_top _ _ _ _ Hn).
  destruct (list_files_no_fault _ (walk_node_no_fault _ (driver_out_path E) n Hnf))
    as [filenames Hl].
  exists filenames. split; [exact Hl|]. intros names c Hne Hlk Hnd.
  pose proof (wf_lookup _ _ _ Hwf (path_node_lookup _ _ _ Hn)) as Hwfn.
  exact (list_files_complete _ n _ _ names c Hwfn Hl Hne Hlk Hnd).
Qed.

Lemma enumeration_is_complete_witness :
  exists filenames,
    list_files (os_walk (walk_fault deep_env) deep_fs (driver_out_path deep_env))
      = Ok filenames /\
    forall names c,
      names <> [] -> lookup names deep_out = Some c -> is_dir_node c = false ->
      In (py_join (driver_out_path deep_env) (rel_path names)) filenames.
Proof.
  apply (enumeration_is_complete deep_env deep_fs deep_out).
  - vm_compute. reflexivity.
  - intros p. reflexivity.
  - vm_compute. reflexivity.
Defined.

(** ** Copying a tree *)

Lemma makedirs_false_true (p : list string) :
  forall fs fs1, makedirs false p fs = inr fs1 -> makedirs true p fs = inr fs1.
Proof.
  induction p as [|x p IH]; intros fs fs1 H; [discriminate|].
  cbn [makedirs] in *. destruct fs as [d| |es]; try discriminate.
  destruct (find_entry x es) as [c|]; [|exact H].
  destruct (makedirs false p c) as [e|c'] eqn:Hm; [discriminate|].
  now rewrite (IH _ _ Hm).
Qed.

Lemma makedirs_fresh (p : list string) :
  forall fs, p <> [] -> kind_at p fs = None -> can_host fs p ->
  exists fs1, makedirs false p fs = inr fs1.
Proof.
  induction p as [|x p IH]; intros fs Hne Hk Hh; [congruence|].
  pose proof (Hh [] _ eq_refl (kind_at_nil fs)) as Hroot.
  destruct fs as [d| |es]; try discriminate.
  cbn [makedirs]. destruct (find_entry x es) as [c|] eqn:Hf; [|eauto].
  rewrite kind_at_cons, Hf in Hk.
  destruct (IH c) as [c' Hc'].
  - intros ->. rewrite kind_at_nil in Hk. discriminate.
  - exact Hk.
  - intros q k Hq Hqk. apply (Hh (x :: q) k).
    + cbn [is_prefix]. now rewrite String.eqb_refl.
    + now rewrite kind_at_cons, Hf.
  - rewrite Hc'. eauto.
Qed.

Lemma place_lookup (p : list string) (t : node) :
  forall fs n, lookup p fs = Some n -> lookup p (place p t fs) = Some t.
Proof.
  induction p as [|x p IH]; intros fs n H; [reflexivity|].
  cbn [lookup] in H. destruct fs as [d| |es]; try discriminate.
  destruct (find_entry x es) as [c|] eqn:Hf; [|discriminate].
  cbn [place]. rewrite Hf. cbn [lookup]. rewrite find_entry_set_same.
  exact (IH _ _ H).
Qed.

Lemma place_diverge (p : list string) (t : node) :
  forall q fs, is_prefix q p = false -> is_prefix p q = false ->
  lookup q (place p t fs) = lookup q fs.
Proof.
  induction p as [|x p IH]; intros q fs Hq Hp; [discriminate|].
  destruct q as [|y q]; [discriminate|]. cbn [is_prefix] in Hq, Hp.
  destruct fs as [d| |es]; try reflexivity. cbn [place].
  destruct (String.eqb y x) eqn:Hyx.
  - apply String.eqb_eq in Hyx. subst y. rewrite String.eqb_refl in Hp. cbn [andb] in Hq, Hp.
    destruct (find_entry x es) as [c|] eqn:Hf; cbn [lookup];
      rewrite find_entry_set_same, Hf.
    + exact (IH _ _ Hq Hp).
    + rewrite (IH _ _ Hq Hp). destruct q; [discriminate | reflexivity].
  - destruct (find_entry x es) as [c|] eqn:Hf; cbn [lookup];
      now rewrite (find_entry_set_other _ _ _ _ Hyx).
Qed.

Lemma remove_at_diverge (p : list string) :
  forall q fs, is_prefix q p = false -> is_prefix p q = false ->
  lookup q (remove_at p fs) = lookup q fs.
Proof.
  induction p as [|x p IH]; intros q fs Hq Hp; [discriminate|].
  destruct q as [|y q]; [discriminate|]. cbn [is_prefix] in Hq, Hp.
  destruct fs as [d| |es]; try reflexivity. cbn [remove_at].
  destruct (String.eqb y x) eqn:Hyx.
  - apply String.eqb_eq in Hyx. subst y. rewrite String.eqb_refl in Hp. cbn [andb] in Hq, Hp.
    destruct p as [|z p]; [discriminate|].
    destruct (find_entry x es) as [c|] eqn:Hf; [|reflexivity].
    cbn [lookup]. rewrite find_entry_set_same, Hf. exact (IH _ _ Hq Hp).
  - destruct p as [|z p].
    + cbn [lookup]. now rewrite (find_entry_remove_other _ _ _ Hyx).
    + destruct (find_entry x es) as [c|] eqn:Hf; [|reflexivity].
      cbn [lookup]. now rewrite (find_entry_set_other _ _ _ _ Hyx).
Qed.

Lemma copied_tree_id (n : node) : has_special n = false -> copied_tree n = n.
Proof.
  induction n as [d| |es IH] using node_rect'; intros H; try reflexivity.
  cbn [copied_tree]. f_equal. cbn [has_special] in H.
  induction es as [|[x c] es IHes]; [reflexivity|].
  inversion IH as [|? ? Hc Hes]; subst. cbn [existsb] in H.
  apply orb_false_iff in H as [H1 H2]. cbn [flat_map snd] in *.
  rewrite (IHes Hes H2).
  destruct c as [d| |l]; [reflexivity | discriminate |].
  now rewrite (Hc H1).
Qed.

Lemma copy_attempt_fresh (src tgt : string) (fs fs1 : node) (es : list (string * node)) :
  path_node fs src = Some (Dir es) -> has_special (Dir es) = false ->
  makedirs false (segs tgt) fs = inr fs1 ->
  copy_attempt src tgt fs =
  MkRun (Ok (Some tgt)) (place (segs tgt) (Dir es) fs1) [EvCopytree src tgt; EvPrint MsgCopied].
Proof.
  intros Hsrc Hsp Hm.
  assert (Hct : shutil_copytree src tgt fs =
                MkRun (Ok tgt) (place (segs tgt) (Dir es) fs1) [EvCopytree src tgt]).
  { unfold shutil_copytree. rewrite bind_emit, bind_get_fs. run_proj. rewrite Hsrc.
    assert (Hl : lift_fs (makedirs false (segs tgt)) fs = MkRun (Ok tt) fs1 []).
    { unfold lift_fs. now rewrite Hm. }
    rewrite (bind_ok _ _ _ tt) by (rewrite Hl; reflexivity).
    rewrite Hl. run_proj. rewrite bind_get_fs. run_proj.
    rewrite Hsp, (copied_tree_id _ Hsp). reflexivity. }
  unfold copy_attempt.
  assert (Hbody : (dst <- shutil_copytree src tgt ;; emit (EvPrint MsgCopied) ;; ret (Some dst)) fs
                  = MkRun (Ok (Some tgt)) (place (segs tgt) (Dir es) fs1)
                          [EvCopytree src tgt; EvPrint MsgCopied]).
  { rewrite (bind_ok _ _ _ tgt) by (rewrite Hct; reflexivity).
    rewrite Hct. run_proj. reflexivity. }
  rewrite (try_except_ok _ _ _ (Some tgt)) by (rewrite Hbody; reflexivity).
  exact Hbody.
Qed.

Lemma copy_fresh_result (src tgt : string) (fs : node) (es : list (string * node)) :
  path_node fs src = Some (Dir es) -> has_special (Dir es) = false ->
  segs tgt <> [] -> kind_at (segs tgt) fs = None -> can_host fs (segs tgt) ->
  is_prefix (segs tgt) (segs src) = false -> is_prefix (segs src) (segs tgt) = false ->
  outcome (copy_attempt src tgt fs) = Ok (Some tgt) /\
  lookup (segs tgt) (fs_after (copy_attempt src tgt fs)) = Some (Dir es) /\
  lookup (segs src) (fs_after (copy_attempt src tgt fs)) = Some (Dir es) /\
  log (copy_attempt src tgt fs) = [EvCopytree src tgt; EvPrint MsgCopied].
Proof.
  intros Hsrc Hsp Hne Hk Hh Hts Hst.
  destruct (makedirs_fresh _ fs Hne Hk Hh) as [fs1 Hm].
  rewrite (copy_attempt_fresh _ _ _ _ _ Hsrc Hsp Hm). run_proj.
  pose proof (makedirs_false_true _ _ _ Hm) as Hm'.
  split; [reflexivity|]. split; [|split; [|reflexivity]].
  - pose proof (makedirs_is_dir _ _ _ Hm') as Hd. unfold kind_at in Hd.
    destruct (lookup (segs tgt) fs1) as [n|] eqn:Hl; [|discriminate].
    exact (place_lookup _ _ _ _ Hl).
  - rewrite (place_diverge _ _ _ _ Hst Hts).
    rewrite (makedirs_elsewhere _ _ _ _ Hm' Hst).
    exact (path_node_lookup _ _ _ Hsrc).
Qed.

(** With [overwrite] set, [copy_directory] replaces the target by a copy
    of the source.  When the source is a directory that holds no named
    pipe, the target is absent or a directory with nothing but
    directories above it, and neither path lies inside the other, the
    call returns the target path; the target is then exactly the source
    tree (what it held before is gone), and the source is unchanged. *)
Theorem copy_directory_replaces_target
    (src tgt : string) (fs : node) (es : list (string * node)) :
  path_node fs src = Some (Dir es) -> has_special (Dir es) = false ->
  segs tgt <> [] -> can_host fs (segs tgt) ->
  is_prefix (segs tgt) (segs src) = false -> is_prefix (segs src) (segs tgt) = false ->
  outcome (copy_directory src tgt true fs) = Ok (Some tgt) /\
  lookup (segs tgt) (fs_after (copy_directory src tgt true fs)) = Some (Dir es) /\
  lookup (segs src) (fs_after (copy_directory src tgt true fs)) = Some (Dir es).
Proof.
  intros Hsrc Hsp Hne Hh Hts Hst.
  assert (Hsne : src <> "").
  { intros ->. discriminate. }
  destruct (lookup (segs tgt) fs) as [n|] eqn:Hl.
  - assert (Hn : exists l, n = Dir l).
    { assert (Hk : kind_at (segs tgt) fs = Some (kind_of n)) by (unfold kind_at; now rewrite Hl).
      pose proof (Hh _ _ (is_prefix_refl _) Hk) as Hd.
      destruct n as [d| |l]; try discriminate. eauto. }
    destruct Hn as [l ->].
    assert (Htgt : path_node fs tgt = Some (Dir l)).
    { apply path_node_dir; [|exact Hl]. intros ->. now apply Hne. }
    rewrite (copy_directory_delete src tgt fs l Htgt Hne). run_proj.
    set (fs0 := remove_at (segs tgt) fs).
    assert (Hsrc0 : path_node fs0 src = Some (Dir es)).
    { apply path_node_dir; [exact Hsne|]. unfold fs0.
      rewrite (remove_at_diverge _ _ _ Hst Hts). exact (path_node_lookup _ _ _ Hsrc). }
    assert (Hk0 : kind_at (segs tgt) fs0 = None).
    { unfold kind_at, fs0. now rewrite (lookup_remove_self _ _ Hne). }
    assert (Hh0 : can_host fs0 (segs tgt)).
    { intros q k Hq Hqk. unfold kind_at in Hqk.
      destruct (lookup q fs0) as [n'|] eqn:Hq0; [|discriminate].
      injection Hqk as <-.
      destruct (lookup_remove _ _ _ _ Hq0) as (n & Hqn & Hdir).
      assert (Hkn : kind_at q fs = Some (kind_of n)) by (unfold kind_at; now rewrite Hqn).
      pose proof (Hh _ _ Hq Hkn) as Hd.
      destruct n as [d| |ln]; try discriminate. cbn in Hdir.
      destruct n' as [d| |ln']; try discriminate. reflexivity. }
    destruct (copy_fresh_result src tgt fs0 es Hsrc0 Hsp Hne Hk0 Hh0 Hts Hst)
      as (H1 & H2 & H3 & _).
    now split.
  - assert (Hex : (os_path_exists fs tgt && true)%bool = false).
    { unfold os_path_exists, path_node. rewrite Hl. now destruct (String.eqb tgt ""). }
    rewrite (copy_directory_no_delete src tgt true fs Hex). run_proj.
    assert (Hk : kind_at (segs tgt) fs = None) by (unfold kind_at; now rewrite Hl).
    destruct (copy_fresh_result src tgt fs es Hsrc Hsp Hne Hk Hh Hts Hst)
      as (H1 & H2 & H3 & _).
    now split.
Qed.

Lemma copy_directory_replaces_target_witness :
  lookup (segs driver_tmp_path)
         (fs_after (copy_directory "/ws/tools/datagen" driver_tmp_path true tool_fs))
  = Some tool_src.
Proof.
  refine (proj1 (proj2 (copy_directory_replaces_target "/ws/tools/datagen" driver_tmp_path
                          tool_fs _ _ _ _ _ _ _))).
  - vm_compute. reflexivity.
  - vm_compute. reflexivity.
  - discriminate.
  - intros q k Hq Hk.
    assert (Hall : forallb (fun q' => match kind_at q' tool_fs with
                                      | Some KDir | None => true
                                      | _ => false
                                      end)
                     [[]; ["local_disk0"]; ["local_disk0"; "tmp"];
                      ["local_disk0"; "tmp"; "tpcdi"];
                      ["local_disk0"; "tmp"; "tpcdi"; "datagen"]]%string = true)
      by (vm_compute; reflexivity).
    rewrite forallb_forall in Hall.
    assert (Hin : In q [[]; ["local_disk0"]; ["local_disk0"; "tmp"];
                        ["local_disk0"; "tmp"; "tpcdi"];
                        ["local_disk0"; "tmp"; "tpcdi"; "datagen"]]%string).
    { change (segs driver_tmp_path)
        with ["local_disk0"; "tmp"; "tpcdi"; "datagen"]%string in Hq.
      repeat (destruct q as [|? q];
              [simpl; tauto
              |cbn [is_prefix] in Hq; apply andb_true_iff in Hq as [He Hq];
               apply String.eqb_eq in He; subst]).
      destruct q; [simpl; tauto | discriminate]. }
    specialize (Hall _ Hin). rewrite Hk in Hall. destruct k; [discriminate..|reflexivity].
  - vm_compute. reflexivity.
  - vm_compute. reflexivity.
Defined.

(** ** The order of the steps *)

Lemma provision_statements_provisioning (E : Env) :
  Forall in_provisioning (provision_statements E).
Proof.
  unfold provision_statements.
  destruct (negb (String.eqb (catalog E) "hive_metastore")); [|constructor].
  destruct (negb (catalog_has_tables E)); repeat constructor.
Qed.

Lemma prints_anywhere (P : event -> Prop) (l : list event) :
  (forall m, P (EvPrint m)) -> Forall (fun e => is_print e = true) l -> Forall P l.
Proof.
  intros HP H. eapply Forall_impl; [|exact H].
  intros e He. destruct e; try discriminate. apply HP.
Qed.

Lemma move_to_storage_order (E : Env) (fs : node) :
  exists l2 l3 l4,
    log (move_to_storage E fs) = l2 ++ l3 ++ l4 /\
    Forall in_provisioning l2 /\ Forall in_preparation l3 /\ Forall in_transfer l4.
Proof.
  assert (H2 : Forall in_provisioning
                 (EvPrint MsgGenerationCompleted :: provision_statements E)).
  { constructor; [repeat split | apply provision_statements_provisioning]. }
  pose proof (move_to_storage_run E fs) as H.
  destruct (list_files (os_walk (walk_fault E) fs (driver_out_path E))) as [filenames|e].
  2:{ exists (EvPrint MsgGenerationCompleted :: provision_statements E), [], [].
      rewrite H. run_proj. rewrite !app_nil_r. repeat split; [exact H2 | constructor..]. }
  cbv zeta in H.
  assert (H3 : Forall in_preparation
                 (EvPrint (MsgFound (length filenames))
                  :: log (found_report E fs filenames))).
  { constructor; [repeat split|]. destruct (found_report_run E fs filenames) as [_ Hp].
    apply prints_anywhere; [repeat split | exact Hp]. }
  destruct (outcome (found_report E fs filenames)) as [u0|e0].
  2:{ exists (EvPrint MsgGenerationCompleted :: provision_statements E),
             (EvPrint (MsgFound (length filenames)) :: log (found_report E fs filenames)), [].
      rewrite H. run_proj. rewrite app_nil_r.
      split; [repeat rewrite <- app_comm_cons; reflexivity|]. split; [exact H2|]. split; [exact H3|constructor]. }
  assert (H3' : Forall in_preparation (log (create_target_directories E fs))).
  { apply emits_create_target_directories; intros; repeat split. }
  destruct (outcome (create_target_directories E fs)) as [u1|e1].
  - exists (EvPrint MsgGenerationCompleted :: provision_statements E),
           ((EvPrint (MsgFound (length filenames)) :: log (found_report E fs filenames))
            ++ log (create_target_directories E fs)),
           (log (transfer_files E filenames (fs_after (create_target_directories E fs)))).
    rewrite H. run_proj. split; [repeat rewrite <- app_comm_cons; repeat rewrite <- app_assoc; reflexivity|].
    split; [exact H2|]. split; [apply Forall_app; now split|].
    apply emits_transfer_files; intros; repeat split.
  - exists (EvPrint MsgGenerationCompleted :: provision_statements E),
           ((EvPrint (MsgFound (length filenames)) :: log (found_report E fs filenames))
            ++ log (create_target_directories E fs)), [].
    rewrite H. run_proj. rewrite app_nil_r.
    split; [repeat rewrite <- app_comm_cons; repeat rewrite <- app_assoc; reflexivity|].
    split; [exact H2|]. split; [apply Forall_app; now split | constructor].
Qed.

(** The steps of a run never interleave: its log is four stretches in
    this order.  Processes are launched in the first only; SQL
    statements are issued in the second only; directories are created
    at the destination in the third only; files are copied in the
    fourth only.  So no file is copied before every directory has been
    created, and no statement is issued after the first directory. *)
Theorem steps_are_ordered (E : Env) (fs : node) :
  exists l1 l2 l3 l4,
    log (generate_data E fs) = l1 ++ l2 ++ l3 ++ l4 /\
    Forall on_driver l1 /\ Forall in_provisioning l2 /\
    Forall in_preparation l3 /\ Forall in_transfer l4.
Proof.
  assert (Hearly : forall l, Forall early l -> Forall on_driver l).
  { intros l Hl. eapply Forall_impl; [|exact Hl]. intros e He. unfold early in He.
    destruct e; try discriminate; repeat split. }
  destruct (generate_data_phases E fs) as [H|(pre & fs2 & Hpre & Hlog & _ & _)].
  - exists (log (generate_data E fs)), [], [], []. rewrite !app_nil_r.
    split; [reflexivity|]. split; [now apply Hearly|]. repeat split; constructor.
  - destruct (move_to_storage_order E fs2) as (l2 & l3 & l4 & Hm & H2 & H3 & H4).
    exists pre, l2, l3, l4. rewrite Hlog, Hm.
    split; [reflexivity|]. split; [now apply Hearly|]. now repeat split.
Qed.

(** ** The two names of the destination *)






(** ** A quote in the scale factor *)








(** ** A run that finds no file *)




(** ** A failure of step 1 *)

(** An exception of the tool copy that [copy_directory] does not catch
    ends the run there: [generate_data] raises it, [DIGen] is not
    called (no process is launched) and step 3 is not entered. *)
Theorem tool_copy_failure_stops_the_run (E : Env) (fs : node) (e : exn) :
  missing_vars E = false -> probe_value E fs = false ->
  outcome (tool_copy E fs) = Raise e ->
  generate_data E fs =
    MkRun (Raise e) (fs_after (tool_copy E fs))
          (log (check_data_exists E fs) ++ EvPrint MsgProceeding :: log (tool_copy E fs)) /\
  Forall (fun ev => is_launch ev = false /\ before_step3 ev = true)
         (log (generate_data E fs)).
Proof.
  intros Hmiss Hprobe Hcopy.
  destruct (check_data_exists_run E fs) as (H0 & Hfs & _). rewrite Hprobe in H0.
  assert (Hrun : generate_data E fs =
            MkRun (Raise e) (fs_after (tool_copy E fs))
                  (log (check_data_exists E fs)
                   ++ EvPrint MsgProceeding :: log (tool_copy E fs))).
  { unfold generate_data. rewrite Hmiss. rewrite (bind_ok _ _ _ _ H0). run_proj.
    rewrite bind_emit. run_proj. rewrite Hfs. unfold tool_copy in *.
    rewrite (bind_raise _ _ _ _ Hcopy). run_proj. reflexivity. }
  split; [exact Hrun|]. rewrite Hrun. run_proj.
  apply Forall_and.
  - apply Forall_app. split.
    + apply (emits_check_data_exists (fun ev => is_launch ev = false)). reflexivity.
    + constructor; [reflexivity|]. unfold tool_copy.
      apply (emits_copy_directory (fun ev => is_launch ev = false)); reflexivity.
  - apply Forall_app. split.
    + exact (early_check_data_exists E fs).
    + constructor; [reflexivity|]. unfold tool_copy.
      exact (early_copy_directory _ _ _ fs).
Qed.

Lemma tool_copy_failure_stops_the_run_witness :
  generate_data batch_env file_tool_fs =
  MkRun (Raise NotADirectoryError) (fs_after (tool_copy batch_env file_tool_fs))
        (log (check_data_exists batch_env file_tool_fs)
         ++ EvPrint MsgProceeding :: log (tool_copy batch_env file_tool_fs)).
Proof.
  refine (proj1 (tool_copy_failure_stops_the_run batch_env file_tool_fs
                   NotADirectoryError _ _ _));
    vm_compute; reflexivity.
Defined.

(** ** What the preparation leaves *)

(** Lines 210-224.  A preparation of the destination that succeeds only
    adds directories: every file and directory that existed keeps its
    kind, whatever is new is a directory, and the destination root is a
    directory afterwards. *)
Theorem preparation_only_adds_directories (E : Env) (fs : node) :
  walk_fault E (driver_out_path E) = false ->
  outcome (create_target_directories E fs) = Ok tt ->
  (forall q k, kind_at q fs = Some k ->
               kind_at q (fs_after (create_target_directories E fs)) = Some k) /\
  (forall q k, kind_at q fs = None ->
               kind_at q (fs_after (create_target_directories E fs)) = Some k ->
               k = KDir) /\
  kind_at (segs (dbfs_mount E (blob_out_path E)))
          (fs_after (create_target_directories E fs)) = Some KDir.
Proof.
  intros Hft Hok.
  destruct (create_target_directories_prepared E fs Hft Hok) as (fs1 & Hm & [HK _]).
  split; [|split].
  - intros q k Hq. now rewrite HK, Hq.
  - intros q k Hq Hq'. rewrite HK, Hq in Hq'.
    destruct (existsb (is_prefix q) _); [|discriminate]. now injection Hq' as <-.
  - rewrite HK. pose proof (makedirs_kind _ _ _ (segs (dbfs_mount E (blob_out_path E))) Hm) as H1.
    rewrite is_prefix_refl in H1.
    destruct (kind_at (segs (dbfs_mount E (blob_out_path E))) fs) as [k|] eqn:Hk.
    + pose proof (makedirs_is_dir _ _ _ Hm) as H2. rewrite H1 in H2. exact H2.
    + cbn [existsb]. now rewrite is_prefix_refl.
Qed.

Lemma preparation_only_adds_directories_witness :
  kind_at (segs (dbfs_mount batch_env (blob_out_path batch_env)))
          (fs_after (create_target_directories batch_env batch_fs)) = Some KDir.
Proof.
  refine (proj2 (proj2 (preparation_only_adds_directories batch_env batch_fs _ _)));
    vm_compute; reflexivity.
Defined.

(** ** What the pool leaves *)

Lemma write_file_wf (p : list string) (d : string) :
  Forall (fun x => valid_name x = true) p ->
  forall fs fs', wf fs = true -> write_file p d fs = inr fs' -> wf fs' = true.
Proof.
  induction 1 as [|x p Hx Hp IH]; intros fs fs' Hwf Hw; [discriminate|].
  cbn [write_file] in Hw. destruct fs as [c| |es]; try discriminate.
  destruct p as [|z p].
  - assert (Hfs' : fs' = Dir (set_entry x (File d) es)).
    { destruct (find_entry x es) as [[c| |l]|]; try discriminate; now injection Hw as <-. }
    subst fs'. now apply wf_set_entry.
  - destruct (find_entry x es) as [c|] eqn:Hf; [|discriminate].
    destruct (write_file (z :: p) d c) as [e|c'] eqn:Hw'; [discriminate|].
    injection Hw as <-. apply wf_set_entry; [exact Hx| |exact Hwf].
    apply find_entry_In in Hf. destruct (wf_Dir _ Hwf _ _ Hf) as (_ & Hc & _).
    exact (IH _ _ Hc Hw').
Qed.

Lemma run_pool_fs (s d : string) (rest : list (string * string)) (fs : node) :
  fs_after (run_pool ((s, d) :: rest) fs) =
  fs_after (run_pool rest (fs_after (move_file s d fs))).
Proof.
  destruct (run_pool_run rest (fs_after (move_file s d fs))) as (rs & Hrs & _ & _).
  cbn [run_pool].
  rewrite (bind_ok (capture (move_file s d)) _ fs (outcome (move_file s d fs)) eq_refl).
  run_proj.
  change (fs_after (capture (move_file s d) fs)) with (fs_after (move_file s d fs)).
  rewrite (bind_ok _ _ _ _ Hrs). run_proj. reflexivity.
Qed.

Lemma run_pool_invariant (I : node -> Prop) :
  (forall fs s d, I fs -> I (fs_after (move_file s d fs))) ->
  forall order fs, I fs -> I (fs_after (run_pool order fs)).
Proof.
  intros Hstep. induction order as [|[s d] order IH]; intros fs Hfs; [exact Hfs|].
  rewrite run_pool_fs. apply IH. now apply Hstep.
Qed.

Lemma move_file_wf (fs : node) (s d : string) :
  wf fs = true -> wf (fs_after (move_file s d fs)) = true.
Proof.
  intros Hwf. destruct (move_file_fs s d fs) as [->|(c & fs' & Hw & ->)]; [exact Hwf|].
  exact (write_file_wf _ _ (segs_all_valid d) _ _ Hwf Hw).
Qed.

Lemma move_file_keeps_kind (q : list string) (k : kind) (fs : node) (s d : string) :
  kind_at q fs = Some k -> kind_at q (fs_after (move_file s d fs)) = Some k.
Proof.
  intros Hq. destruct (move_file_fs s d fs) as [->|(c & fs' & Hw & ->)]; [exact Hq|].
  destruct (write_file_kind _ _ _ _ q Hw) as [Hold ->].
  destruct (segs_eqb q (segs d)) eqn:He; [|exact Hq].
  apply segs_eqb_eq in He. subst q. destruct Hold; congruence.
Qed.

Lemma run_pool_writes (order : list (string * string)) :
  forall fs s d, copy_ready fs s d -> In (s, d) order ->
  kind_at (segs d) (fs_after (run_pool order fs)) = Some KFile.
Proof.
  induction order as [|[s0 d0] order IH]; intros fs s d Hready Hin; [destruct Hin|].
  rewrite run_pool_fs. destruct Hin as [[= -> ->]|Hin].
  - apply (run_pool_invariant (fun fs => kind_at (segs d) fs = Some KFile)).
    + intros fs0 s' d' H0. now apply move_file_keeps_kind.
    + pose proof Hready as (_ & _ & Hsk & _).
      destruct (kind_at_file _ _ Hsk) as [c Hc].
      destruct (move_file_ready_run fs s d c Hready Hc) as (fs' & Hw & ->). run_proj.
      destruct (write_file_kind _ _ _ _ (segs d) Hw) as [_ ->].
      now rewrite segs_eqb_refl.
  - apply (IH _ s d); [|exact Hin]. now apply copy_ready_preserved.
Qed.

Lemma transfer_files_fs (E : Env) (filenames : list string) (fs : node) :
  0 < length filenames -> 0 < threads_of E ->
  fs_after (transfer_files E filenames fs) =
  fs_after (run_pool (schedule E (threads_of E) (submit_all E filenames)) fs).
Proof.
  intros HK HW. unfold transfer_files. fold (threads_of E).
  apply Nat.ltb_lt in HK. rewrite HK.
  destruct (Nat.eqb (threads_of E) 0) eqn:Hz; [apply Nat.eqb_eq in Hz; lia|].
  destruct (run_pool_run (schedule E (threads_of E) (submit_all E filenames)) fs)
    as (rs & Hrs & _ & _).
  rewrite (bind_ok _ _ _ _ Hrs). run_proj. reflexivity.
Qed.

(** ** What the preparation keeps *)

Lemma try_except_fs {A : Type} (m : M A) (h : exn -> option (M A)) (fs : node) :
  (forall e k fs0, h e = Some k -> fs_after (k fs0) = fs0) ->
  fs_after (try_except m h fs) = fs_after (m fs).
Proof.
  intros Hh. unfold try_except. destruct (outcome (m fs)) as [a|e]; [reflexivity|].
  destruct (h e) as [k|] eqn:He; [|reflexivity]. cbn [fs_after]. exact (Hh _ _ _ He).
Qed.

Lemma dbutils_fs_mkdirs_wf (E : Env) (path : string) (fs : node) :
  wf fs = true -> wf (fs_after (dbutils_fs_mkdirs E path fs)) = true.
Proof.
  intros Hwf. rewrite dbutils_fs_mkdirs_run.
  destruct (makedirs true (segs (dbfs_mount E path)) fs) as [e|fs'] eqn:Hm; run_proj.
  - exact Hwf.
  - exact (makedirs_wf true _ (segs_all_valid _) _ _ Hwf Hm).
Qed.

Lemma mkdirs_each_wf (E : Env) (subdirs : list string) :
  forall fs, wf fs = true -> wf (fs_after (mkdirs_each E subdirs fs)) = true.
Proof.
  induction subdirs as [|d ds IH]; intros fs Hwf; [exact Hwf|].
  cbn [mkdirs_each].
  pose proof (dbutils_fs_mkdirs_wf E (blob_out_path E ++ "/" ++ d) fs Hwf) as H1.
  destruct (outcome (dbutils_fs_mkdirs E (blob_out_path E ++ "/" ++ d) fs)) as [u|e] eqn:Ho.
  - rewrite (bind_ok _ _ _ _ Ho). run_proj. now apply IH.
  - rewrite (bind_raise _ _ _ _ Ho). run_proj. exact H1.
Qed.

Lemma create_target_directories_wf (E : Env) (fs : node) :
  wf fs = true -> wf (fs_after (create_target_directories E fs)) = true.
Proof.
  intros Hwf. unfold create_target_directories.
  pose proof (dbutils_fs_mkdirs_wf E (blob_out_path E) fs Hwf) as H1.
  destruct (outcome (dbutils_fs_mkdirs E (blob_out_path E) fs)) as [u|e] eqn:Ho.
  2:{ rewrite (bind_raise _ _ _ _ Ho). run_proj. exact H1. }
  rewrite (bind_ok _ _ _ _ Ho). run_proj. rewrite bind_get_fs. run_proj.
  set (fs1 := fs_after (dbutils_fs_mkdirs E (blob_out_path E) fs)) in *.
  rewrite try_except_fs.
  2:{ intros e k fs0. destruct e; intros [= <-]. reflexivity. }
  destruct (walk_next (os_walk (walk_fault E) fs1 (driver_out_path E))) as [t|e].
  - rewrite bind_lift_res_ok. run_proj. now apply mkdirs_each_wf.
  - rewrite bind_lift_res_raise. run_proj. exact H1.
Qed.

(** ** The next run *)

Lemma probe_after_copy (E : Env) (fs : node) (names : list string) :
  wf fs = true -> no_faults E -> scale_factor E <> "" ->
  names <> [] ->
  kind_at (segs (os_blob_out_path E) ++ names) fs = Some KFile ->
  probe_value E fs = true.
Proof.
  intros Hwf Hnf Hsf Hne Hk. apply probe_value_reachable; [exact Hwf | exact Hnf|].
  rewrite kind_at_app in Hk.
  destruct (lookup (segs (os_blob_out_path E)) fs) as [m|] eqn:Hm; [|discriminate].
  destruct (kind_at_file _ _ Hk) as [c Hc].
  assert (Hd : exists l, m = Dir l).
  { destruct names as [|x p]; [congruence|]. cbn [lookup] in Hc.
    destruct m as [d| |l]; try discriminate. eauto. }
  destruct Hd as [l ->].
  exists (Dir l), names, c. split; [|now split].
  apply path_node_dir; [|exact Hm].
  rewrite os_blob_out_path_eq. now apply append_not_empty_r.
Qed.

Lemma skipped_run (E : Env) (fs : node) :
  missing_vars E = false -> probe_value E fs = true ->
  generate_data E fs = MkRun (Ok tt) fs (log (check_data_exists E fs) ++ [EvPrint MsgSkipped]).
Proof.
  intros Hmiss Hprobe. destruct (check_data_exists_run E fs) as (H0 & Hfs & _).
  rewrite Hprobe in H0. unfold generate_data. rewrite Hmiss.
  rewrite (bind_ok _ _ _ _ H0). run_proj. rewrite Hfs. reflexivity.
Qed.

(** Step 3 on a file system that holds a regular file one or two levels
    below the output root: the file is enumerated and copied, and the
    probe of the destination is true afterwards. *)
Lemma move_to_storage_fills (E : Env) (fs : node) (names : list string) (content : string) :
  wf fs = true -> scale_factor E <> "" ->
  no_faults E -> mount_agrees E -> fair_schedule E -> 0 < threads_of E ->
  os_path_exists fs (os_blob_out_path E) = false ->
  outcome (create_target_directories E fs) = Ok tt ->
  lookup (segs (driver_out_path E) ++ names) fs = Some (File content) ->
  names <> [] -> length names <= 2 ->
  outcome (move_to_storage E fs) = Ok tt /\
  probe_value E (fs_after (move_to_storage E fs)) = true.
Proof.
  intros Hwf Hsf Hnf Hma Hfair Hw Hex Hok Hsrc Hne Hlen.
  destruct (root_separators E Hsf) as (_ & _ & Htop).
  assert (Hv : Forall (fun x => valid_name x = true) names).
  { pose proof (lookup_valid _ _ _ Hwf Hsrc) as H. now apply Forall_app in H as [_ H]. }
  pose proof Hsrc as Hsrc'. rewrite lookup_app in Hsrc'.
  destruct (lookup (segs (driver_out_path E)) fs) as [n|] eqn:Hn; [|discriminate].
  assert (Hd : exists l, n = Dir l).
  { destruct names as [|x p]; [congruence|]. cbn [lookup] in Hsrc'.
    destruct n as [d| |l]; try discriminate. eauto. }
  destruct Hd as [l ->].
  pose proof (path_node_dir _ _ _ Htop Hn) as Hpn.
  pose proof (wf_lookup _ _ _ Hwf Hn) as Hwfn.
  destruct (list_files_no_fault _ (walk_node_no_fault _ (driver_out_path E) (Dir l) Hnf))
    as [filenames Hl].
  pose proof (list_files_complete _ _ _ _ names _ Hwfn Hl Hne Hsrc' eq_refl) as Hin.
  assert (HK : 0 < length filenames).
  { destruct filenames; [destruct Hin | cbn; lia]. }
  pose proof (move_to_storage_run E fs) as H.
  rewrite (os_walk_top _ _ _ _ Hpn), Hl in H. cbv zeta in H.
  assert (Hfound : outcome (found_report E fs filenames) = Ok tt).
  { unfold found_report. destruct filenames; [destruct Hin | reflexivity]. }
  rewrite Hfound, Hok in H.
  destruct (transfer_files_run E filenames (fs_after (create_target_directories E fs)) HK Hw)
    as (rs & Hrs & _ & Hout & _).
  rewrite H. run_proj. split; [exact Hout|].
  rewrite (transfer_files_fs E filenames _ HK Hw).
  set (fsP := fs_after (create_target_directories E fs)) in *.
  set (order := schedule E (threads_of E) (submit_all E filenames)) in *.
  pose proof (shallow_copy_ready E fs names content Hwf Hsf Hma Hex (Hnf _) Hok Hsrc Hne Hlen)
    as Hready.
  fold fsP in Hready.
  assert (Hino : In (py_join (driver_out_path E) (rel_path names),
                     py_join (os_blob_out_path E) (rel_path names)) order).
  { apply (Permutation_in _ (Permutation_sym (Hfair _ _))).
    unfold submit_all. apply in_map_iff.
    exists (py_join (driver_out_path E) (rel_path names)).
    split; [now rewrite (shallow_destination E names Hsf Hne Hv Hlen) | exact Hin]. }
  pose proof (run_pool_writes order fsP _ _ Hready Hino) as Hfile.
  destruct (join_rel_path names Hne Hv (os_blob_out_path E)) as (Ds & _ & _).
  rewrite Ds in Hfile.
  apply (probe_after_copy E _ names); try assumption.
  apply (run_pool_invariant (fun fs0 => wf fs0 = true)).
  - intros fs0 s d H0. now apply move_file_wf.
  - now apply create_target_directories_wf.
Qed.

(** The existence check of lines 140-164 holds after a run that moved data.  When
    a run gets through the generator, the generator leaves a regular
    file one or two levels below the output root, the destination did
    not exist and its preparation succeeds, then the run ends normally
    and a second run on the file system it leaves is skipped: it prints
    that the data exists and does nothing else. *)
Theorem rerun_is_skipped (E : Env) (fs : node) (names : list string) (content : string) :
  reaches_generation E fs -> outcome (generation E fs) = Ok tt ->
  wf (fs_after (generation E fs)) = true ->
  no_faults E -> mount_agrees E -> fair_schedule E -> 0 < threads_of E ->
  os_path_exists (fs_after (generation E fs)) (os_blob_out_path E) = false ->
  outcome (create_target_directories E (fs_after (generation E fs))) = Ok tt ->
  lookup (segs (driver_out_path E) ++ names) (fs_after (generation E fs))
    = Some (File content) ->
  names <> [] -> length names <= 2 ->
  outcome (generate_data E fs) = Ok tt /\
  generate_data E (fs_after (generate_data E fs)) =
    MkRun (Ok tt) (fs_after (generate_data E fs))
          (log (check_data_exists E (fs_after (generate_data E fs)))
           ++ [EvPrint MsgSkipped]).
Proof.
  intros Hreach Hgen Hwf Hnf Hma Hfair Hw Hex Hok Hsrc Hne Hlen.
  pose proof Hreach as (Hmiss & _ & _).
  assert (Hsf : scale_factor E <> "").
  { intros Hs. unfold missing_vars in Hmiss. rewrite Hs in Hmiss. discriminate. }
  destruct (move_to_storage_fills E _ names content Hwf Hsf Hnf Hma Hfair Hw Hex Hok
              Hsrc Hne Hlen) as [Hout Hprobe].
  rewrite (generate_data_step3 E fs tt Hreach Hgen). run_proj.
  split; [exact Hout|]. now apply skipped_run.
Qed.

Lemma rerun_is_skipped_witness :
  outcome (generate_data batch_env (example_fs true)) = Ok tt /\
  generate_data batch_env (fs_after (generate_data batch_env (example_fs true))) =
    MkRun (Ok tt) (fs_after (generate_data batch_env (example_fs true)))
          (log (check_data_exists batch_env
                  (fs_after (generate_data batch_env (example_fs true))))
           ++ [EvPrint MsgSkipped]).
Proof.
  refine (rerun_is_skipped batch_env (example_fs true) ["Batch1"; "Date.txt"]%string "d"
            _ _ _ _ (example_agrees "tpcdi" 0 one_batch)
            (example_fair true "tpcdi" 0 one_batch) _ _ _ _ _ _).
  - unfold reaches_generation. repeat split; vm_compute; reflexivity.
  - vm_compute. reflexivity.
  - vm_compute. reflexivity.
  - intros p. reflexivity.
  - exact (Nat.lt_0_succ 3).
  - vm_compute. reflexivity.
  - vm_compute. reflexivity.
  - vm_compute. reflexivity.
  - discriminate.
  - exact (le_n 2).
Defined.

